(** * The GTD cleaning script ([pyspark_etl/gtd_cleaning.py]) as a Rocq model

    The script is one straight sequence of pandas statements over a single
    global data frame.  It is modelled here as a program in a small
    state-and-exception monad: the state holds the data frame [df], the
    variable [initial_rows], the console and the files written so far; the
    only exception the statements of the script can raise on a loaded frame
    is pandas' [KeyError], raised by [df[col]] for an absent column.

    The numeric parser behind [pd.to_numeric] belongs to pandas, not to the
    script; it is the interface [Numeric] below. *)

From Stdlib Require Import String Ascii List Bool Arith PeanoNat ZArith QArith Lia.
Import ListNotations.
Local Open Scope string_scope.
Local Open Scope nat_scope.
Local Open Scope list_scope.

Set Implicit Arguments.

(* ================================================================== *)
(** ** Python strings (latin-1 decoded) *)

Module PyStr.

(** [str.lower] on the code points a latin-1 decoded file can hold:
    A-Z, and the accented capitals U+00C0..U+00DE except U+00D7. *)
Definition is_upper (a : ascii) : bool :=
  let n := nat_of_ascii a in
  ((65 <=? n) && (n <=? 90))
  || ((192 <=? n) && (n <=? 222) && negb (n =? 215)).

Definition lower_char (a : ascii) : ascii :=
  if is_upper a then ascii_of_nat (nat_of_ascii a + 32) else a.

Fixpoint lower (s : string) : string :=
  match s with
  | EmptyString => EmptyString
  | String a r => String (lower_char a) (lower r)
  end.

(** [str.isspace] below U+0100: TAB..CR, FS..US, space, NEL, NBSP. *)
Definition is_space (a : ascii) : bool :=
  let n := nat_of_ascii a in
  ((9 <=? n) && (n <=? 13)) || ((28 <=? n) && (n <=? 32))
  || (n =? 133) || (n =? 160).

Fixpoint lstrip (s : string) : string :=
  match s with
  | EmptyString => EmptyString
  | String a r => if is_space a then lstrip r else s
  end.

Fixpoint rstrip (s : string) : string :=
  match s with
  | EmptyString => EmptyString
  | String a r =>
      match rstrip r with
      | EmptyString => if is_space a then EmptyString else String a EmptyString
      | r' => String a r'
      end
  end.

Definition strip (s : string) : string := lstrip (rstrip s).

(** [x in names] for a list of strings. *)
Definition mem (x : string) (l : list string) : bool :=
  existsb (String.eqb x) l.

(** No name occurs twice. *)
Fixpoint nodupb (l : list string) : bool :=
  match l with
  | [] => true
  | x :: r => negb (mem x r) && nodupb r
  end.

End PyStr.
Import PyStr.

(* ================================================================== *)
(** ** Numbers *)

(** What the script needs from pandas' numbers: equality (for [nunique]
    and [drop_duplicates]), the parser of [pd.to_numeric] and [str()].
    [parse_numeric s = None] covers both a text that is no number and a
    text that parses to NaN, since NaN is pandas' missing marker. *)
Class Numeric (num : Type) : Type := {
  num_eqb : num -> num -> bool;
  num_eqb_eq : forall x y, num_eqb x y = true <-> x = y;
  parse_numeric : string -> option num;
  num_str : num -> string
}.

(* ================================================================== *)
(** ** Outcome of a statement: a value, or pandas' [KeyError] *)

Inductive result (A : Type) : Type :=
| Ok (a : A)
| KeyError (col : string).
Arguments KeyError {A} col.

(* ================================================================== *)
(** ** Cells, columns, data frames *)

Section Cleaner.

Context {num : Type} {NUM : Numeric num}.

(** A cell as [read_csv] produces it for this data set: missing (NaN), a
    number, or a text. *)
Inductive value : Type :=
| NA
| Num (x : num)
| Str (s : string).

Definition isna (v : value) : bool :=
  match v with NA => true | _ => false end.

Definition notna (v : value) : bool := negb (isna v).

Definition is_str (v : value) : bool :=
  match v with Str _ => true | _ => false end.

Definition value_eqb (a b : value) : bool :=
  match a, b with
  | NA, NA => true
  | Num x, Num y => num_eqb x y
  | Str s, Str t => String.eqb s t
  | _, _ => false
  end.

Definition column : Type := list value.

#[local] Set Primitive Projections.

(** A frame: the length of its index and its columns in header order. *)
Record DataFrame : Type := mkDF {
  nrows : nat;
  cols : list (string * column)
}.

Definition header (t : DataFrame) : list string := map fst (cols t).

(** The shape [read_csv] guarantees: column names are unique (duplicates
    are renamed on load) and every column has one cell per row. *)
Definition rectangular (t : DataFrame) : Prop :=
  Forall (fun c => length (snd c) = nrows t) (cols t).

Definition well_formed (t : DataFrame) : Prop :=
  NoDup (header t) /\ rectangular t.

(** [df[name]]: [None] stands for the [KeyError]. *)
Fixpoint assoc (name : string) (l : list (string * column)) : option column :=
  match l with
  | [] => None
  | (n, v) :: r => if String.eqb n name then Some v else assoc name r
  end.

Definition get_col (name : string) (t : DataFrame) : option column :=
  assoc name (cols t).

(** [df[name] = v]: replaces the column in place, or appends a new one. *)
Fixpoint assign (name : string) (v : column) (l : list (string * column))
  : list (string * column) :=
  match l with
  | [] => [(name, v)]
  | (n, x) :: r =>
      if String.eqb n name then (n, v) :: r else (n, x) :: assign name v r
  end.

Definition set_col (name : string) (v : column) (t : DataFrame) : DataFrame :=
  mkDF (nrows t) (assign name v (cols t)).

(** [df[mask]]: the rows at which the mask is true, in every column. *)
Fixpoint select (mask : list bool) (v : column) : column :=
  match mask, v with
  | b :: m, x :: r => if b then x :: select m r else select m r
  | _, _ => []
  end.

Definition count_true (mask : list bool) : nat :=
  length (filter (fun b => b) mask).

Definition boolean_index (mask : list bool) (t : DataFrame) : DataFrame :=
  mkDF (count_true mask) (map (fun c => (fst c, select mask (snd c))) (cols t)).

Fixpoint zip_with (f : bool -> bool -> bool) (a b : list bool) : list bool :=
  match a, b with
  | x :: a', y :: b' => f x y :: zip_with f a' b'
  | _, _ => []
  end.

(* ------------------------------------------------------------------ *)
(** *** Cell-wise pandas operations *)

(** [astype(str)]: NaN is rendered as the text nan. *)
Definition astype_str (v : value) : value :=
  match v with
  | NA => Str "nan"
  | Num x => Str (num_str x)
  | Str s => Str s
  end.

(** [.str.lower()], [.str.strip()]: cells that are no text become NaN. *)
Definition str_lower (v : value) : value :=
  match v with Str s => Str (lower s) | _ => NA end.

Definition str_strip (v : value) : value :=
  match v with Str s => Str (strip s) | _ => NA end.

(** [.replace(tokens, np.nan)]: a text equal to one of the tokens becomes
    NaN; every other cell is kept. *)
Definition replace_nan (tokens : list string) (v : value) : value :=
  match v with
  | Str s => if mem s tokens then NA else Str s
  | _ => v
  end.

(** [pd.to_numeric(..., errors='coerce')]. *)
Definition to_numeric (v : value) : value :=
  match v with
  | NA => NA
  | Num x => Num x
  | Str s => match parse_numeric s with Some x => Num x | None => NA end
  end.

(** [.fillna(x)]. *)
Definition fillna (x : value) (v : value) : value :=
  match v with NA => x | _ => v end.

(** [select_dtypes(include='object').columns]: on a freshly loaded frame
    a column has the object dtype exactly when it holds some text. *)
Definition is_object (v : column) : bool := existsb is_str v.

Definition select_dtypes_object (t : DataFrame) : list string :=
  map fst (filter (fun c => is_object (snd c)) (cols t)).

(* ------------------------------------------------------------------ *)
(** *** Console, files, and the monad of the script *)

Inductive line : Type :=
| InitialRows (n : nat)
| RowsDroppedLatLon (n : nat)
| MismatchIn (code_col text_col : string)
| MismatchCounts (counts : list (value * nat))
| NonNumericFound (col : string)
| Preview (vals : list value)
| Saved (path : string)
| DroppingSparse (names : list string)
| FinalRows (n : nat)
| TotalRowsDropped (n : Z)
| CleanedSaved (path : string).

Record world : Type := mkWorld {
  df : DataFrame;
  initial_rows : nat;
  stdout : list line;
  disk : list (string * DataFrame)
}.

Definition M (A : Type) : Type := world -> result (A * world).

Definition ret {A} (a : A) : M A := fun w => Ok (a, w).

Definition bind {A B} (m : M A) (k : A -> M B) : M B :=
  fun w => match m w with
           | Ok (a, w') => k a w'
           | KeyError c => KeyError c
           end.

Notation "x <- m ;; k" := (bind m (fun x => k))
  (at level 61, m at next level, right associativity).
Notation "m ;; k" := (bind m (fun _ => k))
  (at level 61, right associativity).

Definition get_df : M DataFrame := fun w => Ok (df w, w).

Definition with_df (t : DataFrame) (w : world) : world :=
  mkWorld t (initial_rows w) (stdout w) (disk w).

Definition put_df (t : DataFrame) : M unit :=
  fun w => Ok (tt, with_df t w).

Definition getitem (name : string) : M column :=
  fun w => match get_col name (df w) with
           | Some v => Ok (v, w)
           | None => KeyError name
           end.

Definition setitem (name : string) (v : column) : M unit :=
  t <- get_df ;; put_df (set_col name v t).

Definition print (l : line) : M unit :=
  fun w => Ok (tt, mkWorld (df w) (initial_rows w) (stdout w ++ [l]) (disk w)).

Definition to_csv (path : string) (t : DataFrame) : M unit :=
  fun w => Ok (tt, mkWorld (df w) (initial_rows w) (stdout w) (disk w ++ [(path, t)])).

Fixpoint for_each {A} (l : list A) (body : A -> M unit) : M unit :=
  match l with
  | [] => ret tt
  | x :: r => body x ;; for_each r body
  end.

Definition when (b : bool) (m : M unit) : M unit := if b then m else ret tt.

(** [df[col] = f(df[col])] *)
Definition apply_col (col : string) (f : column -> column) : M unit :=
  v <- getitem col ;;
  setitem col (f v).

Definition raise {A} (col : string) : M A := fun _ => KeyError col.

Definition getitem_of (t : DataFrame) (name : string) : M column :=
  match get_col name t with
  | Some v => ret v
  | None => raise name
  end.

Definition set_initial_rows (n : nat) : M unit :=
  fun w => Ok (tt, mkWorld (df w) n (stdout w) (disk w)).

Definition get_initial_rows : M nat := fun w => Ok (initial_rows w, w).

(* ================================================================== *)
(** ** The script, statement by statement *)

(** [initial_rows = len(df)] *)
Definition track_initial_rows : M unit :=
  t <- get_df ;;
  set_initial_rows (nrows t) ;;
  print (InitialRows (nrows t)).

(* ------------------------------------------------------------------ *)
(** *** Text normalization *)

Definition placeholder_vals : list string :=
  ["unknown"; "not applicable"; "unk"; "none"; "nan"; ""].

(** [df.replace(tokens, np.nan)] over the whole frame. *)
Definition replace_frame (tokens : list string) (t : DataFrame) : DataFrame :=
  mkDF (nrows t)
       (map (fun c => (fst c, map (replace_nan tokens) (snd c))) (cols t)).

Definition normalize_col (col : string) : M unit :=
  apply_col col (fun v => map str_strip (map str_lower (map astype_str v))) ;;
  apply_col col (map (replace_nan placeholder_vals)).

Definition text_normalization : M unit :=
  t <- get_df ;;
  for_each (select_dtypes_object t) normalize_col ;;
  t <- get_df ;;
  put_df (replace_frame ["<na>"; "nan"] t).

(* ------------------------------------------------------------------ *)
(** *** Binary / boolean fields *)

Definition binary_cols : list string :=
  ["claimed"; "ishostkid"; "INT_ANY"; "INT_MISC"; "INT_IDEO"; "INT_LOG";
   "property"; "doubtterr"; "vicinity"].

Definition coerce_col (col : string) : M unit :=
  apply_col col (map to_numeric).

Definition clean_binary (names : list string) : M unit :=
  for_each names coerce_col.

(* ------------------------------------------------------------------ *)
(** *** Rows missing latitude or longitude *)

(** The keep-mask of [dropna(subset=...)]: a row stays when none of the
    subset columns is missing in it. *)
Fixpoint notna_mask (subset : list string) : M (list bool) :=
  match subset with
  | [] => t <- get_df ;; ret (repeat true (nrows t))
  | c :: r =>
      v <- getitem c ;;
      m <- notna_mask r ;;
      ret (zip_with andb (map notna v) m)
  end.

Definition dropna (subset : list string) : M unit :=
  mask <- notna_mask subset ;;
  t <- get_df ;;
  put_df (boolean_index mask t).

Definition drop_missing_latlon : M unit :=
  lat <- getitem "latitude" ;;
  lon <- getitem "longitude" ;;
  t <- get_df ;;
  let missing_latlon :=
    boolean_index (zip_with orb (map isna lat) (map isna lon)) t in
  print (RowsDroppedLatLon (nrows missing_latlon)) ;;
  dropna ["latitude"; "longitude"].

(* ------------------------------------------------------------------ *)
(** *** Common missing fields *)

Definition fill_unknown (col : string) : M unit :=
  apply_col col (map (fillna (Str "unknown"))).

Definition fill_common : M unit :=
  fill_unknown "city" ;;
  fill_unknown "provstate".

(* ------------------------------------------------------------------ *)
(** *** Code / text alignment check *)

(** Distinct values in order of first occurrence ([drop_duplicates],
    and the key set of [groupby]; pandas prints the keys sorted, which no
    statement of the script observes). *)
Fixpoint unique (l : column) : column :=
  match l with
  | [] => []
  | x :: r => x :: filter (fun y => negb (value_eqb x y)) (unique r)
  end.

(** [nunique()]: distinct non-missing values. *)
Definition nunique (v : column) : nat := length (unique (filter notna v)).

(** [df.groupby(code_col)[text_col].nunique()]: rows with a missing key
    belong to no group. *)
Definition groupby_nunique (codes texts : column) : list (value * nat) :=
  map (fun k => (k, nunique (select (map (value_eqb k) codes) texts)))
      (unique (filter notna codes)).

(** [.max()] of a series is NaN when the series is empty, and a
    comparison with NaN is false. *)
Definition series_max (s : list (value * nat)) : option nat :=
  match s with
  | [] => None
  | _ => Some (fold_right Nat.max 0 (map snd s))
  end.

Definition gt (m : option nat) (k : nat) : bool :=
  match m with Some n => k <? n | None => false end.

Definition check_alignment (t : DataFrame) (code_col text_col : string)
  : M unit :=
  codes <- getitem_of t code_col ;;
  texts <- getitem_of t text_col ;;
  let mismatches := groupby_nunique codes texts in
  when (gt (series_max mismatches) 1)
    (print (MismatchIn code_col text_col) ;;
     print (MismatchCounts (filter (fun kc => 1 <? snd kc) mismatches))).

Definition alignment_pairs : list (string * string) :=
  [("country", "country_txt");
   ("region", "region_txt");
   ("attacktype1", "attacktype1_txt");
   ("targtype1", "targtype1_txt");
   ("targsubtype1", "targsubtype1_txt");
   ("weaptype1", "weaptype1_txt");
   ("weapsubtype1", "weapsubtype1_txt")].

Definition alignment_checks : M unit :=
  for_each alignment_pairs (fun p =>
    t <- get_df ;;
    when (mem (fst p) (header t) && mem (snd p) (header t))
         (check_alignment t (fst p) (snd p))).

(* ------------------------------------------------------------------ *)
(** *** Type integrity check and export of bad rows *)

Definition expected_numeric_cols : list string :=
  ["iyear"; "imonth"; "iday"; "nkill"; "nkillus"; "nkillter";
   "nwound"; "nwoundus"; "nwoundte"; "propvalue"; "nperps";
   "nperpcap"; "ransomamt"; "ransomamtus"; "ransompaid"; "ransompaidus"].

Definition export_dir : string :=
  "C:\Users\james\OneDrive\Desktop\Tableau_UW\bad_numeric_rows".

(** [os.path.join] on the Windows paths of the script. *)
Definition sep : string := String (ascii_of_nat 92) EmptyString.

Definition path_join (dir name : string) : string :=
  String.append dir (String.append sep name).

Definition bad_file (col : string) : string :=
  path_join export_dir (String.append "bad_" (String.append col ".csv")).

(** [DataFrame.empty] *)
Definition empty (t : DataFrame) : bool :=
  (nrows t =? 0) || (length (cols t) =? 0).

(** [pd.to_numeric(df[col], errors='coerce').isna() & df[col].notna()] *)
Definition invalid_mask (v : column) : list bool :=
  zip_with andb (map isna (map to_numeric v)) (map notna v).

Definition check_numeric (col : string) : M unit :=
  t <- get_df ;;
  when (mem col (header t))
    (v <- getitem col ;;
     t <- get_df ;;
     let bad_rows := boolean_index (invalid_mask v) t in
     when (negb (empty bad_rows))
       (print (NonNumericFound col) ;;
        b <- getitem_of bad_rows col ;;
        print (Preview (firstn 10 (unique b))) ;;
        let export_path := bad_file col in
        to_csv export_path bad_rows ;;
        print (Saved export_path)) ;;
     coerce_col col).

Definition type_integrity : M unit :=
  for_each expected_numeric_cols check_numeric.

(* ------------------------------------------------------------------ *)
(** *** Renaming and dropping columns *)

Definition rename_map : list (string * string) :=
  [("iyear", "year");
   ("imonth", "month");
   ("iday", "day");
   ("nkill", "num_killed");
   ("nwound", "num_wounded");
   ("nkillus", "num_us_killed");
   ("nwoundus", "num_us_wounded");
   ("nkillter", "num_terrorists_killed");
   ("nwoundte", "num_terrorists_wounded")].

Fixpoint lookup (k : string) (m : list (string * string)) : option string :=
  match m with
  | [] => None
  | (a, b) :: r => if String.eqb a k then Some b else lookup k r
  end.

Definition rename_col (n : string) : string :=
  match lookup n rename_map with
  | Some n' => n'
  | None => n
  end.

Definition rename (t : DataFrame) : DataFrame :=
  mkDF (nrows t) (map (fun c => (rename_col (fst c), snd c)) (cols t)).

Definition rename_columns : M unit :=
  t <- get_df ;; put_df (rename t).

Definition unwanted_cols : list string :=
  ["summary"; "motive"; "addnotes"; "propcomment"; "weapdetail";
   "target1"; "target2"; "target3"; "corp1"; "corp2"; "corp3";
   "claimmode_txt"; "claimmode2"; "claimmode3";
   "scite1"; "scite2"; "scite3"; "approxdate"; "resolution"; "ransomnote";
   "gsubname"; "gsubname2"; "gsubname3"; "related"; "location";
   "vicinity"; "specificity";
   "dbsource"; "INT_LOG"; "INT_IDEO"; "INT_MISC"; "INT_ANY";
   "attacktype2"; "attacktype2_txt"; "attacktype3"; "attacktype3_txt"].

(** Every column whose name is listed goes, wherever it stands. *)
Definition drop_columns (names : list string) (t : DataFrame) : DataFrame :=
  mkDF (nrows t) (filter (fun c => negb (mem (fst c) names)) (cols t)).

(** [df.drop(names, axis=1, errors='ignore')] *)
Definition drop_ignore (names : list string) : M unit :=
  t <- get_df ;; put_df (drop_columns names t).

(** [df.drop(columns=names)]: a name that is no column is a [KeyError]. *)
Definition drop_strict (names : list string) : M unit :=
  t <- get_df ;;
  match find (fun n => negb (mem n (header t))) names with
  | Some n => raise n
  | None => put_df (drop_columns names t)
  end.

Definition drop_unwanted : M unit := drop_ignore unwanted_cols.

(* ------------------------------------------------------------------ *)
(** *** Sparse columns *)

Definition count_na (v : column) : nat := length (filter isna v).

(** [df.isnull().mean()] of one column: the fraction of missing cells,
    NaN ([None]) on a frame without rows.  The quotient of two row counts
    and the constant 0.8 compare in binary floating point as they do in
    the rationals, for every frame that fits in memory. *)
Definition null_mean (v : column) : option Q :=
  match length v with
  | 0 => None
  | S _ => Some (Z.of_nat (count_na v) # Pos.of_nat (length v))%Q
  end.

Definition ge (m : option Q) (q : Q) : bool :=
  match m with Some x => Qle_bool q x | None => false end.

Definition sparse_cols (t : DataFrame) : list string :=
  map fst (filter (fun c => ge (null_mean (snd c)) (8 # 10)%Q) (cols t)).

Definition drop_sparse : M unit :=
  t <- get_df ;;
  let sparse := sparse_cols t in
  print (DroppingSparse sparse) ;;
  drop_strict sparse.

(* ------------------------------------------------------------------ *)
(** *** Final report and export *)

Definition report_final : M unit :=
  t <- get_df ;;
  let final_rows := nrows t in
  print (FinalRows final_rows) ;;
  n0 <- get_initial_rows ;;
  print (TotalRowsDropped (Z.of_nat n0 - Z.of_nat final_rows)).

Definition output_path : string :=
  "C:\Users\james\OneDrive\Desktop\Tableau_UW\globalterrorismdb_integrity_cleaned.csv".

Definition export_cleaned : M unit :=
  t <- get_df ;;
  to_csv output_path t ;;
  print (CleanedSaved output_path).

(* ------------------------------------------------------------------ *)
(** *** The whole script *)

(** Lines 9-78: every statement that changes cells or rows.  The list of
    binary columns is a parameter only so that two runs with different
    lists can be compared; the script is the instance [binary_cols]. *)
Definition cleaning (bcols : list string) : M unit :=
  track_initial_rows ;;
  text_normalization ;;
  clean_binary bcols ;;
  drop_missing_latlon ;;
  fill_common ;;
  alignment_checks ;;
  type_integrity.

(** Lines 80-119: renaming, column pruning, report, export. *)
Definition pruning : M unit :=
  rename_columns ;;
  drop_unwanted ;;
  drop_sparse ;;
  report_final ;;
  export_cleaned.

Definition script_with (bcols : list string) : M unit :=
  cleaning bcols ;; pruning.

Definition script : M unit := script_with binary_cols.

(** The world in which the script starts, right after [read_csv]. *)
Definition loaded (t : DataFrame) : world := mkWorld t 0 [] [].

Definition exec {A} (m : M A) (w : world) : result world :=
  match m w with
  | Ok (_, w') => Ok w'
  | KeyError c => KeyError c
  end.

Definition run (t : DataFrame) : result world := exec script (loaded t).

(** The file a path holds after the run: what was written there last. *)
Definition read_file (path : string) (w : world) : option DataFrame :=
  match find (fun f => String.eqb (fst f) path) (rev (disk w)) with
  | Some f => Some (snd f)
  | None => None
  end.

Definition cleaned_file (w : world) : option DataFrame :=
  read_file output_path w.

(* ================================================================== *)
(** ** Vocabulary of the statements *)

(** [f] applied to the first column named [c]. *)
Fixpoint apply_first (c : string) (f : column -> column)
  (l : list (string * column)) : list (string * column) :=
  match l with
  | [] => []
  | (n, x) :: r =>
      if String.eqb n c then (n, f x) :: r else (n, x) :: apply_first c f r
  end.

(** The frame after [df[c] = f(df[c])]; a frame without the column is
    left alone (the statement itself raises there). *)
Definition upd (c : string) (f : column -> column) (t : DataFrame)
  : DataFrame :=
  mkDF (nrows t) (apply_first c f (cols t)).

Definition upd_all (names : list string) (f : column -> column)
  (t : DataFrame) : DataFrame :=
  fold_left (fun t' c => upd c f t') names t.

(** A later world: frame [t], and [out] and [files] added to the console
    and to the disk. *)
Definition after (w : world) (t : DataFrame) (out : list line)
  (files : list (string * DataFrame)) : world :=
  mkWorld t (initial_rows w) (stdout w ++ out) (disk w ++ files).

(** The statements that run before the geolocation filter. *)
Definition before_filter : M unit :=
  track_initial_rows ;; text_normalization ;; clean_binary binary_cols.

(** The statements that run before the sparsity threshold. *)
Definition before_sparsity : M unit :=
  cleaning binary_cols ;; rename_columns ;; drop_unwanted.

(** What lines 15-17 do to one cell of a text column. *)
Definition normalize_cell (v : value) : value :=
  replace_nan placeholder_vals (str_strip (str_lower (astype_str v))).

Definition normalize_cells (v : column) : column :=
  map (replace_nan placeholder_vals)
      (map str_strip (map str_lower (map astype_str v))).

(** The keep-mask of line 30 and the report mask of line 28. *)
Definition keep_mask (lat lon : column) (n : nat) : list bool :=
  zip_with andb (map notna lat)
           (zip_with andb (map notna lon) (repeat true n)).

Definition missing_mask (lat lon : column) : list bool :=
  zip_with orb (map isna lat) (map isna lon).

(** A cell is clean when it is a number or missing. *)
Definition numeric_or_missing (v : value) : Prop :=
  v = NA \/ exists x, v = Num x.

(** A cell that is present but does not parse. *)
Definition unparseable (v : value) : bool :=
  isna (to_numeric v) && notna v.

(** Row [i] of a frame misses its latitude or its longitude. *)
Definition row_missing_latlon (t : DataFrame) (i : nat) : bool :=
  match get_col "latitude" t, get_col "longitude" t with
  | Some lat, Some lon => isna (nth i lat NA) || isna (nth i lon NA)
  | _, _ => false
  end.

Definition rows_missing_latlon (t : DataFrame) : nat :=
  length (filter (row_missing_latlon t) (seq 0 (nrows t))).

(** The binary columns that survive the explicit drop, and those that
    do not. *)
Definition kept_binary_cols : list string :=
  ["claimed"; "ishostkid"; "property"; "doubtterr"].

Definition dropped_binary_cols : list string :=
  ["INT_ANY"; "INT_MISC"; "INT_IDEO"; "INT_LOG"; "vicinity"].

(** Two frames that agree everywhere but in the cells of the columns
    named in [D]. *)
Definition agree (D : list string) (a b : DataFrame) : Prop :=
  nrows a = nrows b /\
  Forall2 (fun c c' => fst c = fst c' /\ (In (fst c) D \/ snd c = snd c'))
          (cols a) (cols b).

(** The frame after each group of statements, as a function of the frame
    before it. *)
Definition normalized (t : DataFrame) : DataFrame :=
  replace_frame ["<na>"; "nan"]
    (upd_all (select_dtypes_object t) normalize_cells t).

Definition coerced (names : list string) (t : DataFrame) : DataFrame :=
  upd_all names (map to_numeric) t.

Definition filtered (lat lon : column) (t : DataFrame) : DataFrame :=
  boolean_index (keep_mask lat lon (nrows t)) t.

Definition filled (t : DataFrame) : DataFrame :=
  upd "provstate" (map (fillna (Str "unknown")))
      (upd "city" (map (fillna (Str "unknown"))) t).

Definition pruned (t : DataFrame) : DataFrame :=
  drop_columns unwanted_cols (rename t).

Definition thinned (t : DataFrame) : DataFrame :=
  drop_columns (sparse_cols t) t.

(** A name that the rename map does not produce from another name. *)
Definition rename_free (n : string) : Prop :=
  forall m, rename_col m = n -> m = n.

(** The statements that keep every row. *)
Definition row_keeping_steps : list (M unit) :=
  [track_initial_rows; text_normalization; clean_binary binary_cols;
   fill_common; alignment_checks; type_integrity; rename_columns;
   drop_unwanted; drop_sparse; report_final; export_cleaned].

(** The columns the script reads without asking whether they are there,
    in the order in which it reads them. *)
Definition required_cols : list string :=
  binary_cols ++ ["latitude"; "longitude"; "city"; "provstate"].

(** The first of a list of names that is no column of the frame. *)
Definition first_missing (names : list string) (t : DataFrame)
  : option string :=
  find (fun c => negb (mem c (header t))) names.

(** No name that the rename map produces is taken while its source is a
    column too. *)
Definition rename_collision_free (t : DataFrame) : Prop :=
  forall k v, In (k, v) rename_map -> In k (header t) -> ~ In v (header t).

(** A file written by the numeric check of the columns [names], started
    on the frame [t0]: it is named after one of the columns, and holds the
    rows at which that column - still as it was in [t0] - does not parse,
    cut out of a frame [t'] of the same header and height. *)
Definition quarantine_of (names : list string) (t0 : DataFrame)
  (pf : string * DataFrame) : Prop :=
  exists c v t',
    In c names
    /\ fst pf = bad_file c
    /\ header t' = header t0
    /\ nrows t' = nrows t0
    /\ get_col c t' = Some v
    /\ get_col c t0 = Some v
    /\ snd pf = boolean_index (invalid_mask v) t'
    /\ empty (snd pf) = false.

(** Two rows carry the same present code but different present labels. *)
Definition code_with_two_labels (codes texts : column) : Prop :=
  exists i j k a b,
    nth_error codes i = Some k /\ nth_error texts i = Some a
    /\ nth_error codes j = Some k /\ nth_error texts j = Some b
    /\ k <> NA /\ a <> NA /\ b <> NA /\ a <> b.

(** Every column name that some statement of the script mentions, apart
    from latitude and longitude. *)
Definition listed_cols : list string :=
  binary_cols ++ ["city"; "provstate"] ++ expected_numeric_cols
  ++ unwanted_cols ++ map fst rename_map ++ map snd rename_map.

Lemma mem_In x l : mem x l = true <-> In x l.
Proof.
  unfold mem. rewrite existsb_exists. split.
  - intros [y [Hy E]]. apply String.eqb_eq in E. now subst.
  - intros Hx. exists x. split; [assumption | apply String.eqb_refl].
Qed.

Lemma mem_not_In x l : mem x l = false <-> ~ In x l.
Proof.
  rewrite <- mem_In. destruct (mem x l); split; congruence.
Qed.

Lemma nodupb_sound l : nodupb l = true -> NoDup l.
Proof.
  induction l as [|x l IH]; simpl; intros H; constructor.
  - apply andb_prop in H. destruct H as [H _].
    apply negb_true_iff in H. now apply mem_not_In.
  - apply andb_prop in H. tauto.
Qed.

Lemma assoc_In n v l : assoc n l = Some v -> In (n, v) l.
Proof.
  induction l as [|[m x] l IH]; simpl; [discriminate|].
  destruct (String.eqb_spec m n) as [->|Hne].
  - intros [= ->]. now left.
  - intros H. right. auto.
Qed.

Lemma In_assoc n v l : NoDup (map fst l) -> In (n, v) l -> assoc n l = Some v.
Proof.
  induction l as [|[m x] l IH]; simpl; [contradiction|].
  intros Hnd. inversion Hnd as [|? ? Hnotin Hnd']; subst.
  intros [[= -> ->]|Hin].
  - now rewrite String.eqb_refl.
  - destruct (String.eqb_spec m n) as [->|Hne]; [|auto].
    exfalso. apply Hnotin. apply (in_map fst) in Hin. exact Hin.
Qed.

Lemma assoc_header n l : assoc n l <> None <-> In n (map fst l).
Proof.
  induction l as [|[m x] l IH]; simpl.
  - split; [congruence | contradiction].
  - destruct (String.eqb_spec m n) as [->|Hne].
    + split; [now left | congruence].
    + rewrite IH. split; [now right | now intros [?|?]].
Qed.

Lemma get_col_header n t : get_col n t <> None <-> In n (header t).
Proof. apply assoc_header. Qed.

Lemma In_get_col n v t :
  NoDup (header t) -> In (n, v) (cols t) -> get_col n t = Some v.
Proof. apply In_assoc. Qed.

Lemma get_col_In n v t : get_col n t = Some v -> In (n, v) (cols t).
Proof. apply assoc_In. Qed.

Lemma get_col_mem n t : mem n (header t) = true -> exists v, get_col n t = Some v.
Proof.
  rewrite mem_In, <- get_col_header.
  destruct (get_col n t) as [v|]; [now exists v | congruence].
Qed.

Lemma assoc_assign n c v l :
  assoc n (assign c v l) = if String.eqb c n then Some v else assoc n l.
Proof.
  induction l as [|[m x] l IH]; simpl.
  - now destruct (String.eqb c n).
  - destruct (String.eqb_spec m c) as [->|Hmc]; simpl.
    + now destruct (String.eqb c n).
    + rewrite IH. destruct (String.eqb_spec m n) as [->|Hmn]; [|reflexivity].
      destruct (String.eqb_spec c n) as [->|]; [congruence | reflexivity].
Qed.

Lemma header_assign c v l :
  In c (map fst l) -> map fst (assign c v l) = map fst l.
Proof.
  induction l as [|[m x] l IH]; simpl; [contradiction|].
  destruct (String.eqb_spec m c) as [->|Hmc]; simpl; [reflexivity|].
  intros [?|Hin]; [congruence|]. now rewrite IH.
Qed.

Lemma get_set_col n c v t :
  get_col n (set_col c v t) = if String.eqb c n then Some v else get_col n t.
Proof. apply assoc_assign. Qed.

Lemma header_set_col c v t :
  In c (header t) -> header (set_col c v t) = header t.
Proof. apply header_assign. Qed.

Lemma assoc_map_snd (f : column -> column) n l :
  assoc n (map (fun c => (fst c, f (snd c))) l) = option_map f (assoc n l).
Proof.
  induction l as [|[m x] l IH]; simpl; [reflexivity|].
  now destruct (String.eqb m n).
Qed.

Lemma header_map_snd (f : string * column -> column) l :
  map fst (map (fun c => (fst c, f c)) l) = map fst l.
Proof. rewrite map_map. reflexivity. Qed.

Lemma assoc_filter_names names n l :
  assoc n (filter (fun c => negb (mem (fst c) names)) l)
  = if mem n names then None else assoc n l.
Proof.
  induction l as [|[m x] l IH]; simpl.
  - now destruct (mem n names).
  - destruct (mem m names) eqn:Em; simpl.
    + rewrite IH. destruct (String.eqb_spec m n) as [->|]; [|reflexivity].
      now rewrite Em.
    + rewrite IH. destruct (String.eqb_spec m n) as [->|]; [|reflexivity].
      now rewrite Em.
Qed.

(* ------------------------------------------------------------------ *)
(** *** Running statements *)

Lemma bind_ok A B (m : M A) (k : A -> M B) w b w' :
  bind m k w = Ok (b, w') ->
  exists a w1, m w = Ok (a, w1) /\ k a w1 = Ok (b, w').
Proof.
  unfold bind. destruct (m w) as [[a w1]|c]; [|discriminate].
  intros H. now exists a, w1.
Qed.

Lemma bind_run A B (m : M A) (k : A -> M B) w a w1 :
  m w = Ok (a, w1) -> bind m k w = k a w1.
Proof. unfold bind. now intros ->. Qed.

Lemma Ok_inj A (a b : A) (w w' : world) :
  Ok (a, w) = Ok (b, w') -> w = w'.
Proof. now intros [= _ ->]. Qed.

Lemma apply_col_ok c f w w' :
  apply_col c f w = Ok (tt, w') ->
  exists v, get_col c (df w) = Some v
            /\ w' = with_df (set_col c (f v) (df w)) w.
Proof.
  unfold apply_col, bind, getitem, setitem, bind, get_df, put_df.
  destruct (get_col c (df w)) as [v|]; [|discriminate].
  intros [= <-]. now exists v.
Qed.

Lemma apply_col_run c f w v :
  get_col c (df w) = Some v ->
  apply_col c f w = Ok (tt, with_df (set_col c (f v) (df w)) w).
Proof.
  intros H. unfold apply_col, bind, getitem, setitem, bind, get_df, put_df.
  now rewrite H.
Qed.

Lemma apply_col_raise c f w :
  get_col c (df w) = None -> apply_col c f w = KeyError c.
Proof.
  intros H. unfold apply_col, bind, getitem. now rewrite H.
Qed.

(* ------------------------------------------------------------------ *)
(** *** Updating columns *)

Lemma assign_apply_first c f v l :
  assoc c l = Some v -> assign c (f v) l = apply_first c f l.
Proof.
  induction l as [|[m x] l IH]; simpl; [discriminate|].
  destruct (String.eqb_spec m c) as [->|Hne].
  - now intros [= ->].
  - intros E. now rewrite IH.
Qed.

Lemma apply_first_absent c f l :
  assoc c l = None -> apply_first c f l = l.
Proof.
  induction l as [|[m x] l IH]; simpl; [reflexivity|].
  destruct (String.eqb_spec m c) as [->|Hne]; [discriminate|].
  intros E. now rewrite IH.
Qed.

Lemma upd_present c f v t :
  get_col c t = Some v -> upd c f t = set_col c (f v) t.
Proof.
  intros E. unfold upd, set_col. f_equal. symmetry.
  now apply assign_apply_first.
Qed.

Lemma upd_absent c f t : get_col c t = None -> upd c f t = t.
Proof.
  intros E. unfold upd. rewrite apply_first_absent by exact E.
  now destruct t.
Qed.

Lemma header_upd c f t : header (upd c f t) = header t.
Proof.
  unfold upd, header. cbn [cols].
  induction (cols t) as [|[m x] l IH]; simpl; [reflexivity|].
  destruct (String.eqb m c); simpl; [reflexivity | now rewrite IH].
Qed.

Lemma nrows_upd c f t : nrows (upd c f t) = nrows t.
Proof. reflexivity. Qed.

Lemma get_col_upd n c f t :
  get_col n (upd c f t)
  = if String.eqb c n then option_map f (get_col n t) else get_col n t.
Proof.
  unfold upd, get_col. cbn [cols].
  induction (cols t) as [|[m x] l IH]; simpl.
  - now destruct (String.eqb c n).
  - destruct (String.eqb_spec m c) as [->|Hmc]; simpl.
    + destruct (String.eqb c n); reflexivity.
    + rewrite IH. destruct (String.eqb_spec m n) as [->|Hmn]; [|reflexivity].
      destruct (String.eqb_spec c n) as [->|]; [congruence | reflexivity].
Qed.

Lemma header_upd_all names f t : header (upd_all names f t) = header t.
Proof.
  unfold upd_all. revert t.
  induction names as [|c names IH]; intros t; simpl; [reflexivity|].
  now rewrite IH, header_upd.
Qed.

Lemma nrows_upd_all names f t : nrows (upd_all names f t) = nrows t.
Proof.
  unfold upd_all. revert t.
  induction names as [|c names IH]; intros t; simpl; [reflexivity|].
  now rewrite IH, nrows_upd.
Qed.

Lemma get_col_upd_all_other n names f t :
  ~ In n names -> get_col n (upd_all names f t) = get_col n t.
Proof.
  unfold upd_all. revert t.
  induction names as [|c names IH]; intros t Hn; simpl; [reflexivity|].
  rewrite IH by (intros H; apply Hn; now right).
  rewrite get_col_upd.
  destruct (String.eqb_spec c n) as [->|]; [|reflexivity].
  exfalso. apply Hn. now left.
Qed.

(** Along a loop of updates a column is the image of the column it was,
    under the update applied once per occurrence of its name. *)
Lemma get_col_upd_all n names f t :
  get_col n (upd_all names f t)
  = option_map (Nat.iter (count_occ string_dec names n) f) (get_col n t).
Proof.
  unfold upd_all. revert t.
  induction names as [|c names IH]; intros t; simpl.
  - now destruct (get_col n t).
  - rewrite IH, get_col_upd.
    destruct (string_dec c n) as [->|Hne].
    + rewrite String.eqb_refl.
      destruct (get_col n t) as [v|]; simpl; [|reflexivity].
      now rewrite <- Nat.iter_succ_r.
    + destruct (String.eqb_spec c n); [congruence | reflexivity].
Qed.

Lemma get_col_upd_all_once n names f t :
  NoDup names -> In n names ->
  get_col n (upd_all names f t) = option_map f (get_col n t).
Proof.
  intros Hnd Hin. rewrite get_col_upd_all.
  pose proof (proj1 (NoDup_count_occ string_dec names) Hnd n) as Hle.
  pose proof (proj1 (count_occ_In string_dec names n) Hin) as Hgt.
  replace (count_occ string_dec names n) with 1 by lia.
  reflexivity.
Qed.

(* ------------------------------------------------------------------ *)
(** *** Closed forms of the statements *)

Lemma after_nil w : after w (df w) [] [] = w.
Proof. destruct w. unfold after. simpl. now rewrite !app_nil_r. Qed.

Lemma after_after w t out files t' out' files' :
  after (after w t out files) t' out' files'
  = after w t' (out ++ out') (files ++ files').
Proof. unfold after. simpl. now rewrite !app_assoc. Qed.

Lemma with_df_after t w : with_df t w = after w t [] [].
Proof. unfold with_df, after. now rewrite !app_nil_r. Qed.

Lemma apply_col_upd c f w :
  In c (header (df w)) ->
  apply_col c f w = Ok (tt, with_df (upd c f (df w)) w).
Proof.
  intros H. apply get_col_header in H.
  destruct (get_col c (df w)) as [v|] eqn:E; [|congruence].
  rewrite (apply_col_run _ _ _ E). now rewrite (upd_present _ _ _ E).
Qed.

Lemma apply_col_inv c f w w' :
  apply_col c f w = Ok (tt, w') ->
  In c (header (df w)) /\ w' = with_df (upd c f (df w)) w.
Proof.
  intros H. destruct (apply_col_ok _ _ _ H) as [v [E ->]].
  split.
  - apply get_col_header. congruence.
  - now rewrite (upd_present _ _ _ E).
Qed.

Lemma for_each_apply names f w :
  Forall (fun c => In c (header (df w))) names ->
  for_each names (fun c => apply_col c f) w
  = Ok (tt, with_df (upd_all names f (df w)) w).
Proof.
  revert w. induction names as [|c names IH]; intros w H; simpl.
  - unfold ret, with_df. now destruct w.
  - inversion H as [|? ? Hc Hr]; subst.
    rewrite (bind_run _ _ _ (apply_col_upd _ _ _ Hc)).
    rewrite IH; simpl.
    + reflexivity.
    + rewrite header_upd. exact Hr.
Qed.

Lemma for_each_apply_inv names f w w' :
  for_each names (fun c => apply_col c f) w = Ok (tt, w') ->
  Forall (fun c => In c (header (df w))) names
  /\ w' = with_df (upd_all names f (df w)) w.
Proof.
  revert w. induction names as [|c names IH]; intros w H; simpl in H.
  - injection H as <-. split; [constructor|]. unfold with_df. now destruct w.
  - apply bind_ok in H. destruct H as [[] [w1 [H1 H2]]].
    apply apply_col_inv in H1. destruct H1 as [Hc ->].
    apply IH in H2. simpl in H2. rewrite header_upd in H2.
    destruct H2 as [Hr ->]. split; [now constructor | reflexivity].
Qed.

Lemma for_each_ext A (l : list A) (f g : A -> M unit) w :
  (forall x w0, f x w0 = g x w0) -> for_each l f w = for_each l g w.
Proof.
  intros E. revert w. induction l as [|x l IH]; intros w; simpl; [reflexivity|].
  unfold bind. rewrite E. destruct (g x w) as [[[] w1]|]; [apply IH | reflexivity].
Qed.

(** A loop whose body always runs, changes the frame by [F] and only
    adds to the console and to the disk. *)
Lemma for_each_frame A (F : A -> DataFrame -> DataFrame) (body : A -> M unit) :
  (forall x w, exists out files,
      body x w = Ok (tt, after w (F x (df w)) out files)) ->
  forall l w, exists out files,
      for_each l body w
      = Ok (tt, after w (fold_left (fun t x => F x t) l (df w)) out files).
Proof.
  intros Hb l. induction l as [|x l IH]; intros w; simpl.
  - exists [], []. now rewrite after_nil.
  - destruct (Hb x w) as [o1 [f1 E1]].
    destruct (IH (after w (F x (df w)) o1 f1)) as [o2 [f2 E2]].
    exists (o1 ++ o2), (f1 ++ f2).
    rewrite (bind_run _ _ _ E1), E2, after_after. reflexivity.
Qed.

Lemma track_initial_rows_run w :
  track_initial_rows w
  = Ok (tt, mkWorld (df w) (nrows (df w))
                    (stdout w ++ [InitialRows (nrows (df w))]) (disk w)).
Proof. reflexivity. Qed.

Lemma assign_assign c a b l : assign c b (assign c a l) = assign c b l.
Proof.
  induction l as [|[m x] l IH]; simpl.
  - now rewrite String.eqb_refl.
  - destruct (String.eqb_spec m c) as [->|Hne]; simpl.
    + now rewrite String.eqb_refl.
    + destruct (String.eqb_spec m c); [congruence|]. now rewrite IH.
Qed.

Lemma normalize_col_apply c w :
  normalize_col c w = apply_col c normalize_cells w.
Proof.
  unfold normalize_col.
  destruct (get_col c (df w)) as [v|] eqn:E.
  - rewrite (bind_run _ _ _ (apply_col_run _ _ _ E)).
    rewrite (apply_col_run c normalize_cells _ E).
    erewrite apply_col_run.
    2:{ simpl. rewrite get_set_col, String.eqb_refl. reflexivity. }
    unfold with_df, set_col. simpl. rewrite assign_assign. reflexivity.
  - unfold bind. now rewrite !apply_col_raise by assumption.
Qed.

Lemma select_dtypes_object_header t :
  Forall (fun c => In c (header t)) (select_dtypes_object t).
Proof.
  apply Forall_forall. intros c Hc. unfold select_dtypes_object in Hc.
  apply in_map_iff in Hc. destruct Hc as [[n v] [<- Hin]].
  apply filter_In in Hin. destruct Hin as [Hin _].
  apply (in_map fst) in Hin. exact Hin.
Qed.

Lemma text_normalization_run w :
  text_normalization w
  = Ok (tt, with_df
              (replace_frame ["<na>"; "nan"]
                 (upd_all (select_dtypes_object (df w)) normalize_cells (df w)))
              w).
Proof.
  unfold text_normalization.
  rewrite (bind_run get_df _ w (eq_refl : get_df w = Ok (df w, w))).
  assert (E : for_each (select_dtypes_object (df w)) normalize_col w
              = Ok (tt, with_df (upd_all (select_dtypes_object (df w))
                                   normalize_cells (df w)) w)).
  { rewrite (for_each_ext _ _ (fun c => apply_col c normalize_cells))
      by apply normalize_col_apply.
    apply for_each_apply, select_dtypes_object_header. }
  rewrite (bind_run _ _ _ E). reflexivity.
Qed.

Lemma clean_binary_run names w :
  Forall (fun c => In c (header (df w))) names ->
  clean_binary names w
  = Ok (tt, with_df (upd_all names (map to_numeric) (df w)) w).
Proof. apply for_each_apply. Qed.

Lemma clean_binary_inv names w w' :
  clean_binary names w = Ok (tt, w') ->
  Forall (fun c => In c (header (df w))) names
  /\ w' = with_df (upd_all names (map to_numeric) (df w)) w.
Proof. apply for_each_apply_inv. Qed.

Lemma getitem_run c w v :
  get_col c (df w) = Some v -> getitem c w = Ok (v, w).
Proof. intros E. unfold getitem. now rewrite E. Qed.

Lemma dropna_latlon_run w lat lon :
  get_col "latitude" (df w) = Some lat ->
  get_col "longitude" (df w) = Some lon ->
  dropna ["latitude"; "longitude"] w
  = Ok (tt, with_df (boolean_index (keep_mask lat lon (nrows (df w))) (df w)) w).
Proof.
  intros E1 E2. unfold dropna, notna_mask.
  unfold bind at 1. unfold bind at 1.
  rewrite (getitem_run _ _ E1).
  unfold bind at 1. unfold bind at 1.
  rewrite (getitem_run _ _ E2).
  reflexivity.
Qed.

Lemma drop_missing_latlon_run w lat lon :
  get_col "latitude" (df w) = Some lat ->
  get_col "longitude" (df w) = Some lon ->
  drop_missing_latlon w
  = Ok (tt, after w (boolean_index (keep_mask lat lon (nrows (df w))) (df w))
                  [RowsDroppedLatLon (count_true (missing_mask lat lon))] []).
Proof.
  intros E1 E2. unfold drop_missing_latlon.
  rewrite (bind_run _ _ _ (getitem_run _ _ E1)).
  rewrite (bind_run _ _ _ (getitem_run _ _ E2)).
  rewrite (bind_run get_df _ w (eq_refl : get_df w = Ok (df w, w))).
  cbv beta zeta.
  erewrite bind_run by reflexivity.
  rewrite (dropna_latlon_run _ (lat := lat) (lon := lon)) by assumption.
  unfold with_df, after. simpl. now rewrite app_nil_r.
Qed.

Lemma drop_missing_latlon_inv w w' :
  drop_missing_latlon w = Ok (tt, w') ->
  exists lat lon,
    get_col "latitude" (df w) = Some lat
    /\ get_col "longitude" (df w) = Some lon
    /\ w' = after w (boolean_index (keep_mask lat lon (nrows (df w))) (df w))
                  [RowsDroppedLatLon (count_true (missing_mask lat lon))] [].
Proof.
  intros H.
  destruct (get_col "latitude" (df w)) as [lat|] eqn:E1.
  - destruct (get_col "longitude" (df w)) as [lon|] eqn:E2.
    + rewrite (drop_missing_latlon_run _ E1 E2) in H.
      injection H as <-. now exists lat, lon.
    + unfold drop_missing_latlon, bind, getitem in H.
      rewrite E1, E2 in H. discriminate.
  - unfold drop_missing_latlon, bind, getitem in H.
    rewrite E1 in H. discriminate.
Qed.

Lemma fill_common_inv w w' :
  fill_common w = Ok (tt, w') ->
  In "city" (header (df w)) /\ In "provstate" (header (df w))
  /\ w' = with_df (upd "provstate" (map (fillna (Str "unknown")))
                     (upd "city" (map (fillna (Str "unknown"))) (df w))) w.
Proof.
  unfold fill_common, fill_unknown. intros H.
  apply bind_ok in H. destruct H as [[] [w1 [H1 H2]]].
  apply apply_col_inv in H1. destruct H1 as [Hc ->].
  apply apply_col_inv in H2. simpl in H2. rewrite header_upd in H2.
  destruct H2 as [Hp ->]. auto.
Qed.

Lemma fill_common_run w :
  In "city" (header (df w)) -> In "provstate" (header (df w)) ->
  fill_common w
  = Ok (tt, with_df (upd "provstate" (map (fillna (Str "unknown")))
                       (upd "city" (map (fillna (Str "unknown"))) (df w))) w).
Proof.
  intros Hc Hp. unfold fill_common, fill_unknown.
  rewrite (bind_run _ _ _ (apply_col_upd _ _ _ Hc)).
  rewrite apply_col_upd by (simpl; now rewrite header_upd).
  reflexivity.
Qed.

(** The alignment check of one pair only prints. *)
Lemma check_alignment_frame t code_col text_col w :
  mem code_col (header t) = true -> mem text_col (header t) = true ->
  exists out, check_alignment t code_col text_col w
              = Ok (tt, after w (df w) out []).
Proof.
  intros Hc Ht.
  destruct (get_col_mem _ _ Hc) as [codes Ec].
  destruct (get_col_mem _ _ Ht) as [texts Et].
  unfold check_alignment, getitem_of. rewrite Ec, Et.
  unfold bind, ret, when.
  destruct (gt (series_max (groupby_nunique codes texts)) 1).
  - exists [MismatchIn code_col text_col;
             MismatchCounts (filter (fun kc => 1 <? snd kc)
                                    (groupby_nunique codes texts))].
    unfold print, after. simpl. rewrite <- app_assoc, app_nil_r.
    reflexivity.
  - exists []. now rewrite after_nil.
Qed.

(** A loop whose body only prints. *)
Lemma for_each_prints A (body : A -> M unit) :
  (forall x w, exists out, body x w = Ok (tt, after w (df w) out [])) ->
  forall l w, exists out, for_each l body w = Ok (tt, after w (df w) out []).
Proof.
  intros Hb l. induction l as [|x l IH]; intros w; simpl.
  - exists []. now rewrite after_nil.
  - destruct (Hb x w) as [o1 E1].
    destruct (IH (after w (df w) o1 [])) as [o2 E2].
    exists (o1 ++ o2).
    rewrite (bind_run _ _ _ E1), E2, after_after. reflexivity.
Qed.

Lemma alignment_checks_run w :
  exists out, alignment_checks w = Ok (tt, after w (df w) out []).
Proof.
  unfold alignment_checks. apply for_each_prints.
  intros p w0. unfold bind, get_df, when.
  destruct (mem (fst p) (header (df w0))) eqn:E1;
    destruct (mem (snd p) (header (df w0))) eqn:E2; simpl;
    try (exists []; now rewrite after_nil).
  apply check_alignment_frame; assumption.
Qed.

Lemma get_col_boolean_index n mask t :
  get_col n (boolean_index mask t) = option_map (select mask) (get_col n t).
Proof. apply assoc_map_snd. Qed.

Lemma header_boolean_index mask t :
  header (boolean_index mask t) = header t.
Proof.
  unfold header, boolean_index. simpl. rewrite map_map. reflexivity.
Qed.

Lemma get_col_replace_frame n tokens t :
  get_col n (replace_frame tokens t)
  = option_map (map (replace_nan tokens)) (get_col n t).
Proof. apply assoc_map_snd. Qed.

Lemma header_replace_frame tokens t :
  header (replace_frame tokens t) = header t.
Proof.
  unfold header, replace_frame. simpl. rewrite map_map. reflexivity.
Qed.

(** One round of the numeric check on a column that is there. *)
Lemma check_numeric_present c w v :
  get_col c (df w) = Some v ->
  let bad_rows := boolean_index (invalid_mask v) (df w) in
  check_numeric c w
  = Ok (tt,
        if empty bad_rows
        then after w (upd c (map to_numeric) (df w)) [] []
        else after w (upd c (map to_numeric) (df w))
               [NonNumericFound c;
                Preview (firstn 10 (unique (select (invalid_mask v) v)));
                Saved (bad_file c)]
               [(bad_file c, bad_rows)]).
Proof.
  intros E bad_rows.
  assert (Hin : In c (header (df w))) by (apply get_col_header; congruence).
  assert (Hmem : mem c (header (df w)) = true) by now apply mem_In.
  unfold check_numeric.
  rewrite (bind_run get_df _ w (eq_refl : get_df w = Ok (df w, w))).
  rewrite Hmem. unfold when at 1.
  rewrite (bind_run _ _ _ (getitem_run _ _ E)).
  rewrite (bind_run get_df _ w (eq_refl : get_df w = Ok (df w, w))).
  cbv zeta. fold bad_rows.
  destruct (empty bad_rows) eqn:Eb; simpl negb; unfold when.
  - unfold bind at 1. unfold ret at 1.
    unfold coerce_col. rewrite apply_col_upd by assumption.
    now rewrite with_df_after.
  - assert (Eg : get_col c bad_rows = Some (select (invalid_mask v) v)).
    { unfold bad_rows. rewrite get_col_boolean_index, E. reflexivity. }
    unfold getitem_of. rewrite Eg.
    unfold bind, print, to_csv, ret. simpl.
    unfold coerce_col. rewrite apply_col_upd by assumption.
    unfold with_df, after. simpl.
    rewrite <- !app_assoc. reflexivity.
Qed.

Lemma check_numeric_absent c w :
  get_col c (df w) = None -> check_numeric c w = Ok (tt, w).
Proof.
  intros E.
  assert (Hmem : mem c (header (df w)) = false).
  { apply mem_not_In. intros H. apply get_col_header in H. congruence. }
  unfold check_numeric.
  rewrite (bind_run get_df _ w (eq_refl : get_df w = Ok (df w, w))).
  now rewrite Hmem.
Qed.

Lemma check_numeric_frame c w :
  exists out files,
    check_numeric c w
    = Ok (tt, after w (upd c (map to_numeric) (df w)) out files).
Proof.
  destruct (get_col c (df w)) as [v|] eqn:E.
  - rewrite (check_numeric_present _ _ E). cbv zeta.
    destruct (empty _); eexists; eexists; reflexivity.
  - rewrite (check_numeric_absent _ _ E). exists [], [].
    rewrite (upd_absent _ _ _ E). now rewrite after_nil.
Qed.

Lemma type_integrity_run w :
  exists out files,
    type_integrity w
    = Ok (tt, after w (upd_all expected_numeric_cols (map to_numeric) (df w))
                    out files).
Proof.
  unfold type_integrity, upd_all.
  apply (for_each_frame (fun c => upd c (map to_numeric))).
  apply check_numeric_frame.
Qed.

Lemma rename_columns_run w :
  rename_columns w = Ok (tt, with_df (rename (df w)) w).
Proof. reflexivity. Qed.

Lemma drop_unwanted_run w :
  drop_unwanted w = Ok (tt, with_df (drop_columns unwanted_cols (df w)) w).
Proof. reflexivity. Qed.

Lemma find_all_false A (f : A -> bool) l :
  (forall x, In x l -> f x = false) -> find f l = None.
Proof.
  induction l as [|x l IH]; simpl; intros H; [reflexivity|].
  rewrite (H x) by now left. apply IH. intros y Hy. apply H. now right.
Qed.

Lemma sparse_cols_header t : forall n, In n (sparse_cols t) -> In n (header t).
Proof.
  intros n Hn. unfold sparse_cols in Hn.
  apply in_map_iff in Hn. destruct Hn as [c [<- Hc]].
  apply filter_In in Hc. destruct Hc as [Hc _].
  apply (in_map fst) in Hc. exact Hc.
Qed.

Lemma drop_sparse_run w :
  drop_sparse w
  = Ok (tt, after w (drop_columns (sparse_cols (df w)) (df w))
                  [DroppingSparse (sparse_cols (df w))] []).
Proof.
  unfold drop_sparse.
  rewrite (bind_run get_df _ w (eq_refl : get_df w = Ok (df w, w))).
  cbv zeta. erewrite bind_run by reflexivity.
  unfold drop_strict.
  erewrite bind_run by reflexivity. simpl df.
  rewrite find_all_false.
  - unfold put_df, with_df, after. simpl. now rewrite app_nil_r.
  - intros n Hn. apply sparse_cols_header in Hn.
    apply mem_In in Hn. simpl. now rewrite Hn.
Qed.

Lemma report_final_run w :
  report_final w
  = Ok (tt, after w (df w)
                  [FinalRows (nrows (df w));
                   TotalRowsDropped (Z.of_nat (initial_rows w)
                                     - Z.of_nat (nrows (df w)))] []).
Proof.
  unfold report_final, bind, get_df, print, get_initial_rows, after. simpl.
  now rewrite <- app_assoc, app_nil_r.
Qed.

Lemma export_cleaned_run w :
  export_cleaned w
  = Ok (tt, after w (df w) [CleanedSaved output_path] [(output_path, df w)]).
Proof. reflexivity. Qed.

(* ------------------------------------------------------------------ *)
(** *** The script as a whole *)

Lemma bind_assoc A B C (m : M A) (k : A -> M B) (h : B -> M C) w :
  bind (bind m k) h w = bind m (fun a => bind (k a) h) w.
Proof. unfold bind. now destruct (m w) as [[a w1]|]. Qed.

Lemma before_filter_with_inv bcols w0 w3 :
  (track_initial_rows ;; text_normalization ;; clean_binary bcols) w0
  = Ok (tt, w3) ->
  Forall (fun c => In c (header (df w0))) bcols
  /\ w3 = mkWorld (coerced bcols (normalized (df w0))) (nrows (df w0))
                  (stdout w0 ++ [InitialRows (nrows (df w0))]) (disk w0).
Proof.
  intros H.
  rewrite (bind_run _ _ _ (track_initial_rows_run w0)) in H.
  rewrite (bind_run _ _ _ (text_normalization_run _)) in H.
  apply clean_binary_inv in H. simpl in H.
  destruct H as [HF ->]. split; [|reflexivity].
  fold (normalized (df w0)) in HF.
  unfold normalized in HF.
  eapply Forall_impl; [|exact HF]. intros c Hc. simpl in Hc.
  now rewrite header_replace_frame, header_upd_all in Hc.
Qed.

Lemma header_normalized t : header (normalized t) = header t.
Proof. unfold normalized. now rewrite header_replace_frame, header_upd_all. Qed.

Lemma header_coerced names t : header (coerced names t) = header t.
Proof. apply header_upd_all. Qed.

Lemma header_filtered lat lon t : header (filtered lat lon t) = header t.
Proof. apply header_boolean_index. Qed.

Lemma header_filled t : header (filled t) = header t.
Proof. unfold filled. now rewrite !header_upd. Qed.

Lemma before_filter_with_run bcols w0 :
  Forall (fun c => In c (header (df w0))) bcols ->
  (track_initial_rows ;; text_normalization ;; clean_binary bcols) w0
  = Ok (tt, mkWorld (coerced bcols (normalized (df w0))) (nrows (df w0))
                    (stdout w0 ++ [InitialRows (nrows (df w0))]) (disk w0)).
Proof.
  intros HF.
  rewrite (bind_run _ _ _ (track_initial_rows_run w0)).
  rewrite (bind_run _ _ _ (text_normalization_run _)).
  rewrite clean_binary_run; [reflexivity|].
  simpl. fold (normalized (df w0)). now rewrite header_normalized.
Qed.

Lemma cleaning_split bcols w0 :
  cleaning bcols w0
  = ((track_initial_rows ;; text_normalization ;; clean_binary bcols) ;;
     drop_missing_latlon ;; fill_common ;; alignment_checks ;; type_integrity)
      w0.
Proof.
  unfold cleaning, bind.
  destruct (track_initial_rows w0) as [[[] w1]|]; [|reflexivity].
  destruct (text_normalization w1) as [[[] w2]|]; reflexivity.
Qed.

(** What a successful run of lines 9-78 amounts to. *)
Lemma cleaning_inv bcols w0 w7 :
  cleaning bcols w0 = Ok (tt, w7) ->
  exists lat lon out files,
    let t3 := coerced bcols (normalized (df w0)) in
    Forall (fun c => In c (header (df w0))) bcols
    /\ get_col "latitude" t3 = Some lat
    /\ get_col "longitude" t3 = Some lon
    /\ In "city" (header (df w0))
    /\ In "provstate" (header (df w0))
    /\ w7 = mkWorld
              (coerced expected_numeric_cols (filled (filtered lat lon t3)))
              (nrows (df w0))
              (stdout w0 ++ InitialRows (nrows (df w0))
                 :: RowsDroppedLatLon (count_true (missing_mask lat lon))
                 :: out)
              (disk w0 ++ files).
Proof.
  rewrite cleaning_split. intros H.
  apply bind_ok in H. destruct H as [[] [w3 [H3 H]]].
  apply before_filter_with_inv in H3. destruct H3 as [HF ->].
  apply bind_ok in H. destruct H as [[] [w4 [H4 H]]].
  apply drop_missing_latlon_inv in H4.
  cbn [df initial_rows stdout disk] in H4.
  destruct H4 as [lat [lon [E1 [E2 ->]]]].
  apply bind_ok in H. destruct H as [[] [w5 [H5 H]]].
  apply fill_common_inv in H5.
  unfold after in H5, H. cbn [df initial_rows stdout disk] in H5, H.
  rewrite header_boolean_index, header_coerced, header_normalized in H5.
  destruct H5 as [Hc [Hp ->]].
  apply bind_ok in H. destruct H as [[] [w6 [H6 H]]].
  match type of H6 with
  | alignment_checks ?w = _ =>
      destruct (alignment_checks_run w) as [o1 E6]
  end.
  rewrite E6 in H6. apply Ok_inj in H6. subst w6.
  match type of H with
  | type_integrity ?w = _ =>
      destruct (type_integrity_run w) as [o2 [f2 E7]]
  end.
  rewrite E7 in H. apply Ok_inj in H. subst w7.
  exists lat, lon, (o1 ++ o2), f2. cbv zeta.
  repeat split; try assumption.
  unfold after, with_df. cbn [df initial_rows stdout disk].
  rewrite !app_nil_r, <- !app_assoc.
  unfold coerced, filled, filtered. reflexivity.
Qed.

Lemma cleaning_run bcols w0 lat lon :
  let t3 := coerced bcols (normalized (df w0)) in
  Forall (fun c => In c (header (df w0))) bcols ->
  get_col "latitude" t3 = Some lat ->
  get_col "longitude" t3 = Some lon ->
  In "city" (header (df w0)) ->
  In "provstate" (header (df w0)) ->
  exists out files,
    cleaning bcols w0
    = Ok (tt, mkWorld
                (coerced expected_numeric_cols (filled (filtered lat lon t3)))
                (nrows (df w0))
                (stdout w0 ++ InitialRows (nrows (df w0))
                   :: RowsDroppedLatLon (count_true (missing_mask lat lon))
                   :: out)
                (disk w0 ++ files)).
Proof.
  intros t3 HF E1 E2 Hc Hp.
  rewrite cleaning_split.
  rewrite (bind_run _ _ _ (before_filter_with_run _ HF)).
  fold t3.
  rewrite (bind_run _ _ _
             (drop_missing_latlon_run
                (mkWorld t3 (nrows (df w0))
                   (stdout w0 ++ [InitialRows (nrows (df w0))]) (disk w0))
                E1 E2)).
  simpl df. fold (filtered lat lon t3).
  erewrite bind_run.
  2:{ apply fill_common_run; simpl;
      unfold t3; now rewrite header_filtered, header_coerced, header_normalized. }
  simpl df. fold (filled (filtered lat lon t3)).
  match goal with
  | |- exists _ _, bind alignment_checks _ ?w = _ =>
      destruct (alignment_checks_run w) as [o1 E6]
  end.
  rewrite (bind_run _ _ _ E6).
  match goal with
  | |- exists _ _, type_integrity ?w = _ =>
      destruct (type_integrity_run w) as [o2 [f2 E7]]
  end.
  exists (o1 ++ o2), f2. rewrite E7.
  unfold after, with_df. cbn [df initial_rows stdout disk].
  rewrite !app_nil_r, <- !app_assoc.
  unfold coerced, filled, filtered. reflexivity.
Qed.

(** Lines 80-119 always run. *)
Lemma pruning_run w :
  let out := thinned (pruned (df w)) in
  pruning w
  = Ok (tt, after w out
              [DroppingSparse (sparse_cols (pruned (df w)));
               FinalRows (nrows out);
               TotalRowsDropped (Z.of_nat (initial_rows w) - Z.of_nat (nrows out));
               CleanedSaved output_path]
              [(output_path, out)]).
Proof.
  intros out. unfold pruning.
  rewrite (bind_run _ _ _ (rename_columns_run w)).
  rewrite (bind_run _ _ _ (drop_unwanted_run _)).
  rewrite (bind_run _ _ _ (drop_sparse_run _)).
  rewrite (bind_run _ _ _ (report_final_run _)).
  rewrite export_cleaned_run.
  unfold after, with_df, out, thinned, pruned. simpl.
  rewrite !app_nil_r, <- !app_assoc. reflexivity.
Qed.

Lemma script_with_inv bcols w0 w :
  script_with bcols w0 = Ok (tt, w) ->
  exists w7,
    cleaning bcols w0 = Ok (tt, w7)
    /\ let out := thinned (pruned (df w7)) in
       w = after w7 out
             [DroppingSparse (sparse_cols (pruned (df w7)));
              FinalRows (nrows out);
              TotalRowsDropped (Z.of_nat (initial_rows w7) - Z.of_nat (nrows out));
              CleanedSaved output_path]
             [(output_path, out)].
Proof.
  unfold script_with. intros H.
  apply bind_ok in H. destruct H as [[] [w7 [H7 H]]].
  exists w7. split; [assumption|].
  rewrite pruning_run in H. now injection H as <-.
Qed.

Lemma script_with_run bcols w0 w7 :
  cleaning bcols w0 = Ok (tt, w7) ->
  let out := thinned (pruned (df w7)) in
  script_with bcols w0
  = Ok (tt, after w7 out
              [DroppingSparse (sparse_cols (pruned (df w7)));
               FinalRows (nrows out);
               TotalRowsDropped (Z.of_nat (initial_rows w7) - Z.of_nat (nrows out));
               CleanedSaved output_path]
              [(output_path, out)]).
Proof.
  intros H out. unfold script_with.
  rewrite (bind_run _ _ _ H). apply pruning_run.
Qed.

Lemma exec_ok A (m : M A) w w' :
  exec m w = Ok w' <-> exists a, m w = Ok (a, w').
Proof.
  unfold exec. destruct (m w) as [[a w1]|c]; split.
  - intros [= <-]. now exists a.
  - intros [a' [= _ <-]]. reflexivity.
  - discriminate.
  - intros [a' H]. discriminate.
Qed.

Lemma exec_unit (m : M unit) w w' :
  exec m w = Ok w' <-> m w = Ok (tt, w').
Proof.
  rewrite exec_ok. split.
  - intros [[] H]. exact H.
  - intros H. now exists tt.
Qed.

Lemma run_inv t w :
  run t = Ok w ->
  exists w7,
    cleaning binary_cols (loaded t) = Ok (tt, w7)
    /\ let out := thinned (pruned (df w7)) in
       w = after w7 out
             [DroppingSparse (sparse_cols (pruned (df w7)));
              FinalRows (nrows out);
              TotalRowsDropped (Z.of_nat (initial_rows w7) - Z.of_nat (nrows out));
              CleanedSaved output_path]
             [(output_path, out)].
Proof.
  unfold run, script. intros H. apply exec_unit in H.
  now apply script_with_inv.
Qed.

Lemma read_last path t w out files :
  read_file path (after w t out (files ++ [(path, t)])) = Some t.
Proof.
  unfold read_file, after. simpl.
  rewrite app_assoc, rev_unit. simpl. now rewrite String.eqb_refl.
Qed.

Lemma cleaned_file_after w t out :
  cleaned_file (after w t out [(output_path, t)]) = Some t.
Proof. apply (read_last output_path t w out []). Qed.

Lemma cleaned_file_last t n out files :
  cleaned_file (mkWorld t n out (files ++ [(output_path, t)])) = Some t.
Proof.
  unfold cleaned_file, read_file. cbn [disk].
  rewrite rev_unit. cbn [find fst snd]. now rewrite String.eqb_refl.
Qed.

(** A run that reaches the export, spelled out: the frames it goes
    through, the columns it needs, and the world it ends in. *)
Lemma run_spec t w :
  run t = Ok w ->
  exists t3 lat lon t7 t9 out o f,
    t3 = coerced binary_cols (normalized t)
    /\ Forall (fun c => In c (header t)) binary_cols
    /\ get_col "latitude" t3 = Some lat
    /\ get_col "longitude" t3 = Some lon
    /\ In "city" (header t)
    /\ In "provstate" (header t)
    /\ t7 = coerced expected_numeric_cols (filled (filtered lat lon t3))
    /\ t9 = pruned t7
    /\ out = thinned t9
    /\ cleaning binary_cols (loaded t)
       = Ok (tt, mkWorld t7 (nrows t)
                   (InitialRows (nrows t)
                      :: RowsDroppedLatLon (count_true (missing_mask lat lon))
                      :: o)
                   f)
    /\ w = mkWorld out (nrows t)
             (InitialRows (nrows t)
                :: RowsDroppedLatLon (count_true (missing_mask lat lon))
                :: o ++ [DroppingSparse (sparse_cols t9);
                         FinalRows (nrows out);
                         TotalRowsDropped (Z.of_nat (nrows t) - Z.of_nat (nrows out));
                         CleanedSaved output_path])
             (f ++ [(output_path, out)]).
Proof.
  intros H. apply run_inv in H. destruct H as [w7 [H7 Hw]].
  cbv zeta in Hw.
  pose proof (cleaning_inv _ _ H7) as Hinv. cbv zeta in Hinv.
  destruct Hinv as [lat [lon [o [f [HF [E1 [E2 [Hcity [Hprov Ew]]]]]]]]].
  cbn [df loaded initial_rows stdout disk] in HF, E1, E2, Hcity, Hprov, Ew.
  rewrite app_nil_l in Ew. rewrite app_nil_l in Ew.
  remember (coerced binary_cols (normalized t)) as t3 eqn:Et3.
  remember (coerced expected_numeric_cols (filled (filtered lat lon t3)))
    as t7 eqn:Et7.
  subst w7. cbn [df initial_rows] in Hw. unfold after in Hw.
  cbn [df initial_rows stdout disk] in Hw.
  remember (pruned t7) as t9 eqn:Et9.
  remember (thinned t9) as out eqn:Eout.
  exists t3, lat, lon, t7, t9, out, o, f.
  repeat (split; [first [reflexivity | assumption]|]).
  rewrite Hw. reflexivity.
Qed.

(* ================================================================== *)
(** ** The alignment check is a frame (C8) *)

(** C8: the code/text consistency check leaves the table unchanged.  From
    any state of the script the loop over the seven (code, label) pairs
    runs to its end without raising, and the state after it has the same
    frame - every column and every row - the same [initial_rows] and the
    same files; all it does is add lines to the console. *)
Theorem C8_alignment_checks_only_print (w : world) :
  exists w', alignment_checks w = Ok (tt, w')
             /\ df w' = df w
             /\ initial_rows w' = initial_rows w
             /\ disk w' = disk w
             /\ exists out, stdout w' = stdout w ++ out.
Proof.
  destruct (alignment_checks_run w) as [out E].
  exists (after w (df w) out []). split; [exact E|].
  unfold after; simpl. rewrite app_nil_r.
  repeat split; try reflexivity. now exists out.
Qed.

(* ================================================================== *)
(** ** Text normalization keeps missing cells missing (C9) *)

Lemma normalize_cells_map v : normalize_cells v = map normalize_cell v.
Proof. unfold normalize_cells, normalize_cell. now rewrite !map_map. Qed.

Lemma iter_map A (f : A -> A) k (v : list A) :
  Nat.iter k (map f) v = map (Nat.iter k f) v.
Proof.
  induction k as [|k IH]; simpl.
  - now rewrite map_id.
  - now rewrite IH, map_map.
Qed.

Lemma iter_normalize_cells k v :
  Nat.iter k normalize_cells v = map (Nat.iter k normalize_cell) v.
Proof.
  rewrite <- iter_map. clear. induction k; simpl; [reflexivity|].
  now rewrite IHk, normalize_cells_map.
Qed.

Lemma normalize_cell_NA : normalize_cell NA = NA.
Proof. reflexivity. Qed.

Lemma iter_normalize_cell_NA k : Nat.iter k normalize_cell NA = NA.
Proof. induction k; simpl; [reflexivity|]. now rewrite IHk. Qed.

Lemma Forall2_map_r A B (P : A -> B -> Prop) (f : A -> B) l :
  (forall a, P a (f a)) -> Forall2 P l (map f l).
Proof. intros H. induction l; simpl; constructor; auto. Qed.

Lemma get_col_normalized n t :
  get_col n (normalized t)
  = option_map
      (map (fun v => replace_nan ["<na>"; "nan"]
                       (Nat.iter (count_occ string_dec (select_dtypes_object t) n)
                                 normalize_cell v)))
      (get_col n t).
Proof.
  unfold normalized. rewrite get_col_replace_frame, get_col_upd_all.
  destruct (get_col n t) as [v|]; simpl; [|reflexivity].
  now rewrite iter_normalize_cells, map_map.
Qed.

(** C9: text normalization preserves missingness.  The step always runs;
    it keeps the header, and in every column (text-typed or not) a cell
    that was the missing marker before the step is the missing marker
    after it - although [astype(str)] first renders it as the text nan,
    which the placeholder replacement maps back. *)
Theorem C9_normalization_preserves_missing (w : world) :
  exists w', text_normalization w = Ok (tt, w')
    /\ header (df w') = header (df w)
    /\ astype_str NA = Str "nan"
    /\ replace_nan placeholder_vals (Str "nan") = NA
    /\ replace_nan ["<na>"; "nan"] (Str "<na>") = NA
    /\ forall n v, get_col n (df w) = Some v ->
         exists v', get_col n (df w') = Some v'
                    /\ Forall2 (fun a b => a = NA -> b = NA) v v'.
Proof.
  eexists. split; [apply text_normalization_run|].
  simpl df. fold (normalized (df w)).
  split; [apply header_normalized|].
  do 3 (split; [reflexivity|]).
  intros n v E. rewrite get_col_normalized, E. simpl.
  eexists. split; [reflexivity|].
  apply Forall2_map_r. intros a ->.
  now rewrite iter_normalize_cell_NA.
Qed.

(* ================================================================== *)
(** ** Columns the script cannot do without (C3) *)

(** C3 (the code departs from it): the binary coercion loop reads
    [df[col]] for each of its nine columns and the default fill reads
    [df['city']] and [df['provstate']], all without the membership test
    that the numeric check and the alignment check make.  So when one of
    these eleven columns is absent the run does not skip the step: it
    ends in a [KeyError] and exports nothing. *)
Theorem C3_absent_column_raises (t : DataFrame) (c : string) :
  In c (binary_cols ++ ["city"; "provstate"]) ->
  ~ In c (header t) ->
  exists c', run t = KeyError c'.
Proof.
  intros Hc Habs. destruct (run t) as [w|c'] eqn:E; [|now exists c'].
  exfalso. apply Habs.
  apply run_inv in E. destruct E as [w7 [E _]].
  apply cleaning_inv in E.
  destruct E as [lat [lon [out [files [HF [_ [_ [Hcity [Hprov _]]]]]]]]].
  simpl in HF, Hcity, Hprov.
  apply in_app_or in Hc. destruct Hc as [Hc|Hc].
  - rewrite Forall_forall in HF. now apply HF.
  - destruct Hc as [<-|[<-|[]]]; assumption.
Qed.

(* ================================================================== *)
(** ** The sparsity threshold (C6) *)

Lemma count_na_le v : count_na v <= length v.
Proof. unfold count_na. apply filter_length_le. Qed.

Lemma Zpos_of_nat_S k : Z.pos (Pos.of_nat (S k)) = Z.of_nat (S k).
Proof. rewrite <- Pos.of_nat_succ. reflexivity. Qed.

Lemma ge_080_false v :
  ge (null_mean v) (8 # 10)%Q = false ->
  length v = 0 \/ 10 * count_na v < 8 * length v.
Proof.
  unfold null_mean. destruct (length v) as [|k] eqn:El; [now left|].
  unfold ge, Qle_bool. cbn [Qnum Qden].
  rewrite Zpos_of_nat_S. intros H. apply Z.leb_gt in H. right. lia.
Qed.

Lemma ge_080_true v :
  ge (null_mean v) (8 # 10)%Q = true ->
  0 < length v /\ 8 * length v <= 10 * count_na v.
Proof.
  unfold null_mean. destruct (length v) as [|k] eqn:El; [discriminate|].
  unfold ge, Qle_bool. cbn [Qnum Qden].
  rewrite Zpos_of_nat_S. intros H. apply Z.leb_le in H. lia.
Qed.

Lemma In_sparse_cols n t :
  In n (sparse_cols t)
  <-> exists v, In (n, v) (cols t) /\ ge (null_mean v) (8 # 10)%Q = true.
Proof.
  unfold sparse_cols. rewrite in_map_iff. split.
  - intros [[m v] [<- H]]. apply filter_In in H. now exists v.
  - intros [v [H1 H2]]. exists (n, v). split; [reflexivity|].
    apply filter_In. now split.
Qed.

Lemma In_drop_columns n v names t :
  In (n, v) (cols (drop_columns names t))
  <-> In (n, v) (cols t) /\ ~ In n names.
Proof.
  unfold drop_columns. simpl. rewrite filter_In. simpl.
  rewrite negb_true_iff, mem_not_In. reflexivity.
Qed.

Lemma header_drop_columns n names t :
  In n (header (drop_columns names t)) <-> In n (header t) /\ ~ In n names.
Proof.
  unfold header. rewrite !in_map_iff. split.
  - intros [[m v] [<- H]]. apply In_drop_columns in H. destruct H as [H1 H2].
    split; [|exact H2]. now exists (m, v).
  - intros [[[m v] [<- H1]] H2]. exists (m, v). split; [reflexivity|].
    now apply In_drop_columns.
Qed.

Lemma before_sparsity_run w0 w7 :
  cleaning binary_cols w0 = Ok (tt, w7) ->
  exec before_sparsity w0 = Ok (with_df (pruned (df w7)) w7).
Proof.
  intros H. apply exec_unit. unfold before_sparsity.
  rewrite (bind_run _ _ _ H). reflexivity.
Qed.

(** C6: no exported column is 80% or more missing.  The frame the
    sparsity step sees is the one left by the statements before it; the
    names of its columns whose fraction of missing cells is at least 0.8
    are printed, and every column with such a name is dropped.  The
    exported table is what remains: each of its columns was in that frame
    and has less than 80% missing cells (or the frame has no row at all,
    where the fraction is undefined and pandas compares false), and the
    rows are the same. *)
Theorem C6_no_sparse_column_exported (t : DataFrame) (w : world) :
  run t = Ok w ->
  exists w9 out,
    exec before_sparsity (loaded t) = Ok w9
    /\ cleaned_file w = Some out
    /\ In (DroppingSparse (sparse_cols (df w9))) (stdout w)
    /\ nrows out = nrows (df w9)
    /\ (forall n v, In (n, v) (cols (df w9)) ->
          ge (null_mean v) (8 # 10)%Q = true ->
          In n (sparse_cols (df w9)) /\ ~ In n (header out))
    /\ (forall n v, In (n, v) (cols out) ->
          In (n, v) (cols (df w9))
          /\ ge (null_mean v) (8 # 10)%Q = false
          /\ (length v = 0 \/ 10 * count_na v < 8 * length v)).
Proof.
  intros H. apply run_inv in H. destruct H as [w7 [H7 Hw]].
  cbv zeta in Hw.
  exists (with_df (pruned (df w7)) w7), (thinned (pruned (df w7))).
  split; [now apply before_sparsity_run|].
  split; [rewrite Hw; apply cleaned_file_after|].
  split.
  { rewrite Hw. unfold after. simpl. apply in_or_app. right. now left. }
  split; [reflexivity|].
  simpl df. split.
  - intros n v Hin Hge.
    assert (Hs : In n (sparse_cols (pruned (df w7))))
      by (apply In_sparse_cols; now exists v).
    split; [exact Hs|].
    unfold thinned. rewrite header_drop_columns. tauto.
  - intros n v Hin. unfold thinned in Hin.
    apply In_drop_columns in Hin. destruct Hin as [Hin Hns].
    split; [exact Hin|].
    assert (Hge : ge (null_mean v) (8 # 10)%Q = false).
    { destruct (ge (null_mean v) (8 # 10)%Q) eqn:E; [|reflexivity].
      exfalso. apply Hns. apply In_sparse_cols. now exists v. }
    split; [exact Hge | now apply ge_080_false].
Qed.

(* ================================================================== *)
(** ** The geolocation filter (C1, C2) *)

Lemma select_keep_left v m :
  Forall (fun x => isna x = false) (select (zip_with andb (map notna v) m) v).
Proof.
  revert m. induction v as [|x v IH]; intros m; simpl; [constructor|].
  destruct m as [|b m]; simpl; [constructor|].
  unfold notna at 1. destruct (isna x) eqn:E; simpl.
  - apply IH.
  - destruct b; simpl; [constructor; [assumption | apply IH] | apply IH].
Qed.

Lemma select_keep_right v u m :
  Forall (fun x => isna x = false)
         (select (zip_with andb u (zip_with andb (map notna v) m)) v).
Proof.
  revert u m. induction v as [|x v IH]; intros u m; simpl.
  - destruct u; simpl; constructor.
  - destruct u as [|a u]; simpl; [constructor|].
    destruct m as [|b m]; simpl; [constructor|].
    unfold notna at 1. destruct (isna x) eqn:E; simpl.
    + rewrite andb_false_r. apply IH.
    + destruct (a && b); [constructor; [assumption | apply IH] | apply IH].
Qed.

Lemma length_zip_with f a b :
  length (zip_with f a b) = Nat.min (length a) (length b).
Proof.
  revert b. induction a as [|x a IH]; intros [|y b]; simpl; auto.
Qed.

Lemma length_select mask (v : column) :
  length mask <= length v -> length (select mask v) = count_true mask.
Proof.
  unfold count_true. revert v.
  induction mask as [|b m IH]; intros v H; simpl; [reflexivity|].
  destruct v as [|x v]; simpl in *; [lia|].
  destruct b; simpl; rewrite IH by lia; reflexivity.
Qed.

Lemma length_keep_mask_lat lat lon n :
  length (keep_mask lat lon n) <= length lat.
Proof.
  unfold keep_mask. rewrite length_zip_with, length_map. lia.
Qed.

Lemma length_keep_mask_lon lat lon n :
  length (keep_mask lat lon n) <= length lon.
Proof.
  unfold keep_mask. rewrite !length_zip_with, !length_map. lia.
Qed.

Lemma count_na_zero v :
  Forall (fun x => isna x = false) v -> count_na v = 0.
Proof.
  unfold count_na. induction 1 as [|x v Hx _ IH]; simpl; [reflexivity|].
  now rewrite Hx.
Qed.

Lemma not_sparse_without_missing v :
  Forall (fun x => isna x = false) v -> ge (null_mean v) (8 # 10)%Q = false.
Proof.
  intros H. destruct (ge (null_mean v) (8 # 10)%Q) eqn:E; [|reflexivity].
  apply ge_080_true in E. rewrite (count_na_zero H) in E. lia.
Qed.

Lemma lookup_In k v m : lookup k m = Some v -> In (k, v) m.
Proof.
  induction m as [|[a b] m IH]; simpl; [discriminate|].
  destruct (String.eqb_spec a k) as [->|].
  - intros [= ->]. now left.
  - intros H. right. auto.
Qed.

Lemma rename_free_intro n :
  mem n (map snd rename_map) = false -> rename_free n.
Proof.
  intros H m E. unfold rename_col in E.
  destruct (lookup m rename_map) as [x|] eqn:L; [|assumption].
  exfalso. subst x. apply lookup_In in L.
  apply mem_not_In in H. apply H. apply (in_map snd) in L. exact L.
Qed.

Lemma rename_col_fixed n :
  mem n (map fst rename_map) = false -> rename_col n = n.
Proof.
  intros H. unfold rename_col.
  destruct (lookup n rename_map) as [x|] eqn:L; [|reflexivity].
  exfalso. apply lookup_In in L. apply mem_not_In in H. apply H.
  apply (in_map fst) in L. exact L.
Qed.

Lemma get_col_rename n t :
  rename_free n -> rename_col n = n -> get_col n (rename t) = get_col n t.
Proof.
  intros Hfree Hfix. unfold get_col, rename. simpl.
  induction (cols t) as [|[m v] l IH]; simpl; [reflexivity|].
  destruct (String.eqb_spec (rename_col m) n) as [E|E].
  - apply Hfree in E. subst m. now rewrite String.eqb_refl.
  - destruct (String.eqb_spec m n) as [->|]; [congruence | exact IH].
Qed.

Lemma In_rename n' v t :
  In (n', v) (cols (rename t)) ->
  exists n, n' = rename_col n /\ In (n, v) (cols t).
Proof.
  unfold rename. simpl. rewrite in_map_iff.
  intros [[n x] [[= <- <-] H]]. now exists n.
Qed.

Lemma get_col_drop_columns n names t :
  get_col n (drop_columns names t)
  = if mem n names then None else get_col n t.
Proof. apply assoc_filter_names. Qed.

Lemma get_col_filled n t :
  String.eqb "city" n = false -> String.eqb "provstate" n = false ->
  get_col n (filled t) = get_col n t.
Proof.
  intros H1 H2. unfold filled. now rewrite !get_col_upd, H1, H2.
Qed.

Lemma get_col_checked_filled n t :
  String.eqb "city" n = false -> String.eqb "provstate" n = false ->
  mem n expected_numeric_cols = false ->
  get_col n (coerced expected_numeric_cols (filled t)) = get_col n t.
Proof.
  intros Hc Hp He. unfold coerced.
  rewrite get_col_upd_all_other by now apply mem_not_In.
  now apply get_col_filled.
Qed.

Lemma get_col_pruned n t :
  mem n (map fst rename_map) = false ->
  mem n (map snd rename_map) = false ->
  mem n unwanted_cols = false ->
  get_col n (pruned t) = get_col n t.
Proof.
  intros Hk Hv Hu. unfold pruned. rewrite get_col_drop_columns, Hu.
  apply get_col_rename; [now apply rename_free_intro | now apply rename_col_fixed].
Qed.

(** A column without missing cells, under a name that is unique and that
    renaming and the explicit drop leave alone, survives both drops. *)
Lemma get_col_thinned_pruned n v t :
  NoDup (header t) ->
  mem n (map fst rename_map) = false ->
  mem n (map snd rename_map) = false ->
  mem n unwanted_cols = false ->
  get_col n t = Some v ->
  Forall (fun x => isna x = false) v ->
  get_col n (thinned (pruned t)) = Some v.
Proof.
  intros Hnd Hk Hv Hu E Hv0.
  assert (E9 : get_col n (pruned t) = Some v)
    by now rewrite get_col_pruned.
  unfold thinned. rewrite get_col_drop_columns.
  destruct (mem n (sparse_cols (pruned t))) eqn:Es; [|exact E9].
  exfalso. apply mem_In, In_sparse_cols in Es. destruct Es as [v' [Hin Hge]].
  unfold pruned in Hin. apply In_drop_columns in Hin. destruct Hin as [Hin _].
  apply In_rename in Hin. destruct Hin as [m [Em Hin]].
  symmetry in Em. apply (rename_free_intro Hv) in Em. subst m.
  apply (In_assoc _ _ _ Hnd) in Hin. unfold get_col in E.
  rewrite Hin in E. injection E as ->.
  rewrite (not_sparse_without_missing Hv0) in Hge. discriminate.
Qed.

(** A column that none of the statements after the filter touches comes
    out of the script as the filter left it. *)
Lemma get_col_output n v t :
  NoDup (header t) ->
  String.eqb "city" n = false -> String.eqb "provstate" n = false ->
  mem n expected_numeric_cols = false ->
  mem n (map fst rename_map) = false ->
  mem n (map snd rename_map) = false ->
  mem n unwanted_cols = false ->
  get_col n t = Some v ->
  Forall (fun x => isna x = false) v ->
  get_col n (thinned (pruned (coerced expected_numeric_cols (filled t))))
  = Some v.
Proof.
  intros Hnd Hc Hp He Hk Hv Hu E Hv0.
  apply get_col_thinned_pruned; try assumption.
  - now rewrite header_coerced, header_filled.
  - now rewrite get_col_checked_filled.
Qed.

Lemma nrows_output names lat lon t :
  nrows (thinned (pruned (coerced names (filled (filtered lat lon t)))))
  = count_true (keep_mask lat lon (nrows t)).
Proof.
  unfold thinned, pruned, drop_columns, rename. cbn [nrows].
  unfold coerced. rewrite nrows_upd_all. unfold filled.
  rewrite !nrows_upd. reflexivity.
Qed.

(** C1: every exported row has its latitude and its longitude.  On a
    loaded frame (unique column names) a run that reaches the export
    writes a table that still has both columns, with one cell per row and
    none of them missing: the filter removed the rows that missed either,
    and neither the default fill, the numeric check, the renaming nor the
    two column drops touch these columns afterwards. *)
Theorem C1_latlon_present_in_output (t : DataFrame) (w : world) :
  NoDup (header t) ->
  run t = Ok w ->
  exists out lat lon,
    cleaned_file w = Some out
    /\ get_col "latitude" out = Some lat
    /\ get_col "longitude" out = Some lon
    /\ length lat = nrows out
    /\ length lon = nrows out
    /\ Forall (fun x => isna x = false) lat
    /\ Forall (fun x => isna x = false) lon.
Proof.
  intros Hnd H.
  destruct (run_spec _ H)
    as (t3 & lat & lon & t7 & t9 & out & o & f & Et3 & _ & E1 & E2 & _ & _
        & Et7 & Et9 & Eout & _ & ->).
  exists out, (select (keep_mask lat lon (nrows t3)) lat),
         (select (keep_mask lat lon (nrows t3)) lon).
  split; [apply cleaned_file_last|].
  assert (Hnd4 : NoDup (header (filtered lat lon t3))).
  { rewrite header_filtered, Et3, header_coerced, header_normalized.
    exact Hnd. }
  assert (G1 : get_col "latitude" (filtered lat lon t3)
               = Some (select (keep_mask lat lon (nrows t3)) lat)).
  { unfold filtered. rewrite get_col_boolean_index, E1. reflexivity. }
  assert (G2 : get_col "longitude" (filtered lat lon t3)
               = Some (select (keep_mask lat lon (nrows t3)) lon)).
  { unfold filtered. rewrite get_col_boolean_index, E2. reflexivity. }
  assert (Hlat : Forall (fun x => isna x = false)
                        (select (keep_mask lat lon (nrows t3)) lat))
    by apply select_keep_left.
  assert (Hlon : Forall (fun x => isna x = false)
                        (select (keep_mask lat lon (nrows t3)) lon))
    by apply select_keep_right.
  assert (Nout : nrows out = count_true (keep_mask lat lon (nrows t3))).
  { rewrite Eout, Et9, Et7. apply nrows_output. }
  split.
  { rewrite Eout, Et9, Et7.
    apply get_col_output;
      [exact Hnd4 | reflexivity | reflexivity | reflexivity | reflexivity
       | reflexivity | reflexivity | exact G1 | exact Hlat]. }
  split.
  { rewrite Eout, Et9, Et7.
    apply get_col_output;
      [exact Hnd4 | reflexivity | reflexivity | reflexivity | reflexivity
       | reflexivity | reflexivity | exact G2 | exact Hlon]. }
  split.
  { rewrite Nout. apply length_select, length_keep_mask_lat. }
  split.
  { rewrite Nout. apply length_select, length_keep_mask_lon. }
  split; assumption.
Qed.

Lemma count_keep_missing lat lon n :
  length lat = n -> length lon = n ->
  count_true (keep_mask lat lon n) + count_true (missing_mask lat lon) = n.
Proof.
  unfold count_true, keep_mask, missing_mask.
  revert lon n. induction lat as [|x lat IH]; intros lon n Hl Hn; simpl in *.
  - now subst n.
  - destruct lon as [|y lon]; simpl in *; [lia|].
    destruct n as [|n]; [discriminate|]. simpl.
    injection Hl as Hl. injection Hn as Hn.
    specialize (IH lon n Hl Hn).
    destruct (isna x) eqn:Ex, (isna y) eqn:Ey; unfold notna at 1 2 3 4;
      rewrite ?Ex, ?Ey; simpl; lia.
Qed.

Lemma length_filter_map A B (f : B -> bool) (g : A -> B) l :
  length (filter f (map g l)) = length (filter (fun x => f (g x)) l).
Proof.
  induction l as [|x l IH]; simpl; [reflexivity|].
  destruct (f (g x)); simpl; now rewrite IH.
Qed.

Lemma count_missing_rows lat lon n :
  length lat = n -> length lon = n ->
  count_true (missing_mask lat lon)
  = length (filter (fun i => isna (nth i lat NA) || isna (nth i lon NA))
                   (seq 0 n)).
Proof.
  unfold count_true, missing_mask.
  revert lon n. induction lat as [|x lat IH]; intros lon n Hl Hn; simpl in *.
  - now subst n.
  - destruct lon as [|y lon]; simpl in *; [lia|].
    destruct n as [|n]; [discriminate|].
    injection Hl as Hl. injection Hn as Hn.
    specialize (IH lon n Hl Hn).
    change (seq 0 (S n)) with (0 :: seq 1 n). rewrite <- seq_shift.
    cbn [filter nth].
    destruct (isna x || isna y); cbn [length];
      rewrite length_filter_map; cbn [nth]; now rewrite IH.
Qed.

Lemma rows_missing_latlon_count t lat lon :
  get_col "latitude" t = Some lat ->
  get_col "longitude" t = Some lon ->
  length lat = nrows t -> length lon = nrows t ->
  rows_missing_latlon t = count_true (missing_mask lat lon).
Proof.
  intros E1 E2 L1 L2. rewrite (@count_missing_rows lat lon (nrows t) L1 L2).
  unfold rows_missing_latlon. f_equal. apply filter_ext.
  intros i. unfold row_missing_latlon. now rewrite E1, E2.
Qed.

Lemma length_iter_map A (f : A -> A) k (v : list A) :
  length (Nat.iter k (map f) v) = length v.
Proof. rewrite iter_map. apply length_map. Qed.

Lemma get_col_rectangular n v t :
  rectangular t -> get_col n t = Some v -> length v = nrows t.
Proof.
  intros Hr E. apply assoc_In in E. unfold rectangular in Hr.
  rewrite Forall_forall in Hr. exact (Hr _ E).
Qed.

Lemma length_before_filter n v names t :
  rectangular t ->
  get_col n (coerced names (normalized t)) = Some v ->
  length v = nrows t.
Proof.
  intros Hr E. unfold coerced in E.
  rewrite get_col_upd_all, get_col_normalized in E.
  destruct (get_col n t) as [x|] eqn:Ex; [|discriminate].
  simpl in E. injection E as <-.
  rewrite length_iter_map, length_map. exact (@get_col_rectangular n x t Hr Ex).
Qed.

Lemma nrows_before_filter names t :
  nrows (coerced names (normalized t)) = nrows t.
Proof.
  unfold coerced, normalized, replace_frame.
  rewrite nrows_upd_all. cbn [nrows]. apply nrows_upd_all.
Qed.

Lemma before_filter_run t :
  Forall (fun c => In c (header t)) binary_cols ->
  exec before_filter (loaded t)
  = Ok (mkWorld (coerced binary_cols (normalized t)) (nrows t)
                [InitialRows (nrows t)] []).
Proof.
  intros HF. apply exec_unit. unfold before_filter.
  now rewrite (@before_filter_with_run binary_cols (loaded t) HF).
Qed.

Lemma row_keeping s w w' :
  In s row_keeping_steps -> s w = Ok (tt, w') -> nrows (df w') = nrows (df w).
Proof.
  unfold row_keeping_steps. cbn [In].
  intros [<-|[<-|[<-|[<-|[<-|[<-|[<-|[<-|[<-|[<-|[<-|[]]]]]]]]]]]] H.
  - rewrite track_initial_rows_run in H. apply Ok_inj in H. now subst w'.
  - rewrite text_normalization_run in H. apply Ok_inj in H. subst w'.
    unfold with_df, replace_frame. cbn [df nrows]. apply nrows_upd_all.
  - apply clean_binary_inv in H. destruct H as [_ ->].
    unfold with_df. cbn [df]. apply nrows_upd_all.
  - apply fill_common_inv in H. destruct H as [_ [_ ->]].
    unfold with_df. cbn [df]. now rewrite !nrows_upd.
  - destruct (alignment_checks_run w) as [o E]. rewrite E in H.
    apply Ok_inj in H. now subst w'.
  - destruct (type_integrity_run w) as [o [f E]]. rewrite E in H.
    apply Ok_inj in H. subst w'. unfold after. cbn [df].
    apply nrows_upd_all.
  - rewrite rename_columns_run in H. apply Ok_inj in H. now subst w'.
  - rewrite drop_unwanted_run in H. apply Ok_inj in H. now subst w'.
  - rewrite drop_sparse_run in H. apply Ok_inj in H. now subst w'.
  - rewrite report_final_run in H. apply Ok_inj in H. now subst w'.
  - rewrite export_cleaned_run in H. apply Ok_inj in H. now subst w'.
Qed.

Lemma rectangular_apply_first c (f : column -> column) n l :
  (forall v, length (f v) = length v) ->
  Forall (fun x : string * column => length (snd x) = n) l ->
  Forall (fun x : string * column => length (snd x) = n) (apply_first c f l).
Proof.
  intros Hf H. induction H as [|[m x] l Hx Hl IH]; simpl; [constructor|].
  destruct (String.eqb m c); constructor; try assumption.
  simpl in *. now rewrite Hf.
Qed.

Lemma rectangular_upd c f t :
  (forall v, length (f v) = length v) ->
  rectangular t -> rectangular (upd c f t).
Proof.
  intros Hf H. unfold rectangular, upd. cbn [cols nrows].
  now apply rectangular_apply_first.
Qed.

Lemma rectangular_upd_all names f t :
  (forall v, length (f v) = length v) ->
  rectangular t -> rectangular (upd_all names f t).
Proof.
  intros Hf. unfold upd_all. revert t.
  induction names as [|c names IH]; intros t H; simpl; [exact H|].
  apply IH. now apply rectangular_upd.
Qed.

Lemma rectangular_replace_frame tokens t :
  rectangular t -> rectangular (replace_frame tokens t).
Proof.
  unfold rectangular, replace_frame. cbn [cols nrows]. intros H.
  apply Forall_map. eapply Forall_impl; [|exact H].
  intros [m x] Hx. simpl in *. now rewrite length_map.
Qed.

Lemma rectangular_boolean_index mask t :
  length mask <= nrows t ->
  rectangular t -> rectangular (boolean_index mask t).
Proof.
  unfold rectangular, boolean_index. cbn [cols nrows]. intros Hm H.
  apply Forall_map. eapply Forall_impl; [|exact H].
  intros [m x] Hx. simpl in *. apply length_select. lia.
Qed.

Lemma rectangular_rename t : rectangular t -> rectangular (rename t).
Proof.
  unfold rectangular, rename. cbn [cols nrows]. intros H.
  apply Forall_map. eapply Forall_impl; [|exact H]. now intros [m x].
Qed.

Lemma rectangular_drop_columns names t :
  rectangular t -> rectangular (drop_columns names t).
Proof.
  unfold rectangular, drop_columns. cbn [cols nrows]. intros H.
  apply Forall_forall. intros x Hx. apply filter_In in Hx.
  rewrite Forall_forall in H. apply H. tauto.
Qed.

Lemma length_keep_mask_le lat lon n : length (keep_mask lat lon n) <= n.
Proof.
  unfold keep_mask. rewrite !length_zip_with, repeat_length. lia.
Qed.

Lemma length_normalize_cells v : length (normalize_cells v) = length v.
Proof. unfold normalize_cells. now rewrite !length_map. Qed.

Lemma row_keeping_cells s w w' :
  In s row_keeping_steps -> s w = Ok (tt, w') ->
  rectangular (df w) -> rectangular (df w').
Proof.
  unfold row_keeping_steps. cbn [In].
  intros [<-|[<-|[<-|[<-|[<-|[<-|[<-|[<-|[<-|[<-|[<-|[]]]]]]]]]]]] H Hr.
  - rewrite track_initial_rows_run in H. apply Ok_inj in H. now subst w'.
  - rewrite text_normalization_run in H. apply Ok_inj in H. subst w'.
    unfold with_df. cbn [df]. apply rectangular_replace_frame.
    apply rectangular_upd_all; [apply length_normalize_cells | exact Hr].
  - apply clean_binary_inv in H. destruct H as [_ ->].
    unfold with_df. cbn [df].
    apply rectangular_upd_all; [intros v; apply length_map | exact Hr].
  - apply fill_common_inv in H. destruct H as [_ [_ ->]].
    unfold with_df. cbn [df].
    apply rectangular_upd; [intros v; apply length_map|].
    apply rectangular_upd; [intros v; apply length_map | exact Hr].
  - destruct (alignment_checks_run w) as [o E]. rewrite E in H.
    apply Ok_inj in H. now subst w'.
  - destruct (type_integrity_run w) as [o [f E]]. rewrite E in H.
    apply Ok_inj in H. subst w'. unfold after. cbn [df].
    apply rectangular_upd_all; [intros v; apply length_map | exact Hr].
  - rewrite rename_columns_run in H. apply Ok_inj in H. subst w'.
    unfold with_df. cbn [df]. now apply rectangular_rename.
  - rewrite drop_unwanted_run in H. apply Ok_inj in H. subst w'.
    unfold with_df. cbn [df]. now apply rectangular_drop_columns.
  - rewrite drop_sparse_run in H. apply Ok_inj in H. subst w'.
    unfold after. cbn [df]. now apply rectangular_drop_columns.
  - rewrite report_final_run in H. apply Ok_inj in H. now subst w'.
  - rewrite export_cleaned_run in H. apply Ok_inj in H. now subst w'.
Qed.

(** C2: the final row count is the initial one minus the rows without a
    latitude or a longitude.  On a loaded frame (one cell per row in
    every column) a run that reaches the export has [w3] as its state
    when the geolocation filter starts; the frame there has as many rows
    as the input, one cell per row in every column, and the exported
    table has exactly the rows that do not miss a latitude or a longitude
    there: every exported column has that many cells.  The console shows
    that number of dropped rows, the final count and the difference to
    the initial count.  Every other statement of the script, the binary
    coercion and the numeric check among them, keeps the number of rows
    and the number of cells of every column. *)
Theorem C2_final_row_count (t : DataFrame) (w : world) :
  rectangular t ->
  run t = Ok w ->
  exists w3 out,
    exec before_filter (loaded t) = Ok w3
    /\ cleaned_file w = Some out
    /\ nrows (df w3) = nrows t
    /\ rectangular (df w3)
    /\ nrows out = nrows t - rows_missing_latlon (df w3)
    /\ (forall n v, In (n, v) (cols out) ->
          length v = nrows t - rows_missing_latlon (df w3))
    /\ rows_missing_latlon (df w3) <= nrows t
    /\ In (RowsDroppedLatLon (rows_missing_latlon (df w3))) (stdout w)
    /\ In (FinalRows (nrows out)) (stdout w)
    /\ In (TotalRowsDropped (Z.of_nat (nrows t) - Z.of_nat (nrows out)))
          (stdout w)
    /\ forall s w1 w2, In s row_keeping_steps ->
         s w1 = Ok (tt, w2) ->
         nrows (df w2) = nrows (df w1)
         /\ (rectangular (df w1) -> rectangular (df w2)).
Proof.
  intros Hr H.
  destruct (run_spec _ H)
    as (t3 & lat & lon & t7 & t9 & out & o & f & Et3 & HF & E1 & E2 & _ & _
        & Et7 & Et9 & Eout & _ & ->).
  assert (N3 : nrows t3 = nrows t)
    by (rewrite Et3; apply nrows_before_filter).
  assert (L1 : length lat = nrows t3).
  { rewrite N3. rewrite Et3 in E1. exact (@length_before_filter "latitude" lat binary_cols t Hr E1). }
  assert (L2 : length lon = nrows t3).
  { rewrite N3. rewrite Et3 in E2. exact (@length_before_filter "longitude" lon binary_cols t Hr E2). }
  pose proof (@count_keep_missing lat lon (nrows t3) L1 L2) as Hsum.
  pose proof (@rows_missing_latlon_count t3 lat lon E1 E2 L1 L2) as Hmiss.
  assert (Nout : nrows out = count_true (keep_mask lat lon (nrows t3))).
  { rewrite Eout, Et9, Et7. apply nrows_output. }
  assert (R3 : rectangular t3).
  { rewrite Et3. unfold coerced, normalized.
    apply rectangular_upd_all; [intros v; apply length_map|].
    apply rectangular_replace_frame.
    apply rectangular_upd_all; [apply length_normalize_cells | exact Hr]. }
  assert (Rout : rectangular out).
  { rewrite Eout, Et9, Et7.
    unfold thinned, pruned, coerced, filled, filtered.
    apply rectangular_drop_columns, rectangular_drop_columns,
      rectangular_rename.
    apply rectangular_upd_all; [intros v; apply length_map|].
    apply rectangular_upd; [intros v; apply length_map|].
    apply rectangular_upd; [intros v; apply length_map|].
    apply rectangular_boolean_index; [apply length_keep_mask_le | exact R3]. }
  exists (mkWorld t3 (nrows t) [InitialRows (nrows t)] []), out.
  split; [rewrite Et3; now apply before_filter_run|].
  split; [apply cleaned_file_last|].
  cbn [df stdout].
  split; [exact N3|].
  split; [exact R3|].
  split; [lia|].
  split.
  { intros n v Hin. unfold rectangular in Rout.
    rewrite Forall_forall in Rout. specialize (Rout _ Hin).
    cbn [snd] in Rout. lia. }
  split; [lia|].
  split; [|split; [|split]].
  - right. left. now rewrite Hmiss.
  - right. right. apply in_or_app. right. right. now left.
  - right. right. apply in_or_app. right. right. right. now left.
  - intros s w1 w2 Hs Hrun. split.
    + exact (row_keeping _ Hs Hrun).
    + exact (row_keeping_cells _ Hs Hrun).
Qed.

(* ================================================================== *)
(** ** The numeric check (C4, C5) *)

Lemma to_numeric_clean v : numeric_or_missing (to_numeric v).
Proof.
  destruct v as [|x|s]; simpl.
  - now left.
  - right. now exists x.
  - destruct (parse_numeric s) as [x|]; [right; now exists x | now left].
Qed.

Lemma map_to_numeric_clean v : Forall numeric_or_missing (map to_numeric v).
Proof. apply Forall_forall. intros x Hx. apply in_map_iff in Hx.
  destruct Hx as [y [<- _]]. apply to_numeric_clean.
Qed.

Lemma NoDup_expected_numeric_cols : NoDup expected_numeric_cols.
Proof.
  unfold expected_numeric_cols.
  repeat (constructor; [apply mem_not_In; reflexivity|]). constructor.
Qed.

Lemma checked_column_clean c v t :
  NoDup (header t) -> In c expected_numeric_cols ->
  In (c, v) (cols (coerced expected_numeric_cols t)) ->
  Forall numeric_or_missing v.
Proof.
  intros Hnd Hc Hin.
  assert (Hnd' : NoDup (header (coerced expected_numeric_cols t)))
    by (rewrite header_coerced; exact Hnd).
  apply (In_get_col _ _ _ Hnd') in Hin.
  unfold coerced in Hin.
  rewrite (@get_col_upd_all_once c expected_numeric_cols (map to_numeric) _
             NoDup_expected_numeric_cols Hc) in Hin.
  destruct (get_col c t) as [x|]; [|discriminate].
  injection Hin as <-. apply map_to_numeric_clean.
Qed.

(** C5: after the numeric check the declared-numeric columns hold numbers
    and missing markers only.  On a loaded frame (unique column names) a
    run that reaches the export has [w7] as its state after the numeric
    check.  The frame there has the header of the input, and each of its
    columns named in the numeric-check list holds nothing but numbers and
    missing markers.  Every column of the exported table is one of the
    columns of that frame, with the same cells, under the name the rename
    map gives it - so no raw text is left in the exported counterpart of a
    checked column. *)
Theorem C5_checked_columns_are_numeric (t : DataFrame) (w : world) :
  NoDup (header t) ->
  run t = Ok w ->
  exists w7 out,
    exec (cleaning binary_cols) (loaded t) = Ok w7
    /\ cleaned_file w = Some out
    /\ header (df w7) = header t
    /\ (forall c v, In c expected_numeric_cols ->
          In (c, v) (cols (df w7)) -> Forall numeric_or_missing v)
    /\ (forall n' v, In (n', v) (cols out) ->
          exists n, n' = rename_col n /\ In (n, v) (cols (df w7))).
Proof.
  intros Hnd H.
  destruct (run_spec _ H)
    as (t3 & lat & lon & t7 & t9 & out & o & f & Et3 & _ & _ & _ & _ & _
        & Et7 & Et9 & Eout & Hclean & ->).
  eexists. exists out.
  split; [apply exec_unit; exact Hclean|].
  split; [apply cleaned_file_last|].
  cbn [df].
  assert (Hh : header (filled (filtered lat lon t3)) = header t).
  { rewrite header_filled, header_filtered, Et3, header_coerced.
    apply header_normalized. }
  split; [rewrite Et7, header_coerced; exact Hh|].
  split.
  - intros c v Hc Hin. rewrite Et7 in Hin.
    apply (@checked_column_clean c v (filled (filtered lat lon t3)));
      [rewrite Hh; exact Hnd | exact Hc | exact Hin].
  - intros n' v Hin. rewrite Eout, Et9 in Hin. unfold thinned, pruned in Hin.
    apply In_drop_columns in Hin. destruct Hin as [Hin _].
    apply In_drop_columns in Hin. destruct Hin as [Hin _].
    now apply In_rename.
Qed.

Lemma value_eqb_eq a b : value_eqb a b = true <-> a = b.
Proof.
  destruct a as [|x|s], b as [|y|u]; simpl;
    try (split; [discriminate | congruence]).
  - tauto.
  - rewrite num_eqb_eq. split; congruence.
  - rewrite String.eqb_eq. split; congruence.
Qed.

Lemma In_unique x l : In x (unique l) -> In x l.
Proof.
  induction l as [|a l IH]; simpl; [tauto|].
  intros [->|H]; [now left|].
  apply filter_In in H. right. apply IH. tauto.
Qed.

Lemma NoDup_unique l : NoDup (unique l).
Proof.
  induction l as [|a l IH]; simpl; constructor.
  - intros H. apply filter_In in H. destruct H as [_ H].
    rewrite negb_true_iff in H.
    assert (E : value_eqb a a = true) by now apply value_eqb_eq.
    congruence.
  - now apply NoDup_filter.
Qed.

Lemma NoDup_firstn_of A k (l : list A) : NoDup l -> NoDup (firstn k l).
Proof.
  revert k. induction l as [|a l IH]; intros k H.
  - now rewrite firstn_nil.
  - destruct k as [|k]; simpl; [constructor|].
    inversion H as [|? ? Hn Hl]; subst. constructor; [|now apply IH].
    intros Hin. apply Hn. revert Hin. clear.
    revert k. induction l as [|b l IH]; intros k; destruct k; simpl; try tauto.
    intros [->|H]; [now left | right; eauto].
Qed.

Lemma In_firstn A k (l : list A) x : In x (firstn k l) -> In x l.
Proof.
  revert k. induction l as [|b l IH]; intros k; destruct k; simpl; try tauto.
  intros [->|H]; [now left | right; eauto].
Qed.

Lemma invalid_mask_map v : invalid_mask v = map unparseable v.
Proof.
  unfold invalid_mask, unparseable.
  induction v as [|x v IH]; simpl; [reflexivity|]. now rewrite IH.
Qed.

Lemma select_map_filter (p : value -> bool) v :
  select (map p v) v = filter p v.
Proof.
  induction v as [|x v IH]; simpl; [reflexivity|].
  destruct (p x); now rewrite IH.
Qed.

Lemma count_true_map (p : value -> bool) v :
  count_true (map p v) = length (filter p v).
Proof.
  unfold count_true. induction v as [|x v IH]; simpl; [reflexivity|].
  destruct (p x); simpl; now rewrite IH.
Qed.

Lemma filter_nonempty A (p : A -> bool) l :
  existsb p l = true -> 0 < length (filter p l).
Proof.
  induction l as [|x l IH]; simpl; [discriminate|].
  destruct (p x); simpl; [lia | exact IH].
Qed.

(** C4, as the script has it: the quarantine file holds every offending
    row, not one row per distinct value.  When a column of the
    numeric-check list is in the frame and holds cells that are present
    but do not parse, its round of the check writes one file, named after
    the column: the rows of the frame, all columns, at which the cell
    fails, in order and with repetitions - as many rows as there are
    offending cells.  Only the preview printed on the console is
    deduplicated (and cut to ten values).  The path of the file is
    printed after it is written, and the column is then coerced: every
    cell becomes a number or the missing marker, and no other column
    changes. *)
Theorem C4_quarantine_holds_every_bad_row (c : string) (w : world) (v : column) :
  In c expected_numeric_cols ->
  get_col c (df w) = Some v ->
  existsb unparseable v = true ->
  exists w' file preview,
    check_numeric c w = Ok (tt, w')
    /\ disk w' = disk w ++ [(bad_file c, file)]
    /\ header file = header (df w)
    /\ (forall n, get_col n file
                  = option_map (select (map unparseable v)) (get_col n (df w)))
    /\ get_col c file = Some (filter unparseable v)
    /\ nrows file = length (filter unparseable v)
    /\ stdout w' = stdout w ++ [NonNumericFound c; Preview preview;
                                Saved (bad_file c)]
    /\ preview = firstn 10 (unique (filter unparseable v))
    /\ NoDup preview
    /\ (forall x, In x preview -> In x v /\ unparseable x = true)
    /\ get_col c (df w') = Some (map to_numeric v)
    /\ Forall numeric_or_missing (map to_numeric v)
    /\ header (df w') = header (df w)
    /\ nrows (df w') = nrows (df w)
    /\ (forall n, n <> c -> get_col n (df w') = get_col n (df w)).
Proof.
  intros _ E Hbad.
  pose proof (check_numeric_present _ _ E) as Hrun. cbv zeta in Hrun.
  assert (Hne : empty (boolean_index (invalid_mask v) (df w)) = false).
  { unfold empty, boolean_index. cbn [nrows cols].
    rewrite invalid_mask_map, count_true_map, length_map.
    apply filter_nonempty in Hbad.
    assert (Hc : 0 < length (cols (df w))).
    { apply assoc_In in E. destruct (cols (df w)); simpl in *; [tauto | lia]. }
    apply orb_false_iff. split; apply Nat.eqb_neq; lia. }
  rewrite Hne in Hrun.
  eexists. eexists. eexists. split; [exact Hrun|].
  unfold after. cbn [df stdout disk initial_rows].
  split; [reflexivity|].
  split; [apply header_boolean_index|].
  split.
  { intros n. rewrite <- invalid_mask_map. apply get_col_boolean_index. }
  split.
  { rewrite get_col_boolean_index, E, invalid_mask_map. simpl.
    now rewrite select_map_filter. }
  split.
  { unfold boolean_index. cbn [nrows].
    now rewrite invalid_mask_map, count_true_map. }
  split; [reflexivity|].
  split; [now rewrite invalid_mask_map, select_map_filter|].
  split.
  { apply NoDup_firstn_of, NoDup_unique. }
  split.
  { intros x Hx. apply In_firstn, In_unique in Hx.
    rewrite invalid_mask_map, select_map_filter in Hx.
    now apply filter_In in Hx. }
  split.
  { rewrite get_col_upd, String.eqb_refl, E. reflexivity. }
  split; [apply map_to_numeric_clean|].
  split; [apply header_upd|].
  split; [apply nrows_upd|].
  intros n Hn. rewrite get_col_upd.
  destruct (String.eqb_spec c n); [congruence | reflexivity].
Qed.

(* ================================================================== *)
(** ** The placeholder tokens (C7) *)

Lemma NoDup_map_fst_filter (p : string * column -> bool) l :
  NoDup (map fst l) -> NoDup (map fst (filter p l)).
Proof.
  induction l as [|c l IH]; simpl; intros H; [constructor|].
  inversion H as [|? ? Hn Hl]; subst.
  destruct (p c); simpl; [|now apply IH].
  constructor; [|now apply IH].
  intros Hin. apply Hn. apply in_map_iff in Hin.
  destruct Hin as [c' [E Hc']]. apply filter_In in Hc'.
  rewrite <- E. apply in_map. tauto.
Qed.

Lemma NoDup_select_dtypes_object t :
  NoDup (header t) -> NoDup (select_dtypes_object t).
Proof. apply NoDup_map_fst_filter. Qed.

Lemma In_select_dtypes_object n v t :
  get_col n t = Some v -> is_object v = true -> In n (select_dtypes_object t).
Proof.
  intros E Ho. apply assoc_In in E. unfold select_dtypes_object.
  apply in_map_iff. exists (n, v). split; [reflexivity|].
  apply filter_In. now split.
Qed.

Lemma normalize_text s :
  replace_nan ["<na>"; "nan"] (normalize_cell (Str s))
  = if mem (strip (lower s)) ("<na>" :: placeholder_vals)
    then NA else Str (strip (lower s)).
Proof.
  unfold normalize_cell. simpl astype_str. simpl str_lower. simpl str_strip.
  generalize (strip (lower s)). intros u.
  unfold replace_nan at 2.
  destruct (mem u placeholder_vals) eqn:Ep.
  - simpl. unfold mem in *. simpl existsb in *. rewrite Ep.
    now rewrite orb_true_r.
  - unfold replace_nan. unfold mem in *. simpl existsb in *.
    destruct (String.eqb u "<na>"); simpl; [reflexivity|].
    rewrite Ep.
    do 4 (apply orb_false_elim in Ep; destruct Ep as [_ Ep]).
    apply orb_false_elim in Ep. destruct Ep as [Ep _].
    now rewrite Ep.
Qed.

Lemma normalize_cell_astype a s :
  astype_str a = Str s -> normalize_cell a = normalize_cell (Str s).
Proof. intros Ha. unfold normalize_cell. now rewrite Ha. Qed.

(** C7, as the script has it: the placeholder tokens are unknown, not
    applicable, unk, none, nan and the empty text; n/a is not among them.
    On a loaded frame (unique column names) the step always runs, and in
    every text-typed column every cell - a text, a number or a missing
    cell, as [astype(str)] renders it - is lowercased and trimmed and
    then becomes the missing marker exactly when the result is one of
    these tokens (or the rendering <na>); any other value, n/a included,
    stays in the column as its lowercased, trimmed text. *)
Theorem C7_placeholders_become_missing (w : world) :
  NoDup (header (df w)) ->
  exists w',
    text_normalization w = Ok (tt, w')
    /\ header (df w') = header (df w)
    /\ (forall n v, get_col n (df w) = Some v -> is_object v = true ->
          exists v',
            get_col n (df w') = Some v'
            /\ Forall2 (fun a b =>
                          exists s,
                            astype_str a = Str s
                            /\ b = if mem (strip (lower s))
                                          ("<na>" :: placeholder_vals)
                                   then NA else Str (strip (lower s))) v v')
    /\ placeholder_vals
       = ["unknown"; "not applicable"; "unk"; "none"; "nan"; ""]
    /\ mem "n/a" ("<na>" :: placeholder_vals) = false.
Proof.
  intros Hnd. eexists. split; [apply text_normalization_run|].
  simpl df. fold (normalized (df w)).
  split; [apply header_normalized|].
  split; [|split; reflexivity].
  intros n v E Ho. rewrite get_col_normalized, E. simpl.
  eexists. split; [reflexivity|].
  pose proof (NoDup_select_dtypes_object _ Hnd) as Hnd'.
  pose proof (In_select_dtypes_object _ _ E Ho) as Hin.
  pose proof (proj1 (NoDup_count_occ string_dec _) Hnd' n) as Hle.
  pose proof (proj1 (count_occ_In string_dec _ n) Hin) as Hgt.
  replace (count_occ string_dec (select_dtypes_object (df w)) n) with 1 by lia.
  apply Forall2_map_r. intros a.
  assert (Ha : exists s, astype_str a = Str s)
    by (destruct a as [|x|s];
        [exists "nan" | exists (num_str x) | exists s]; reflexivity).
  destruct Ha as [s Ha]. exists s. split; [exact Ha|].
  simpl Nat.iter. rewrite (normalize_cell_astype _ Ha).
  apply normalize_text.
Qed.

(* ================================================================== *)
(** ** Binary columns that the explicit drop removes (C10) *)

Lemma agree_refl D t : agree D t t.
Proof.
  split; [reflexivity|].
  induction (cols t) as [|c l IH]; constructor; auto.
Qed.

Lemma agree_assoc D n l l' :
  Forall2 (fun c c' : string * column =>
             fst c = fst c' /\ (In (fst c) D \/ snd c = snd c')) l l' ->
  ~ In n D -> assoc n l = assoc n l'.
Proof.
  intros H Hn. induction H as [|[m x] [m' x'] l l' [E Hc] _ IH]; simpl;
    [reflexivity|].
  simpl in E, Hc. subst m'.
  destruct (String.eqb_spec m n) as [->|]; [|exact IH].
  destruct Hc as [Hc|Hc]; [contradiction | now subst].
Qed.

Lemma agree_get_col D n a b :
  agree D a b -> ~ In n D -> get_col n a = get_col n b.
Proof. intros [_ H] Hn. now apply agree_assoc with (D := D). Qed.

Lemma agree_header D a b : agree D a b -> header a = header b.
Proof.
  intros [_ H]. unfold header.
  induction H as [|c c' l l' [E _] _ IH]; simpl; [reflexivity|].
  now rewrite E, IH.
Qed.

Lemma agree_apply_first_left D c f l l' :
  In c D ->
  Forall2 (fun c c' : string * column =>
             fst c = fst c' /\ (In (fst c) D \/ snd c = snd c')) l l' ->
  Forall2 (fun c c' : string * column =>
             fst c = fst c' /\ (In (fst c) D \/ snd c = snd c'))
          (apply_first c f l) l'.
Proof.
  intros Hc H.
  induction H as [|[m y] [m' y'] l l' [E1 Hd] Hr IH]; simpl; [constructor|].
  simpl in E1, Hd. subst m'.
  destruct (String.eqb_spec m c) as [->|].
  - constructor; [|exact Hr]. simpl. auto.
  - constructor; [simpl; auto | exact IH].
Qed.

Lemma agree_apply_first_both D c f l l' :
  ~ In c D ->
  Forall2 (fun c c' : string * column =>
             fst c = fst c' /\ (In (fst c) D \/ snd c = snd c')) l l' ->
  Forall2 (fun c c' : string * column =>
             fst c = fst c' /\ (In (fst c) D \/ snd c = snd c'))
          (apply_first c f l) (apply_first c f l').
Proof.
  intros Hc H.
  induction H as [|[m y] [m' y'] l l' [E1 Hd] Hr IH]; simpl; [constructor|].
  simpl in E1, Hd. subst m'.
  destruct (String.eqb_spec m c) as [->|].
  - constructor; [|exact Hr]. simpl. split; [reflexivity|].
    destruct Hd as [Hd|Hd]; [contradiction | right; now rewrite Hd].
  - constructor; [simpl; auto | exact IH].
Qed.

Lemma agree_upd_left D c f a b :
  In c D -> agree D a b -> agree D (upd c f a) b.
Proof.
  intros Hc [Hn H]. split; [exact Hn|].
  unfold upd. cbn [cols]. now apply agree_apply_first_left.
Qed.

Lemma agree_upd_both D c f a b :
  ~ In c D -> agree D a b -> agree D (upd c f a) (upd c f b).
Proof.
  intros Hc [Hn H]. split; [exact Hn|].
  unfold upd. cbn [cols]. now apply agree_apply_first_both.
Qed.

Lemma agree_upd_all_filter D names f a b :
  agree D a b ->
  agree D (upd_all names f a)
          (upd_all (filter (fun c => negb (mem c D)) names) f b).
Proof.
  unfold upd_all. revert a b.
  induction names as [|c names IH]; intros a b H; simpl; [exact H|].
  destruct (mem c D) eqn:E; simpl.
  - apply IH. apply agree_upd_left; [now apply mem_In | exact H].
  - apply IH. apply agree_upd_both; [now apply mem_not_In | exact H].
Qed.

Lemma agree_upd_all_both D names f a b :
  (forall c, In c names -> ~ In c D) ->
  agree D a b -> agree D (upd_all names f a) (upd_all names f b).
Proof.
  unfold upd_all. revert a b.
  induction names as [|c names IH]; intros a b Hn H; simpl; [exact H|].
  apply IH; [intros; apply Hn; now right|].
  apply agree_upd_both; [apply Hn; now left | exact H].
Qed.

Lemma agree_boolean_index D mask a b :
  agree D a b -> agree D (boolean_index mask a) (boolean_index mask b).
Proof.
  intros [_ H]. split; [reflexivity|]. simpl.
  induction H as [|c c' l l' [E Hd] _ IH]; simpl; constructor; [|exact IH].
  simpl. split; [exact E|]. destruct Hd as [Hd|Hd]; [now left|].
  right. now rewrite Hd.
Qed.

Lemma agree_rename D a b :
  (forall n, In n D -> In (rename_col n) D) ->
  agree D a b -> agree D (rename a) (rename b).
Proof.
  intros HD [Hn H]. split; [exact Hn|]. simpl.
  induction H as [|c c' l l' [E Hd] _ IH]; simpl; constructor; [|exact IH].
  simpl. split; [now rewrite E|]. destruct Hd as [Hd|Hd]; [left; auto|now right].
Qed.

Lemma agree_drop_columns D names a b :
  (forall n, In n D -> In n names) ->
  agree D a b -> drop_columns names a = drop_columns names b.
Proof.
  intros HD [Hn H]. unfold drop_columns. rewrite Hn. f_equal.
  induction H as [|[m x] [m' x'] l l' [E Hd] _ IH]; simpl; [reflexivity|].
  simpl in E, Hd. subst m'.
  destruct (mem m names) eqn:Em; simpl; [exact IH|].
  destruct Hd as [Hd|Hd].
  - apply HD, mem_In in Hd. congruence.
  - now rewrite Hd, IH.
Qed.

Lemma In_by_mem n l : mem n l = true -> In n l.
Proof. apply mem_In. Qed.

Lemma dropped_binary_cols_spec c :
  In c dropped_binary_cols ->
  In c binary_cols /\ In c unwanted_cols
  /\ rename_col c = c /\ rename_free c
  /\ ~ In c expected_numeric_cols
  /\ c <> "latitude" /\ c <> "longitude" /\ c <> "city" /\ c <> "provstate".
Proof.
  intros H. unfold dropped_binary_cols in H. cbn [In] in H.
  destruct H as [<-|[<-|[<-|[<-|[<-|[]]]]]];
    (split; [apply In_by_mem; reflexivity|]);
    (split; [apply In_by_mem; reflexivity|]);
    (split; [reflexivity|]);
    (split; [apply rename_free_intro; reflexivity|]);
    (split; [apply mem_not_In; reflexivity|]);
    repeat split; discriminate.
Qed.

(** C10: five of the nine binary columns never reach the exported file.
    INT_ANY, INT_MISC, INT_IDEO, INT_LOG and vicinity are in the list of
    the binary coercion and in the explicit drop list; whenever a run
    reaches the export, none of them is in the header of the exported
    table, whatever they held, and a run that coerces only the other four
    binary columns (claimed, ishostkid, property, doubtterr) reaches the
    export too and writes the very same table. *)
Theorem C10_dropped_binary_cols_unobservable (t : DataFrame) (w : world) :
  run t = Ok w ->
  exists out,
    cleaned_file w = Some out
    /\ (forall c, In c dropped_binary_cols ->
          In c binary_cols /\ In c unwanted_cols /\ ~ In c (header out))
    /\ exists w',
         exec (script_with kept_binary_cols) (loaded t) = Ok w'
         /\ cleaned_file w' = Some out.
Proof.
  intros H.
  destruct (run_spec _ H)
    as (t3 & lat & lon & t7 & t9 & out & o & f & Et3 & HF & E1 & E2 & Hcity
        & Hprov & Et7 & Et9 & Eout & _ & ->).
  exists out.
  split; [apply cleaned_file_last|].
  split.
  { intros c Hc. destruct (dropped_binary_cols_spec Hc) as [Hb [Hu _]].
    split; [exact Hb|]. split; [exact Hu|].
    rewrite Eout, Et9. unfold thinned, pruned.
    rewrite !header_drop_columns. tauto. }
  set (D := dropped_binary_cols).
  remember (coerced kept_binary_cols (normalized t)) as t3' eqn:Et3'.
  assert (A3 : agree D t3 t3').
  { rewrite Et3, Et3'. unfold coerced.
    replace kept_binary_cols
      with (filter (fun c => negb (mem c D)) binary_cols) by reflexivity.
    apply agree_upd_all_filter, agree_refl. }
  assert (HnD : forall n, mem n D = false -> ~ In n D)
    by (intros n; apply mem_not_In).
  assert (E1' : get_col "latitude" t3' = Some lat).
  { rewrite <- (@agree_get_col D "latitude" t3 t3' A3); [exact E1|].
    now apply HnD. }
  assert (E2' : get_col "longitude" t3' = Some lon).
  { rewrite <- (@agree_get_col D "longitude" t3 t3' A3); [exact E2|].
    now apply HnD. }
  assert (HF' : Forall (fun c => In c (header t)) kept_binary_cols).
  { rewrite Forall_forall in *. intros c Hc. apply HF.
    revert Hc. unfold kept_binary_cols, binary_cols. cbn [In]. tauto. }
  rewrite Et3' in E1', E2'.
  destruct (@cleaning_run kept_binary_cols (loaded t) lat lon
              HF' E1' E2' Hcity Hprov) as [o' [f' Hrun]].
  cbn [df loaded] in Hrun. rewrite <- Et3' in Hrun.
  pose proof (@script_with_run kept_binary_cols _ _ Hrun) as Hs.
  cbv zeta in Hs. unfold after in Hs.
  cbn [df initial_rows stdout disk] in Hs.
  eexists. split; [apply exec_unit; exact Hs|].
  rewrite cleaned_file_last. f_equal.
  rewrite Eout, Et9, Et7. symmetry. f_equal.
  unfold pruned. apply (@agree_drop_columns D).
  { intros n Hn. now destruct (dropped_binary_cols_spec Hn) as [_ [Hu _]]. }
  apply agree_rename.
  { intros n Hn.
    destruct (dropped_binary_cols_spec Hn) as [_ [_ [-> _]]]. exact Hn. }
  unfold coerced. apply agree_upd_all_both.
  { intros c Hc HcD.
    now destruct (dropped_binary_cols_spec HcD) as [_ [_ [_ [_ [He _]]]]]. }
  unfold filled.
  apply agree_upd_both; [now apply HnD|].
  apply agree_upd_both; [now apply HnD|].
  unfold filtered. destruct A3 as [N3 A3']. rewrite N3.
  apply agree_boolean_index. now split.
Qed.

(* ================================================================== *)
(** ** When the script raises, and with which key *)

Lemma bind_raise A B (m : M A) (k : A -> M B) w c :
  m w = KeyError c -> bind m k w = KeyError c.
Proof. unfold bind. now intros ->. Qed.

Lemma first_missing_none names t :
  first_missing names t = None <-> Forall (fun c => In c (header t)) names.
Proof.
  unfold first_missing. induction names as [|x names IH]; simpl.
  - split; [constructor | reflexivity].
  - destruct (mem x (header t)) eqn:E; simpl.
    + rewrite IH. apply mem_In in E. split.
      * intros H. now constructor.
      * intros H. now inversion H.
    + split; [discriminate|]. intros H. inversion H as [|? ? Hx _]; subst.
      apply mem_In in Hx. congruence.
Qed.

Lemma first_missing_same_header names t t' :
  header t' = header t -> first_missing names t' = first_missing names t.
Proof. unfold first_missing. now intros ->. Qed.

Lemma first_missing_app names names' t :
  first_missing (names ++ names') t
  = match first_missing names t with
    | Some c => Some c
    | None => first_missing names' t
    end.
Proof.
  unfold first_missing. induction names as [|x names IH]; simpl; [reflexivity|].
  now destruct (negb (mem x (header t))).
Qed.

Lemma get_col_absent c t : mem c (header t) = false -> get_col c t = None.
Proof.
  intros H. apply mem_not_In in H.
  destruct (get_col c t) as [v|] eqn:E; [|reflexivity].
  exfalso. apply H, get_col_header. congruence.
Qed.

(** A loop of column updates raises at the first name that is no
    column. *)
Lemma for_each_apply_raise names f w c :
  first_missing names (df w) = Some c ->
  for_each names (fun x => apply_col x f) w = KeyError c.
Proof.
  unfold first_missing. revert w.
  induction names as [|x names IH]; intros w H; simpl in H; [discriminate|].
  simpl. destruct (mem x (header (df w))) eqn:E; simpl in H.
  - apply mem_In in E.
    rewrite (bind_run _ _ _ (apply_col_upd _ f _ E)).
    apply IH. unfold with_df. cbn [df]. now rewrite header_upd.
  - injection H as <-. apply bind_raise, apply_col_raise.
    now apply get_col_absent.
Qed.

Lemma getitem_raise c w :
  mem c (header (df w)) = false -> getitem c w = KeyError c.
Proof.
  intros H. unfold getitem. now rewrite (get_col_absent _ _ H).
Qed.

Lemma drop_missing_latlon_raise w c :
  first_missing ["latitude"; "longitude"] (df w) = Some c ->
  drop_missing_latlon w = KeyError c.
Proof.
  unfold first_missing. cbn [find].
  destruct (mem "latitude" (header (df w))) eqn:E1; cbn [negb].
  - destruct (mem "longitude" (header (df w))) eqn:E2; cbn [negb];
      [discriminate|].
    intros [= <-]. destruct (get_col_mem _ _ E1) as [lat El].
    unfold drop_missing_latlon.
    rewrite (bind_run _ _ _ (getitem_run _ _ El)).
    apply bind_raise, getitem_raise, E2.
  - intros [= <-]. unfold drop_missing_latlon.
    apply bind_raise, getitem_raise, E1.
Qed.

Lemma fill_common_raise w c :
  first_missing ["city"; "provstate"] (df w) = Some c ->
  fill_common w = KeyError c.
Proof.
  unfold first_missing. cbn [find].
  destruct (mem "city" (header (df w))) eqn:E1; cbn [negb].
  - destruct (mem "provstate" (header (df w))) eqn:E2; cbn [negb];
      [discriminate|].
    intros [= <-]. apply mem_In in E1.
    unfold fill_common, fill_unknown.
    rewrite (bind_run _ _ _ (apply_col_upd _ _ _ E1)).
    apply apply_col_raise, get_col_absent.
    unfold with_df. cbn [df]. now rewrite header_upd.
  - intros [= <-]. unfold fill_common, fill_unknown.
    apply bind_raise, apply_col_raise. now apply get_col_absent.
Qed.

(** Lines 9-78 raise at the first required column that is absent. *)
Lemma cleaning_raise t c :
  first_missing required_cols t = Some c ->
  cleaning binary_cols (loaded t) = KeyError c.
Proof.
  unfold required_cols.
  change (binary_cols ++ ["latitude"; "longitude"; "city"; "provstate"])
    with (binary_cols ++ ["latitude"; "longitude"] ++ ["city"; "provstate"]).
  rewrite !first_missing_app. intros H.
  rewrite cleaning_split.
  destruct (first_missing binary_cols t) as [c1|] eqn:E1.
  - injection H as ->. apply bind_raise.
    rewrite (bind_run _ _ _ (track_initial_rows_run _)).
    rewrite (bind_run _ _ _ (text_normalization_run _)).
    unfold clean_binary, coerce_col.
    apply for_each_apply_raise.
    unfold with_df. cbn [df loaded].
    erewrite first_missing_same_header; [exact E1|].
    now rewrite header_replace_frame, header_upd_all.
  - apply first_missing_none in E1.
    rewrite (bind_run _ _ _ (@before_filter_with_run binary_cols (loaded t) E1)).
    cbn [df loaded].
    set (t3 := coerced binary_cols (normalized t)) in *.
    assert (H3 : header t3 = header t)
      by (unfold t3; now rewrite header_coerced, header_normalized).
    destruct (first_missing ["latitude"; "longitude"] t) as [c2|] eqn:E2.
    + injection H as ->. apply bind_raise, drop_missing_latlon_raise.
      cbn [df]. erewrite first_missing_same_header; [exact E2 | exact H3].
    + pose proof E2 as E2'. apply first_missing_none in E2'.
      inversion E2' as [|? ? Hlat Hr]; subst.
      inversion Hr as [|? ? Hlon _]; subst.
      rewrite <- H3 in Hlat, Hlon.
      apply mem_In in Hlat, Hlon.
      destruct (get_col_mem _ _ Hlat) as [lat El].
      destruct (get_col_mem _ _ Hlon) as [lon Eo].
      erewrite bind_run.
      2:{ apply (@drop_missing_latlon_run _ lat lon); cbn [df]; assumption. }
      apply bind_raise, fill_common_raise.
      unfold after. cbn [df].
      erewrite first_missing_same_header; [exact H|].
      now rewrite header_boolean_index.
Qed.

(** X1: which [KeyError] the script raises.  The script reads thirteen
    columns without a membership test - the nine binary columns, then
    latitude and longitude, then city and provstate.  When one of them is
    no column of the loaded frame, the run ends in the [KeyError] of the
    first absent one in that order. *)
Theorem X1_run_raises_first_missing (t : DataFrame) (c : string) :
  first_missing required_cols t = Some c ->
  run t = KeyError c.
Proof.
  intros H. unfold run, script, script_with, exec.
  now rewrite (bind_raise _ _ _ (cleaning_raise t H)).
Qed.

(** X2: the thirteen required columns are all the script needs.  On a
    loaded frame the run reaches the export exactly when the nine binary
    columns, latitude, longitude, city and provstate are all present;
    no cell content can make it raise. *)
Theorem X2_run_succeeds_iff_required_present (t : DataFrame) :
  (exists w, run t = Ok w)
  <-> Forall (fun c => In c (header t)) required_cols.
Proof.
  split.
  - intros [w H]. apply first_missing_none.
    destruct (first_missing required_cols t) as [c|] eqn:E; [|reflexivity].
    unfold run, script, script_with, exec in H.
    rewrite (bind_raise _ _ _ (cleaning_raise t E)) in H. discriminate.
  - intros HF. unfold required_cols in HF.
    apply Forall_app in HF. destruct HF as [HB HR].
    inversion HR as [|? ? Hlat HR1]; subst.
    inversion HR1 as [|? ? Hlon HR2]; subst.
    inversion HR2 as [|? ? Hcity HR3]; subst.
    inversion HR3 as [|? ? Hprov _]; subst.
    assert (H3 : header (coerced binary_cols (normalized t)) = header t)
      by now rewrite header_coerced, header_normalized.
    rewrite <- H3 in Hlat, Hlon. apply mem_In in Hlat, Hlon.
    destruct (get_col_mem _ _ Hlat) as [lat El].
    destruct (get_col_mem _ _ Hlon) as [lon Eo].
    destruct (@cleaning_run binary_cols (loaded t) lat lon HB El Eo Hcity Hprov)
      as [o [f Hrun]].
    pose proof (@script_with_run binary_cols _ _ Hrun) as Hs.
    cbv zeta in Hs. eexists. unfold run, script. apply exec_unit. exact Hs.
Qed.

(* ================================================================== *)
(** ** The exported header *)

Lemma header_rename t : header (rename t) = map rename_col (header t).
Proof. unfold header, rename. cbn [cols]. now rewrite !map_map. Qed.

Lemma header_drop_columns_filter names t :
  header (drop_columns names t)
  = filter (fun n => negb (mem n names)) (header t).
Proof.
  unfold header, drop_columns. cbn [cols].
  induction (cols t) as [|[m x] l IH]; simpl; [reflexivity|].
  destruct (mem m names); simpl; now rewrite IH.
Qed.

Lemma filter_filter A (p q : A -> bool) l :
  filter q (filter p l) = filter (fun x => p x && q x) l.
Proof.
  induction l as [|x l IH]; simpl; [reflexivity|].
  destruct (p x); simpl; [destruct (q x); now rewrite IH | exact IH].
Qed.

Lemma header_before_pruning lat lon t :
  header (coerced expected_numeric_cols
            (filled (filtered lat lon (coerced binary_cols (normalized t)))))
  = header t.
Proof.
  now rewrite header_coerced, header_filled, header_filtered, header_coerced,
    header_normalized.
Qed.

Lemma exported_header lat lon t :
  let t9 := pruned (coerced expected_numeric_cols
                      (filled (filtered lat lon
                                 (coerced binary_cols (normalized t))))) in
  header (thinned t9)
  = filter (fun n => negb (mem n unwanted_cols)
                     && negb (mem n (sparse_cols t9)))
           (map rename_col (header t)).
Proof.
  intros t9. unfold thinned. rewrite header_drop_columns_filter.
  unfold t9 at 2. unfold pruned.
  rewrite header_drop_columns_filter, header_rename, header_before_pruning.
  apply filter_filter.
Qed.

(** X3: the exported header is the input header, renamed and thinned, in
    the input order.  The script never adds a column and never reorders:
    the header of the exported table is the header of the loaded frame
    with the rename map applied, minus the names of the explicit drop list
    and minus the names reported as sparse. *)
Theorem X3_exported_header (t : DataFrame) (w : world) :
  run t = Ok w ->
  exists out sparse,
    cleaned_file w = Some out
    /\ In (DroppingSparse sparse) (stdout w)
    /\ header out
       = filter (fun n => negb (mem n unwanted_cols) && negb (mem n sparse))
                (map rename_col (header t)).
Proof.
  intros H.
  destruct (run_spec _ H)
    as (t3 & lat & lon & t7 & t9 & out & o & f & Et3 & _ & _ & _ & _ & _
        & Et7 & Et9 & Eout & _ & ->).
  exists out, (sparse_cols t9).
  split; [apply cleaned_file_last|].
  split.
  { cbn [stdout]. right. right. apply in_or_app. right. now left. }
  rewrite Eout, Et9, Et7, Et3. apply exported_header.
Qed.

Lemma rename_col_not_key n k :
  In k (map fst rename_map) -> rename_col n <> k.
Proof.
  intros Hk E. unfold rename_col in E.
  destruct (lookup n rename_map) as [x|] eqn:L.
  - subst x. apply lookup_In in L. apply (in_map snd) in L. cbn [snd] in L.
    revert Hk L. clear. unfold rename_map. cbn [map fst snd In].
    intros Hk L.
    repeat (destruct Hk as [<-|Hk];
            [repeat (destruct L as [L|L]; [discriminate L|]); exact L|]).
    exact Hk.
  - subst n. revert Hk L. clear. unfold rename_map. cbn [map fst In].
    intros Hk.
    repeat (destruct Hk as [<-|Hk]; [cbn; discriminate|]).
    destruct Hk.
Qed.

(** X4: the raw field codes do not survive.  None of the nine names the
    rename map renames (iyear, imonth, iday, nkill, nwound, nkillus,
    nwoundus, nkillter, nwoundte) is a column name of the exported table,
    whatever the input held. *)
Theorem X4_raw_codes_not_exported (t : DataFrame) (w : world) :
  run t = Ok w ->
  exists out,
    cleaned_file w = Some out
    /\ forall k, In k (map fst rename_map) -> ~ In k (header out).
Proof.
  intros H.
  destruct (run_spec _ H)
    as (t3 & lat & lon & t7 & t9 & out & o & f & _ & _ & _ & _ & _ & _
        & _ & Et9 & Eout & _ & ->).
  exists out. split; [apply cleaned_file_last|].
  intros k Hk Hin. rewrite Eout, Et9 in Hin. unfold thinned, pruned in Hin.
  apply header_drop_columns in Hin. destruct Hin as [Hin _].
  apply header_drop_columns in Hin. destruct Hin as [Hin _].
  rewrite header_rename in Hin. apply in_map_iff in Hin.
  destruct Hin as [n [E _]]. exact (rename_col_not_key n Hk E).
Qed.

(* ================================================================== *)
(** ** The default fill *)

Lemma fillna_notna x v : isna x = false -> isna (fillna x v) = false.
Proof. intros H. now destruct v. Qed.

Lemma map_fillna_notna x v :
  isna x = false -> Forall (fun y => isna y = false) (map (fillna x) v).
Proof.
  intros H. apply Forall_forall. intros y Hy. apply in_map_iff in Hy.
  destruct Hy as [z [<- _]]. now apply fillna_notna.
Qed.

Lemma get_col_filled_city t :
  get_col "city" (filled t)
  = option_map (map (fillna (Str "unknown"))) (get_col "city" t).
Proof. unfold filled. rewrite !get_col_upd. reflexivity. Qed.

Lemma get_col_filled_provstate t :
  get_col "provstate" (filled t)
  = option_map (map (fillna (Str "unknown"))) (get_col "provstate" t).
Proof. unfold filled. rewrite !get_col_upd. reflexivity. Qed.

(** X5: city and provstate are complete in the export.  On a loaded
    frame (unique column names) a run that reaches the export writes a
    table that has both columns, and no cell of either is missing: the
    default fill closes every gap, and no later statement opens one or
    drops the two columns. *)
Theorem X5_city_provstate_complete (t : DataFrame) (w : world) :
  NoDup (header t) ->
  run t = Ok w ->
  exists out city provstate,
    cleaned_file w = Some out
    /\ get_col "city" out = Some city
    /\ get_col "provstate" out = Some provstate
    /\ Forall (fun x => isna x = false) city
    /\ Forall (fun x => isna x = false) provstate.
Proof.
  intros Hnd H.
  destruct (run_spec _ H)
    as (t3 & lat & lon & t7 & t9 & out & o & f & Et3 & _ & _ & _ & Hc & Hp
        & Et7 & Et9 & Eout & _ & ->).
  assert (Hh4 : header (filtered lat lon t3) = header t)
    by (rewrite header_filtered, Et3, header_coerced; apply header_normalized).
  assert (Hnd7 : NoDup (header t7))
    by (rewrite Et7, header_coerced, header_filled, Hh4; exact Hnd).
  rewrite <- Hh4 in Hc, Hp. apply mem_In in Hc, Hp.
  destruct (get_col_mem _ _ Hc) as [vc Ec].
  destruct (get_col_mem _ _ Hp) as [vp Ep].
  assert (G1 : get_col "city" t7
               = Some (map (fillna (Str "unknown")) vc)).
  { rewrite Et7. unfold coerced.
    rewrite get_col_upd_all_other by (apply mem_not_In; reflexivity).
    now rewrite get_col_filled_city, Ec. }
  assert (G2 : get_col "provstate" t7
               = Some (map (fillna (Str "unknown")) vp)).
  { rewrite Et7. unfold coerced.
    rewrite get_col_upd_all_other by (apply mem_not_In; reflexivity).
    now rewrite get_col_filled_provstate, Ep. }
  exists out, (map (fillna (Str "unknown")) vc),
         (map (fillna (Str "unknown")) vp).
  split; [apply cleaned_file_last|].
  split.
  { rewrite Eout, Et9.
    apply get_col_thinned_pruned;
      [exact Hnd7 | reflexivity | reflexivity | reflexivity | exact G1
       | now apply map_fillna_notna]. }
  split.
  { rewrite Eout, Et9.
    apply get_col_thinned_pruned;
      [exact Hnd7 | reflexivity | reflexivity | reflexivity | exact G2
       | now apply map_fillna_notna]. }
  split; now apply map_fillna_notna.
Qed.

(* ================================================================== *)
(** ** A run on the exported table *)

(** X6: the script cannot be run on its own export.  The explicit drop
    removes columns that the binary coercion requires, so on any frame
    that has the header of an exported table the run ends in the
    [KeyError] of a binary column. *)
Theorem X6_rerun_on_export_raises (t : DataFrame) (w : world) :
  run t = Ok w ->
  exists out,
    cleaned_file w = Some out
    /\ forall t' : DataFrame, header t' = header out ->
         exists c, In c binary_cols /\ run t' = KeyError c.
Proof.
  intros H.
  destruct (run_spec _ H)
    as (t3 & lat & lon & t7 & t9 & out & o & f & _ & _ & _ & _ & _ & _
        & _ & Et9 & Eout & _ & ->).
  exists out. split; [apply cleaned_file_last|].
  intros t' Hh.
  assert (Habs : ~ In "INT_ANY" (header t')).
  { rewrite Hh, Eout, Et9. unfold thinned, pruned.
    rewrite !header_drop_columns. intros [[_ Hu] _]. apply Hu.
    apply mem_In. reflexivity. }
  destruct (first_missing binary_cols t') as [c|] eqn:E.
  - exists c. split.
    + unfold first_missing in E. apply find_some in E. tauto.
    + assert (Er : first_missing required_cols t' = Some c)
        by (unfold required_cols; now rewrite first_missing_app, E).
      unfold run, script, script_with, exec.
      now rewrite (bind_raise _ _ _ (cleaning_raise t' Er)).
  - exfalso. apply Habs. apply first_missing_none in E.
    rewrite Forall_forall in E. apply E. apply mem_In. reflexivity.
Qed.

(* ================================================================== *)
(** ** The shape of the exported table *)

(** X7: the exported table is rectangular.  If every column of the
    loaded frame has one cell per row, so has every column of the table
    the run exports: the row filter cuts all columns with the same mask,
    and every other statement keeps the length of the columns it
    touches. *)
Theorem X7_export_is_rectangular (t : DataFrame) (w : world) :
  rectangular t ->
  run t = Ok w ->
  exists out, cleaned_file w = Some out /\ rectangular out.
Proof.
  intros Hr H.
  destruct (run_spec _ H)
    as (t3 & lat & lon & t7 & t9 & out & o & f & Et3 & _ & _ & _ & _ & _
        & Et7 & Et9 & Eout & _ & ->).
  exists out. split; [apply cleaned_file_last|].
  rewrite Eout, Et9, Et7, Et3.
  unfold thinned, pruned, coerced, filled, filtered, normalized.
  apply rectangular_drop_columns, rectangular_drop_columns, rectangular_rename.
  apply rectangular_upd_all; [intros v; apply length_map|].
  apply rectangular_upd; [intros v; apply length_map|].
  apply rectangular_upd; [intros v; apply length_map|].
  apply rectangular_boolean_index; [apply length_keep_mask_le|].
  apply rectangular_upd_all; [intros v; apply length_map|].
  apply rectangular_replace_frame.
  apply rectangular_upd_all; [apply length_normalize_cells | exact Hr].
Qed.

Lemma NoDup_map_on A B (f : A -> B) l :
  (forall x y, In x l -> In y l -> f x = f y -> x = y) ->
  NoDup l -> NoDup (map f l).
Proof.
  intros Hinj H. induction H as [|a l Ha Hl IH]; simpl; constructor.
  - intros Hin. apply in_map_iff in Hin. destruct Hin as [b [E Hb]].
    apply Ha. assert (b = a) by (apply Hinj; simpl; auto). now subst.
  - apply IH. intros x y Hx Hy. apply Hinj; now right.
Qed.

Lemma rename_map_targets_distinct a b x :
  In (a, x) rename_map -> In (b, x) rename_map -> a = b.
Proof.
  unfold rename_map. cbn [In]. intros Ha Hb.
  repeat (destruct Ha as [Ha|Ha];
          [injection Ha as <- <-;
           repeat (destruct Hb as [Hb|Hb];
                   [first [injection Hb as <-; reflexivity | discriminate Hb]|]);
           destruct Hb|]).
  destruct Ha.
Qed.

Lemma lookup_none_rename_col n :
  lookup n rename_map = None -> rename_col n = n.
Proof. unfold rename_col. now intros ->. Qed.

Lemma rename_col_injective_on t :
  rename_collision_free t ->
  forall a b, In a (header t) -> In b (header t) ->
              rename_col a = rename_col b -> a = b.
Proof.
  intros Hfree a b Ha Hb E. unfold rename_col in E.
  destruct (lookup a rename_map) as [x|] eqn:La;
    destruct (lookup b rename_map) as [y|] eqn:Lb.
  - subst y. apply lookup_In in La, Lb.
    exact (rename_map_targets_distinct La Lb).
  - subst x. apply lookup_In in La. exfalso.
    exact (Hfree a b La Ha Hb).
  - subst y. apply lookup_In in Lb. exfalso.
    exact (Hfree b a Lb Hb Ha).
  - exact E.
Qed.

(** X8: when renaming cannot collide, the exported column names are
    unique.  If the loaded frame has unique column names and holds no
    column that already bears the new name of another of its columns
    (num_killed beside nkill, say), then no name occurs twice in the
    header of the exported table. *)
Theorem X8_export_header_unique (t : DataFrame) (w : world) :
  NoDup (header t) ->
  rename_collision_free t ->
  run t = Ok w ->
  exists out, cleaned_file w = Some out /\ NoDup (header out).
Proof.
  intros Hnd Hfree H.
  destruct (run_spec _ H)
    as (t3 & lat & lon & t7 & t9 & out & o & f & Et3 & _ & _ & _ & _ & _
        & Et7 & Et9 & Eout & _ & ->).
  exists out. split; [apply cleaned_file_last|].
  rewrite Eout, Et9, Et7, Et3.
  rewrite (exported_header lat lon t).
  apply NoDup_filter, NoDup_map_on; [|exact Hnd].
  now apply rename_col_injective_on.
Qed.

(* ================================================================== *)
(** ** The quarantine files *)

Lemma check_numeric_files c w :
  exists out files,
    check_numeric c w
    = Ok (tt, after w (upd c (map to_numeric) (df w)) out files)
    /\ length files <= 1
    /\ Forall (quarantine_of [c] (df w)) files.
Proof.
  destruct (get_col c (df w)) as [v|] eqn:E.
  - pose proof (check_numeric_present _ _ E) as Hrun. cbv zeta in Hrun.
    destruct (empty (boolean_index (invalid_mask v) (df w))) eqn:Eb.
    + exists [], []. split; [exact Hrun|]. split; [simpl; lia | constructor].
    + eexists. eexists. split; [exact Hrun|]. split; [simpl; lia|].
      constructor; [|constructor].
      exists c, v, (df w). cbn [fst snd].
      repeat split; try reflexivity; try assumption. now left.
  - exists [], []. rewrite (check_numeric_absent _ _ E).
    rewrite (upd_absent _ _ _ E), after_nil.
    split; [reflexivity|]. split; [simpl; lia | constructor].
Qed.

Lemma quarantine_of_later x names t0 pf :
  ~ In x names ->
  quarantine_of names (upd x (map to_numeric) t0) pf ->
  quarantine_of (x :: names) t0 pf.
Proof.
  intros Hx (c & v & t' & Hc & Hp & Hh & Hn & Ec & E0 & Hf & He).
  exists c, v, t'. rewrite header_upd in Hh.
  rewrite get_col_upd in E0.
  destruct (String.eqb_spec x c) as [->|Hne]; [contradiction|].
  repeat split; try assumption. now right.
Qed.

Lemma quarantine_of_first x names t0 pf :
  quarantine_of [x] t0 pf -> quarantine_of (x :: names) t0 pf.
Proof.
  intros (c & v & t' & Hc & H). exists c, v, t'.
  split; [|exact H]. destruct Hc as [<-|[]]. now left.
Qed.

(** The loop of the numeric check, with the files it writes. *)
Lemma check_numeric_loop names w :
  NoDup names ->
  exists out files,
    for_each names check_numeric w
    = Ok (tt, after w (upd_all names (map to_numeric) (df w)) out files)
    /\ length files <= length names
    /\ Forall (quarantine_of names (df w)) files.
Proof.
  revert w. induction names as [|x names IH]; intros w Hnd.
  - exists [], []. simpl. rewrite after_nil.
    split; [reflexivity|]. split; [lia | constructor].
  - inversion Hnd as [|? ? Hx Hnd']; subst.
    destruct (check_numeric_files x w) as (o1 & f1 & E1 & L1 & Q1).
    destruct (IH (after w (upd x (map to_numeric) (df w)) o1 f1) Hnd')
      as (o2 & f2 & E2 & L2 & Q2).
    exists (o1 ++ o2), (f1 ++ f2).
    split.
    { simpl. rewrite (bind_run _ _ _ E1), E2, after_after. reflexivity. }
    split; [rewrite length_app; simpl; lia|].
    apply Forall_app. split.
    + eapply Forall_impl; [|exact Q1]. intros pf. apply quarantine_of_first.
    + eapply Forall_impl; [|exact Q2]. intros pf.
      unfold after. cbn [df]. now apply quarantine_of_later.
Qed.

(** Lines 9-78 again, now with the files they write. *)
Lemma cleaning_files w0 w7 :
  cleaning binary_cols w0 = Ok (tt, w7) ->
  exists lat lon files,
    let t3 := coerced binary_cols (normalized (df w0)) in
    get_col "latitude" t3 = Some lat
    /\ get_col "longitude" t3 = Some lon
    /\ disk w7 = disk w0 ++ files
    /\ length files <= length expected_numeric_cols
    /\ Forall (quarantine_of expected_numeric_cols
                 (filled (filtered lat lon t3))) files.
Proof.
  rewrite cleaning_split. intros H.
  apply bind_ok in H. destruct H as [[] [w3 [H3 H]]].
  apply before_filter_with_inv in H3. destruct H3 as [HF ->].
  apply bind_ok in H. destruct H as [[] [w4 [H4 H]]].
  apply drop_missing_latlon_inv in H4.
  cbn [df initial_rows stdout disk] in H4.
  destruct H4 as [lat [lon [E1 [E2 ->]]]].
  apply bind_ok in H. destruct H as [[] [w5 [H5 H]]].
  apply fill_common_inv in H5.
  unfold after in H5, H. cbn [df initial_rows stdout disk] in H5, H.
  destruct H5 as [_ [_ ->]].
  apply bind_ok in H. destruct H as [[] [w6 [H6 H]]].
  match type of H6 with
  | alignment_checks ?w = _ =>
      destruct (alignment_checks_run w) as [o1 E6]
  end.
  rewrite E6 in H6. apply Ok_inj in H6. subst w6.
  unfold type_integrity in H.
  match type of H with
  | for_each _ _ ?w = _ =>
      destruct (check_numeric_loop w NoDup_expected_numeric_cols)
        as (o2 & f2 & E7 & L7 & Q7)
  end.
  rewrite E7 in H. apply Ok_inj in H. subst w7.
  exists lat, lon, f2. cbv zeta.
  split; [exact E1|]. split; [exact E2|].
  unfold after, with_df in *. cbn [df initial_rows stdout disk] in *.
  split; [now rewrite !app_nil_r|].
  split; [exact L7 | exact Q7].
Qed.

Lemma header_before_check lat lon t :
  header (filled (filtered lat lon (coerced binary_cols (normalized t))))
  = header t.
Proof.
  now rewrite header_filled, header_filtered, header_coerced,
    header_normalized.
Qed.

Lemma Forall_filter_true A (p : A -> bool) l :
  Forall (fun x => p x = true) (filter p l).
Proof. apply Forall_forall. intros x Hx. now apply filter_In in Hx. Qed.

(** What a quarantine file looks like, seen from the frame the check
    started on. *)
Lemma quarantine_of_shape names t0 pf :
  quarantine_of names t0 pf ->
  exists c v,
    In c names
    /\ In c (header t0)
    /\ fst pf = bad_file c
    /\ header (snd pf) = header t0
    /\ get_col c t0 = Some v
    /\ get_col c (snd pf) = Some (filter unparseable v)
    /\ nrows (snd pf) = length (filter unparseable v)
    /\ 0 < length (filter unparseable v).
Proof.
  intros (c & v & t' & Hc & Hp & Hh & Hn & Ec & E0 & Hf & He).
  exists c, v.
  split; [exact Hc|].
  split; [apply get_col_header; congruence|].
  split; [exact Hp|].
  assert (Hrows : nrows (snd pf) = length (filter unparseable v)).
  { rewrite Hf. unfold boolean_index. cbn [nrows].
    now rewrite invalid_mask_map, count_true_map. }
  split; [now rewrite Hf, header_boolean_index|].
  split; [exact E0|].
  split.
  { rewrite Hf, get_col_boolean_index, Ec, invalid_mask_map.
    cbn [option_map]. now rewrite select_map_filter. }
  split; [exact Hrows|].
  unfold empty in He. apply orb_false_iff in He. destruct He as [He _].
  apply Nat.eqb_neq in He. lia.
Qed.

(** X9: what the run writes to disk.  A run that reaches the export
    writes the cleaned table last, and before it at most sixteen
    quarantine files.  Each of them is named after a column of the
    numeric-check list that is a column of the input, has the full header
    of the input, has at least one row, and in the column it is named
    after every cell is present and fails to parse. *)
Theorem X9_files_written (t : DataFrame) (w : world) :
  run t = Ok w ->
  exists files out,
    disk w = files ++ [(output_path, out)]
    /\ cleaned_file w = Some out
    /\ length files <= 16
    /\ forall p file, In (p, file) files ->
         exists c v,
           In c expected_numeric_cols
           /\ In c (header t)
           /\ p = bad_file c
           /\ header file = header t
           /\ get_col c file = Some v
           /\ nrows file = length v
           /\ 0 < length v
           /\ Forall (fun x => unparseable x = true) v.
Proof.
  intros H. apply run_inv in H. destruct H as [w7 [H7 Hw]].
  cbv zeta in Hw.
  destruct (cleaning_files _ H7) as (lat & lon & files & _ & _ & Hd & Hl & Hq).
  cbv zeta in Hq. cbn [df disk loaded] in Hd, Hq. rewrite app_nil_l in Hd.
  exists files, (thinned (pruned (df w7))).
  split; [rewrite Hw; unfold after; cbn [disk]; now rewrite Hd|].
  split; [rewrite Hw; apply cleaned_file_after|].
  split; [exact Hl|].
  intros p file Hin. rewrite Forall_forall in Hq.
  destruct (quarantine_of_shape (Hq _ Hin))
    as (c & v & Hc & Hh & Hp & Hhf & _ & Ec & Hn & Hpos).
  cbn [fst snd] in *. rewrite header_before_check in Hh, Hhf.
  exists c, (filter unparseable v).
  repeat split; try assumption. apply Forall_filter_true.
Qed.

Lemma In_select x mask (v : column) : In x (select mask v) -> In x v.
Proof.
  revert v. induction mask as [|b m IH]; intros v H; simpl in H; [contradiction|].
  destruct v as [|y v]; [contradiction|].
  destruct b.
  - destruct H as [->|H]; [now left | right; auto].
  - right. auto.
Qed.

Lemma unparseable_text x :
  unparseable x = true -> exists s, x = Str s /\ parse_numeric s = None.
Proof.
  unfold unparseable. destruct x as [|y|s]; simpl; try discriminate.
  destruct (parse_numeric s) eqn:E; [discriminate|]. now exists s.
Qed.

Lemma normalized_text_not_placeholder y s :
  replace_nan ["<na>"; "nan"] (normalize_cell y) = Str s ->
  ~ In s ("<na>" :: placeholder_vals).
Proof.
  unfold normalize_cell.
  assert (Ht : exists u, str_strip (str_lower (astype_str y)) = Str u)
    by (destruct y; simpl; eexists; reflexivity).
  destruct Ht as [u ->]. unfold replace_nan at 2.
  destruct (mem u placeholder_vals) eqn:Ep; [discriminate|].
  unfold replace_nan.
  destruct (mem u ["<na>"; "nan"]) eqn:En; [discriminate|].
  intros [= <-]. apply mem_not_In in Ep, En.
  intros [E|Hin]; [|contradiction].
  apply En. left. exact E.
Qed.

Lemma replace_nan_not_text tokens x :
  is_str x = false -> replace_nan tokens x = x.
Proof. now destruct x. Qed.

Lemma not_object_no_text v x :
  is_object v = false -> In x v -> is_str x = false.
Proof.
  unfold is_object. intros H Hx.
  destruct (is_str x) eqn:E; [|reflexivity].
  assert (existsb is_str v = true) by (apply existsb_exists; now exists x).
  congruence.
Qed.

Lemma expected_not_touched_before c :
  In c expected_numeric_cols ->
  ~ In c binary_cols
  /\ String.eqb "city" c = false /\ String.eqb "provstate" c = false.
Proof.
  unfold expected_numeric_cols. cbn [In]. intros H.
  repeat (destruct H as [<-|H];
          [split; [apply mem_not_In; reflexivity | split; reflexivity]|]).
  destruct H.
Qed.

(** A checked column, as the numeric check finds it: a selection of rows
    of the column that text normalization left. *)
Lemma get_col_before_check c lat lon t v :
  In c expected_numeric_cols ->
  get_col c (filled (filtered lat lon (coerced binary_cols (normalized t))))
  = Some v ->
  exists v3, get_col c (normalized t) = Some v3
             /\ forall x, In x v -> In x v3.
Proof.
  intros Hc E. destruct (expected_not_touched_before Hc) as (Hb & Hci & Hpr).
  rewrite get_col_filled in E by assumption.
  unfold filtered in E. rewrite get_col_boolean_index in E.
  unfold coerced in E. rewrite get_col_upd_all_other in E by exact Hb.
  destruct (get_col c (normalized t)) as [v3|]; [|discriminate].
  cbn [option_map] in E. injection E as <-.
  exists v3. split; [reflexivity|]. intros x. apply In_select.
Qed.

(** X10: a placeholder is never quarantined.  On a loaded frame (unique
    column names), in every quarantine file the column the file is named
    after holds only texts that fail to parse and that are none of the
    placeholder tokens: a cell that reads unknown, none or the empty text
    was turned into the missing marker by text normalization before the
    numeric check looks at it. *)
Theorem X10_placeholders_not_quarantined (t : DataFrame) (w : world) :
  NoDup (header t) ->
  run t = Ok w ->
  forall p file, In (p, file) (disk w) -> p <> output_path ->
    exists c v,
      In c expected_numeric_cols
      /\ p = bad_file c
      /\ get_col c file = Some v
      /\ Forall (fun x => exists s, x = Str s
                                    /\ parse_numeric s = None
                                    /\ ~ In s ("<na>" :: placeholder_vals)) v.
Proof.
  intros Hnd H p file Hin Hp.
  apply run_inv in H. destruct H as [w7 [H7 Hw]]. cbv zeta in Hw.
  destruct (cleaning_files _ H7) as (lat & lon & files & _ & _ & Hd & _ & Hq).
  cbv zeta in Hq. cbn [df disk loaded] in Hd, Hq. rewrite app_nil_l in Hd.
  rewrite Hw in Hin. unfold after in Hin. cbn [disk] in Hin.
  rewrite Hd in Hin. apply in_app_or in Hin.
  destruct Hin as [Hin|[[= <- _]|[]]]; [|congruence].
  rewrite Forall_forall in Hq.
  destruct (quarantine_of_shape (Hq _ Hin))
    as (c & v & Hc & _ & Hpf & _ & E0 & Ec & _ & _).
  cbn [fst snd] in *.
  exists c, (filter unparseable v).
  split; [exact Hc|]. split; [exact Hpf|]. split; [exact Ec|].
  destruct (get_col_before_check _ _ _ Hc E0) as (v3 & E3 & Hsub).
  rewrite get_col_normalized in E3.
  destruct (get_col c t) as [vt|] eqn:Et; [|discriminate].
  cbn [option_map] in E3. injection E3 as <-.
  apply Forall_forall. intros x Hx. apply filter_In in Hx.
  destruct Hx as [Hx Hbad].
  destruct (unparseable_text _ Hbad) as (s & -> & Hparse).
  exists s. split; [reflexivity|]. split; [exact Hparse|].
  apply Hsub, in_map_iff in Hx. destruct Hx as (y & Ey & Hy).
  pose proof (NoDup_select_dtypes_object _ Hnd) as Hnd'.
  pose proof (proj1 (NoDup_count_occ string_dec _) Hnd' c) as Hle.
  destruct (count_occ string_dec (select_dtypes_object t) c) as [|[|k]] eqn:Ek;
    [| |lia].
  - exfalso. cbn [Nat.iter] in Ey.
    destruct (is_object vt) eqn:Eo.
    + pose proof (In_select_dtypes_object _ _ Et Eo) as Hobj.
      apply (count_occ_In string_dec) in Hobj. lia.
    + pose proof (not_object_no_text _ _ Eo Hy) as Hs.
      rewrite (replace_nan_not_text _ _ Hs) in Ey. subst y. discriminate.
  - cbn [Nat.iter] in Ey. exact (normalized_text_not_placeholder _ Ey).
Qed.

(* ================================================================== *)
(** ** The numeric check, run again *)

Lemma apply_first_fixed c (f : column -> column) l v :
  assoc c l = Some v -> f v = v -> apply_first c f l = l.
Proof.
  intros E Hf. revert E.
  induction l as [|[m x] l IH]; simpl; [reflexivity|].
  destruct (String.eqb_spec m c) as [->|Hne].
  - intros [= ->]. now rewrite Hf.
  - intros E. now rewrite IH.
Qed.

Lemma upd_fixed c f t v :
  get_col c t = Some v -> f v = v -> upd c f t = t.
Proof.
  intros E Hf. unfold upd. rewrite (apply_first_fixed _ _ _ E Hf).
  now destruct t.
Qed.

Lemma to_numeric_idem x : to_numeric (to_numeric x) = to_numeric x.
Proof.
  destruct x as [|y|s]; simpl; try reflexivity.
  now destruct (parse_numeric s).
Qed.

Lemma coerced_no_invalid v :
  count_true (invalid_mask (map to_numeric v)) = 0.
Proof.
  rewrite invalid_mask_map, count_true_map.
  induction v as [|x v IH]; simpl; [reflexivity|].
  unfold unparseable at 1. rewrite to_numeric_idem.
  destruct x as [|y|s]; simpl; try exact IH.
  destruct (parse_numeric s); simpl; exact IH.
Qed.

(** One round of the check on a column that is coerced already. *)
Lemma check_numeric_coerced c w v :
  get_col c (df w) = Some (map to_numeric v) ->
  check_numeric c w = Ok (tt, w).
Proof.
  intros E. pose proof (check_numeric_present _ _ E) as Hrun.
  cbv zeta in Hrun.
  assert (He : empty (boolean_index (invalid_mask (map to_numeric v)) (df w))
               = true).
  { unfold empty, boolean_index. cbn [nrows]. now rewrite coerced_no_invalid. }
  rewrite He in Hrun. rewrite Hrun.
  rewrite (upd_fixed _ _ _ E); [now rewrite after_nil|].
  rewrite map_map. apply map_ext. intros x. apply to_numeric_idem.
Qed.

Lemma for_each_noop A (body : A -> M unit) l w :
  (forall x, In x l -> body x w = Ok (tt, w)) ->
  for_each l body w = Ok (tt, w).
Proof.
  induction l as [|x l IH]; intros H; simpl; [reflexivity|].
  rewrite (bind_run _ _ _ (H x (or_introl eq_refl))).
  apply IH. intros y Hy. apply H. now right.
Qed.

(** X11: the numeric check is idempotent.  From every state the check
    runs to a state on which running it again is a no-op: the second
    pass finds no offending cell, prints nothing, writes no file and
    leaves the frame as it is. *)
Theorem X11_type_integrity_idempotent (w : world) :
  exists w', type_integrity w = Ok (tt, w')
             /\ type_integrity w' = Ok (tt, w').
Proof.
  destruct (type_integrity_run w) as (o & f & E).
  eexists. split; [exact E|].
  unfold type_integrity. apply for_each_noop. intros c Hc.
  destruct (get_col c (df w)) as [v|] eqn:Ev.
  - apply (check_numeric_coerced c _ v). unfold after. cbn [df].
    now rewrite (@get_col_upd_all_once c expected_numeric_cols
                   (map to_numeric) (df w) NoDup_expected_numeric_cols Hc), Ev.
  - apply check_numeric_absent. unfold after. cbn [df].
    now rewrite (@get_col_upd_all_once c expected_numeric_cols
                   (map to_numeric) (df w) NoDup_expected_numeric_cols Hc), Ev.
Qed.

(* ================================================================== *)
(** ** The paths of the files *)

Lemma list_ascii_of_append s u :
  list_ascii_of_string (String.append s u)
  = list_ascii_of_string s ++ list_ascii_of_string u.
Proof. induction s as [|a s IH]; simpl; [reflexivity | now rewrite IH]. Qed.

Lemma append_inj_r s1 s2 u :
  String.append s1 u = String.append s2 u -> s1 = s2.
Proof.
  intros H. apply (f_equal list_ascii_of_string) in H.
  rewrite !list_ascii_of_append in H. apply app_inv_tail in H.
  apply (f_equal string_of_list_ascii) in H.
  now rewrite !string_of_list_ascii_of_string in H.
Qed.

Lemma append_inj_l s u1 u2 :
  String.append s u1 = String.append s u2 -> u1 = u2.
Proof.
  induction s as [|a s IH]; simpl; [auto|]. intros [= H]. auto.
Qed.

(** X12: the files of a run do not overwrite one another.  The path of
    the quarantine file of a column is never the path of the cleaned
    table, and two different columns have different quarantine paths. *)
Theorem X12_file_paths_distinct :
  (forall c, bad_file c <> output_path)
  /\ (forall c1 c2, bad_file c1 = bad_file c2 -> c1 = c2).
Proof.
  split.
  - intros c H. unfold bad_file, path_join, export_dir, sep, output_path in H.
    cbn [String.append ascii_of_nat] in H. discriminate H.
  - intros c1 c2 H. unfold bad_file, path_join in H.
    apply append_inj_l in H. apply append_inj_l in H.
    apply append_inj_l in H. now apply append_inj_r in H.
Qed.

(* ================================================================== *)
(** ** What the alignment check reports *)

Lemma value_eqb_refl a : value_eqb a a = true.
Proof. now apply value_eqb_eq. Qed.

Lemma value_eqb_neq a b : value_eqb a b = false <-> a <> b.
Proof.
  rewrite <- value_eqb_eq. destruct (value_eqb a b); split; congruence.
Qed.

Lemma unique_In x l : In x l -> In x (unique l).
Proof.
  induction l as [|a l IH]; simpl; [tauto|].
  intros [->|H]; [now left|].
  destruct (value_eqb a x) eqn:E.
  - apply value_eqb_eq in E. now left.
  - right. apply filter_In. split; [auto | now rewrite E].
Qed.

Lemma notna_true x : notna x = true <-> x <> NA.
Proof.
  destruct x; simpl; split; intros H; try reflexivity; try discriminate;
    exfalso; now apply H.
Qed.

Lemma two_of_nodup (l : column) :
  NoDup l ->
  (1 < length l <-> exists a b, In a l /\ In b l /\ a <> b).
Proof.
  intros Hnd. split.
  - destruct l as [|a [|b l]]; simpl; try lia. intros _.
    exists a, b. repeat split; auto.
    intros ->. inversion Hnd as [|? ? Hn _]; subst. apply Hn. now left.
  - intros (a & b & Ha & Hb & Hab).
    destruct l as [|x [|y l]]; simpl in *; try lia; try tauto.
    destruct Ha as [<-|[]], Hb as [<-|[]]. congruence.
Qed.

Lemma nunique_two l :
  1 < nunique l
  <-> exists a b, In a l /\ In b l /\ a <> NA /\ b <> NA /\ a <> b.
Proof.
  unfold nunique. rewrite (two_of_nodup (NoDup_unique _)). split.
  - intros (a & b & Ha & Hb & Hab).
    apply In_unique, filter_In in Ha. apply In_unique, filter_In in Hb.
    exists a, b. rewrite <- !notna_true. tauto.
  - intros (a & b & Ha & Hb & Na & Nb & Hab).
    exists a, b. rewrite <- notna_true in Na, Nb.
    repeat split; try assumption; apply unique_In, filter_In; tauto.
Qed.

Lemma In_select_rows k b (codes texts : column) :
  In b (select (map (value_eqb k) codes) texts)
  <-> exists i, nth_error codes i = Some k /\ nth_error texts i = Some b.
Proof.
  revert texts. induction codes as [|c codes IH]; intros texts; simpl.
  - split; [contradiction|]. intros [[|i] [H _]]; discriminate.
  - destruct texts as [|x texts].
    + split; [contradiction|]. intros [[|i] [_ H]]; discriminate.
    + destruct (value_eqb k c) eqn:E.
      * apply value_eqb_eq in E. subst c. simpl. rewrite IH. split.
        -- intros [<-|[i Hi]]; [now exists 0 | now exists (S i)].
        -- intros [[|i] [H1 H2]]; simpl in *.
           ++ left. congruence.
           ++ right. now exists i.
      * apply value_eqb_neq in E. rewrite IH. split.
        -- intros [i Hi]. now exists (S i).
        -- intros [[|i] [H1 H2]]; simpl in *; [congruence | now exists i].
Qed.

Lemma gt_series_max s :
  gt (series_max s) 1 = true <-> exists kn, In kn s /\ 1 < snd kn.
Proof.
  unfold series_max, gt. destruct s as [|x s].
  - split; [discriminate | intros [kn [[] _]]].
  - rewrite Nat.ltb_lt. generalize (x :: s). clear. intros l.
    induction l as [|y l IH]; simpl.
    + split; [lia | intros [kn [[] _]]].
    + split.
      * intros H. destruct (Nat.max_spec (snd y) (fold_right Nat.max 0 (map snd l)))
          as [[_ E]|[_ E]]; rewrite E in H.
        -- apply IH in H. destruct H as [kn [Hk Hn]]. exists kn. auto.
        -- exists y. auto.
      * intros [kn [[<-|Hk] Hn]]; [lia|].
        assert (1 < fold_right Nat.max 0 (map snd l))
          by (apply IH; now exists kn).
        lia.
Qed.

Lemma In_groupby_nunique k n codes texts :
  In (k, n) (groupby_nunique codes texts)
  <-> In k codes /\ k <> NA
      /\ n = nunique (select (map (value_eqb k) codes) texts).
Proof.
  unfold groupby_nunique. rewrite in_map_iff. split.
  - intros [k' [[= <- <-] Hk]]. apply In_unique, filter_In in Hk.
    rewrite notna_true in Hk. tauto.
  - intros (Hk & Hna & ->). exists k. split; [reflexivity|].
    apply unique_In, filter_In. now rewrite notna_true.
Qed.

Lemma mismatch_iff codes texts :
  gt (series_max (groupby_nunique codes texts)) 1 = true
  <-> code_with_two_labels codes texts.
Proof.
  rewrite gt_series_max. unfold code_with_two_labels. split.
  - intros [[k n] [Hin Hn]]. apply In_groupby_nunique in Hin.
    destruct Hin as (_ & Hna & ->). cbn [snd] in Hn.
    apply nunique_two in Hn.
    destruct Hn as (a & b & Ha & Hb & Na & Nb & Hab).
    apply In_select_rows in Ha, Hb.
    destruct Ha as [i [Hi1 Hi2]]. destruct Hb as [j [Hj1 Hj2]].
    exists i, j, k, a, b. tauto.
  - intros (i & j & k & a & b & Hi1 & Hi2 & Hj1 & Hj2 & Hna & Na & Nb & Hab).
    exists (k, nunique (select (map (value_eqb k) codes) texts)).
    split.
    + apply In_groupby_nunique. split; [|now split].
      eapply nth_error_In; eassumption.
    + cbn [snd]. apply nunique_two. exists a, b.
      repeat split; try assumption; apply In_select_rows; eauto.
Qed.

(** X13: when the alignment check warns.  For a code column and a label
    column that are both in the frame, [check_alignment] never raises and
    never touches the frame or the files.  It prints its two warning
    lines exactly when two rows carry the same present code with
    different present labels, and the printed table then lists the codes
    that have more than one label; otherwise - an empty frame and a frame
    whose codes are all missing included - it prints nothing. *)
Theorem X13_check_alignment_warns (t : DataFrame) (code_col text_col : string)
  (codes texts : column) (w : world) :
  get_col code_col t = Some codes ->
  get_col text_col t = Some texts ->
  exists w',
    check_alignment t code_col text_col w = Ok (tt, w')
    /\ df w' = df w /\ disk w' = disk w
    /\ ((code_with_two_labels codes texts
         /\ exists counts,
              stdout w' = stdout w ++ [MismatchIn code_col text_col;
                                       MismatchCounts counts]
              /\ forall k n, In (k, n) counts <->
                   (In k codes /\ k <> NA /\ 1 < n
                    /\ n = nunique (select (map (value_eqb k) codes) texts)))
        \/ (~ code_with_two_labels codes texts /\ stdout w' = stdout w)).
Proof.
  intros Ec Et. unfold check_alignment, getitem_of. rewrite Ec, Et.
  unfold bind at 1. unfold ret at 1. unfold bind at 1. unfold ret at 1.
  cbv zeta.
  destruct (gt (series_max (groupby_nunique codes texts)) 1) eqn:E;
    unfold when.
  - eexists. split; [reflexivity|]. cbn [df disk stdout].
    split; [reflexivity|]. split; [reflexivity|].
    left. split; [now apply mismatch_iff|].
    eexists. split; [now rewrite <- app_assoc|].
    intros k n. rewrite filter_In, In_groupby_nunique. cbn [snd].
    rewrite Nat.ltb_lt. tauto.
  - exists w. split; [reflexivity|].
    split; [reflexivity|]. split; [reflexivity|].
    right. split; [|reflexivity].
    intros H. apply mismatch_iff in H. congruence.
Qed.

(* ================================================================== *)
(** ** Columns the script does not mention *)

Lemma select_dtypes_object_In n t :
  In n (select_dtypes_object t) ->
  exists v, In (n, v) (cols t) /\ is_object v = true.
Proof.
  unfold select_dtypes_object. rewrite in_map_iff.
  intros [[m v] [<- H]]. apply filter_In in H. now exists v.
Qed.

Lemma map_replace_nan_not_object tokens v :
  is_object v = false -> map (replace_nan tokens) v = v.
Proof.
  intros H. rewrite <- (map_id v) at 2. apply map_ext_in.
  intros x Hx. apply replace_nan_not_text.
  exact (not_object_no_text _ _ H Hx).
Qed.

Lemma get_col_normalized_numeric n v t :
  NoDup (header t) -> get_col n t = Some v -> is_object v = false ->
  get_col n (normalized t) = Some v.
Proof.
  intros Hnd E Ho. rewrite get_col_normalized, E. cbn [option_map].
  assert (Hk : count_occ string_dec (select_dtypes_object t) n = 0).
  { apply count_occ_not_In. intros Hin.
    apply select_dtypes_object_In in Hin. destruct Hin as [v' [Hin Ho']].
    apply (In_get_col _ _ _ Hnd) in Hin. congruence. }
  rewrite Hk. cbn [Nat.iter]. f_equal.
  now apply map_replace_nan_not_object.
Qed.

Lemma listed_cols_split n :
  ~ In n listed_cols ->
  ~ In n binary_cols
  /\ String.eqb "city" n = false /\ String.eqb "provstate" n = false
  /\ mem n expected_numeric_cols = false
  /\ mem n unwanted_cols = false
  /\ mem n (map fst rename_map) = false
  /\ mem n (map snd rename_map) = false.
Proof.
  unfold listed_cols. intros H.
  assert (H1 : ~ In n binary_cols) by (intros X; apply H; apply in_or_app; auto).
  assert (H2 : ~ In n ["city"; "provstate"]).
  { intros X. apply H. apply in_or_app. right. apply in_or_app. auto. }
  assert (H3 : ~ In n expected_numeric_cols).
  { intros X. apply H. do 2 (apply in_or_app; right). apply in_or_app. auto. }
  assert (H4 : ~ In n unwanted_cols).
  { intros X. apply H. do 3 (apply in_or_app; right). apply in_or_app. auto. }
  assert (H5 : ~ In n (map fst rename_map)).
  { intros X. apply H. do 4 (apply in_or_app; right). apply in_or_app. auto. }
  assert (H6 : ~ In n (map snd rename_map)).
  { intros X. apply H. do 5 (apply in_or_app; right). exact X. }
  split; [exact H1|].
  split.
  { destruct (String.eqb_spec "city" n) as [E|]; [|reflexivity].
    exfalso. apply H2. left. exact E. }
  split.
  { destruct (String.eqb_spec "provstate" n) as [E|]; [|reflexivity].
    exfalso. apply H2. right. left. exact E. }
  repeat split; now apply mem_not_In.
Qed.

(** X14: what the script does not mention, it does not change.  On a
    loaded frame (unique column names) all columns lose the same rows.  A
    column that holds no text and whose name occurs in none of the
    script's lists reaches the exported table with its cells exactly as
    they were loaded, minus the dropped rows - unless it is reported as
    sparse, in which case it is absent. *)
Theorem X14_unlisted_numeric_column_unchanged (t : DataFrame) (w : world) :
  NoDup (header t) ->
  run t = Ok w ->
  exists out mask sparse,
    cleaned_file w = Some out
    /\ count_true mask = nrows out
    /\ In (DroppingSparse sparse) (stdout w)
    /\ forall n v,
         get_col n t = Some v -> is_object v = false -> ~ In n listed_cols ->
         get_col n out
         = if mem n sparse then None else Some (select mask v).
Proof.
  intros Hnd H.
  destruct (run_spec _ H)
    as (t3 & lat & lon & t7 & t9 & out & o & f & Et3 & _ & _ & _ & _ & _
        & Et7 & Et9 & Eout & _ & ->).
  exists out, (keep_mask lat lon (nrows t3)), (sparse_cols t9).
  split; [apply cleaned_file_last|].
  split; [rewrite Eout, Et9, Et7; symmetry; apply nrows_output|].
  split.
  { cbn [stdout]. right. right. apply in_or_app. right. now left. }
  intros n v E Ho Hn.
  destruct (listed_cols_split Hn) as (Hb & Hc & Hp & He & Hu & Hk & Hv).
  assert (G3 : get_col n t3 = Some v).
  { rewrite Et3. unfold coerced.
    rewrite get_col_upd_all_other by exact Hb.
    now apply get_col_normalized_numeric. }
  rewrite Eout. unfold thinned. rewrite get_col_drop_columns.
  destruct (mem n (sparse_cols t9)); [reflexivity|].
  rewrite Et9, get_col_pruned by assumption.
  rewrite Et7, get_col_checked_filled by assumption.
  unfold filtered. now rewrite get_col_boolean_index, G3.
Qed.

(* ================================================================== *)
(** ** Text normalization, applied twice *)

Lemma lower_char_idem a : lower_char (lower_char a) = lower_char a.
Proof. destruct a as [[] [] [] [] [] [] [] []]; vm_compute; reflexivity. Qed.

Lemma is_space_lower_char a : is_space (lower_char a) = is_space a.
Proof. destruct a as [[] [] [] [] [] [] [] []]; vm_compute; reflexivity. Qed.

Lemma lower_idem s : lower (lower s) = lower s.
Proof.
  induction s as [|a r IH]; simpl; [reflexivity|].
  now rewrite lower_char_idem, IH.
Qed.

Lemma lstrip_lower s : lstrip (lower s) = lower (lstrip s).
Proof.
  induction s as [|a r IH]; simpl; [reflexivity|].
  rewrite is_space_lower_char. now destruct (is_space a).
Qed.

Lemma rstrip_lower s : rstrip (lower s) = lower (rstrip s).
Proof.
  induction s as [|a r IH]; simpl; [reflexivity|].
  rewrite IH, is_space_lower_char.
  destruct (rstrip r) as [|b r']; simpl; [|reflexivity].
  now destruct (is_space a).
Qed.

Lemma strip_lower s : strip (lower s) = lower (strip s).
Proof. unfold strip. now rewrite rstrip_lower, lstrip_lower. Qed.

Lemma lstrip_idem s : lstrip (lstrip s) = lstrip s.
Proof.
  induction s as [|a r IH]; simpl; [reflexivity|].
  destruct (is_space a) eqn:E; [exact IH|]. simpl. now rewrite E.
Qed.

Lemma rstrip_idem s : rstrip (rstrip s) = rstrip s.
Proof.
  induction s as [|a r IH]; simpl; [reflexivity|].
  destruct (rstrip r) as [|b r'] eqn:E.
  - destruct (is_space a) eqn:Ea; simpl; [reflexivity|]. now rewrite Ea.
  - change (rstrip (String a (String b r'))) with
      (match rstrip (String b r') with
       | EmptyString => if is_space a then EmptyString else String a EmptyString
       | String c r'' => String a (String c r'')
       end).
    now rewrite IH.
Qed.

(** Trimming on the left leaves a right-trimmed text right-trimmed. *)
Lemma rstrip_lstrip s : rstrip s = s -> rstrip (lstrip s) = lstrip s.
Proof.
  induction s as [|a r IH]; intros H; [reflexivity|].
  simpl lstrip. destruct (is_space a) eqn:Ea; [|exact H].
  apply IH. simpl in H. rewrite Ea in H.
  destruct (rstrip r) as [|b r']; [discriminate|]. now injection H.
Qed.

Lemma strip_idem s : strip (strip s) = strip s.
Proof.
  unfold strip.
  rewrite (@rstrip_lstrip (rstrip s)) by apply rstrip_idem.
  apply lstrip_idem.
Qed.

(** A lowercased, trimmed text is its own lowercased, trimmed form. *)
Lemma strip_lower_idem s :
  strip (lower (strip (lower s))) = strip (lower s).
Proof. now rewrite <- strip_lower, strip_idem, lower_idem. Qed.

Lemma normalize_cell_text y :
  normalize_cell y = NA
  \/ exists u, normalize_cell y = Str u /\ strip (lower u) = u
               /\ mem u placeholder_vals = false.
Proof.
  unfold normalize_cell.
  assert (Ht : exists s, str_strip (str_lower (astype_str y))
                         = Str (strip (lower s)))
    by (destruct y as [|x|s];
        [exists "nan" | exists (num_str x) | exists s]; reflexivity).
  destruct Ht as [s ->]. unfold replace_nan.
  destruct (mem (strip (lower s)) placeholder_vals) eqn:Ep; [now left|].
  right. exists (strip (lower s)). split; [reflexivity|].
  split; [apply strip_lower_idem | exact Ep].
Qed.

Lemma normalize_cell_fixed u :
  strip (lower u) = u -> mem u placeholder_vals = false ->
  normalize_cell (Str u) = Str u.
Proof.
  intros Hu Hp. unfold normalize_cell.
  cbn [astype_str str_lower str_strip replace_nan]. now rewrite Hu, Hp.
Qed.

(** One pass of the loop body and of the frame-wide replacement on a
    cell of a text column. *)
Definition clean_cell (y : value) : value :=
  replace_nan ["<na>"; "nan"] (normalize_cell y).

Lemma clean_cell_idem y : clean_cell (clean_cell y) = clean_cell y.
Proof.
  unfold clean_cell.
  destruct (normalize_cell_text y) as [E|[u [E [Hu Hp]]]]; rewrite E.
  - reflexivity.
  - unfold replace_nan at 2 3.
    destruct (mem u ["<na>"; "nan"]) eqn:En; [reflexivity|].
    rewrite (normalize_cell_fixed Hu Hp). unfold replace_nan. now rewrite En.
Qed.

Lemma count_select_dtypes_object n v t :
  NoDup (header t) -> get_col n t = Some v ->
  count_occ string_dec (select_dtypes_object t) n
  = if is_object v then 1 else 0.
Proof.
  intros Hnd E. destruct (is_object v) eqn:Ho.
  - pose proof (NoDup_select_dtypes_object _ Hnd) as Hnd'.
    pose proof (In_select_dtypes_object _ _ E Ho) as Hin.
    pose proof (proj1 (NoDup_count_occ string_dec _) Hnd' n).
    pose proof (proj1 (count_occ_In string_dec _ n) Hin). lia.
  - apply count_occ_not_In. intros Hin.
    apply select_dtypes_object_In in Hin. destruct Hin as [v' [Hin Ho']].
    apply (In_get_col _ _ _ Hnd) in Hin. congruence.
Qed.

(** What text normalization makes of a column. *)
Lemma get_col_normalized_cases n v t :
  NoDup (header t) -> get_col n t = Some v ->
  get_col n (normalized t)
  = Some (if is_object v then map clean_cell v else v).
Proof.
  intros Hnd E. rewrite get_col_normalized, E. cbn [option_map].
  rewrite (@count_select_dtypes_object n v t Hnd E).
  destruct (is_object v) eqn:Ho; [reflexivity|].
  cbn [Nat.iter]. f_equal. now apply map_replace_nan_not_object.
Qed.

Lemma assoc_ext (l1 l2 : list (string * column)) :
  map fst l1 = map fst l2 -> NoDup (map fst l1) ->
  (forall n, assoc n l1 = assoc n l2) -> l1 = l2.
Proof.
  revert l2. induction l1 as [|[n v] l1 IH]; intros [|[m u] l2] Hh Hnd Ha;
    try discriminate; [reflexivity|].
  simpl in Hh. injection Hh as <- Hh.
  inversion Hnd as [|? ? Hn Hnd']; subst.
  pose proof (Ha n) as Hv. simpl in Hv. rewrite String.eqb_refl in Hv.
  injection Hv as <-. f_equal. apply IH; [exact Hh | exact Hnd'|].
  intros k. pose proof (Ha k) as Hk. simpl in Hk.
  destruct (String.eqb_spec n k) as [Enk|Hne]; [|exact Hk].
  subst k. destruct (assoc n l1) eqn:E1.
  { exfalso. apply Hn. apply assoc_header. congruence. }
  destruct (assoc n l2) eqn:E2; [|reflexivity].
  exfalso. apply Hn. rewrite Hh. apply assoc_header. congruence.
Qed.

(** Two frames with the same unique header, the same number of rows and
    the same column under every name are the same frame. *)
Lemma frame_ext (t1 t2 : DataFrame) :
  nrows t1 = nrows t2 -> header t1 = header t2 -> NoDup (header t1) ->
  (forall n, get_col n t1 = get_col n t2) -> t1 = t2.
Proof.
  destruct t1 as [r1 c1], t2 as [r2 c2]. unfold header, get_col.
  cbn [nrows cols]. intros -> Hh Hnd Hg. f_equal.
  now apply assoc_ext.
Qed.

Lemma nrows_normalized t : nrows (normalized t) = nrows t.
Proof. unfold normalized, replace_frame. cbn [nrows]. apply nrows_upd_all. Qed.

Lemma normalized_idem t :
  NoDup (header t) -> normalized (normalized t) = normalized t.
Proof.
  intros Hnd.
  assert (Hnd' : NoDup (header (normalized t)))
    by now rewrite header_normalized.
  apply frame_ext; [| |now rewrite header_normalized|].
  - apply nrows_normalized.
  - apply header_normalized.
  - intros n. destruct (get_col n t) as [v|] eqn:E.
    + pose proof (@get_col_normalized_cases n v t Hnd E) as E1.
      rewrite (@get_col_normalized_cases n _ (normalized t) Hnd' E1), E1. f_equal.
      destruct (is_object v) eqn:Ho.
      * destruct (is_object (map clean_cell v)); [|reflexivity].
        rewrite map_map. apply map_ext. intros. apply clean_cell_idem.
      * now rewrite Ho.
    + assert (G : get_col n (normalized t) = None)
        by (rewrite get_col_normalized, E; reflexivity).
      rewrite G. destruct (get_col n (normalized (normalized t))) eqn:G'; [|reflexivity].
      exfalso. assert (X : get_col n (normalized (normalized t)) <> None) by congruence.
      apply get_col_header in X. rewrite header_normalized in X.
      apply get_col_header in X. congruence.
Qed.

(** X15: text normalization is idempotent.  On a frame with unique
    column names the step always runs, keeps console and files, and
    leaves a frame on which running it again changes nothing: every text
    it keeps is already lowercase and trimmed, every placeholder is
    already the missing marker, and a column it emptied of text is no
    longer picked up. *)
Theorem X15_text_normalization_idempotent (w : world) :
  NoDup (header (df w)) ->
  exists w',
    text_normalization w = Ok (tt, w')
    /\ stdout w' = stdout w /\ disk w' = disk w
    /\ text_normalization w' = Ok (tt, w').
Proof.
  intros Hnd. rewrite text_normalization_run.
  eexists. split; [reflexivity|].
  split; [reflexivity|]. split; [reflexivity|].
  rewrite text_normalization_run. unfold with_df. cbn [df initial_rows stdout disk].
  fold (normalized (df w)). fold (normalized (normalized (df w))).
  now rewrite normalized_idem.
Qed.
End Cleaner.

Notation "x <- m ;; k" := (bind m (fun x => k))
  (at level 61, m at next level, right associativity).
Notation "m ;; k" := (bind m (fun _ => k))
  (at level 61, right associativity).

(* ================================================================== *)
(** ** A concrete number interface and sample frames, for running the model *)

Module Sample.

(** Decimal integers with an optional minus sign: a small stand-in for
    pandas' parser, used only to evaluate the model on sample frames. *)
Fixpoint digits (s : string) (acc : Z) : option Z :=
  match s with
  | EmptyString => Some acc
  | String a r =>
      let n := nat_of_ascii a in
      if (48 <=? n) && (n <=? 57)
      then digits r (10 * acc + Z.of_nat (n - 48))%Z
      else None
  end.

Definition parse_int (s : string) : option Z :=
  match s with
  | EmptyString => None
  | String a r =>
      if Ascii.eqb a "-"
      then match r with
           | EmptyString => None
           | _ => option_map Z.opp (digits r 0%Z)
           end
      else digits s 0%Z
  end.

Fixpoint show_pos (fuel : nat) (n : nat) (acc : string) : string :=
  match fuel with
  | 0 => acc
  | S fuel' =>
      let acc' := String (ascii_of_nat (48 + n mod 10)) acc in
      if n / 10 =? 0 then acc' else show_pos fuel' (n / 10) acc'
  end.

Definition show_int (z : Z) : string :=
  let n := Z.abs_nat z in
  let s := show_pos (S n) n EmptyString in
  if (z <? 0)%Z then String "-" s else s.

Lemma int_eqb_eq (x y : Z) : Z.eqb x y = true <-> x = y.
Proof. apply Z.eqb_eq. Qed.

#[export] Instance IntNumeric : Numeric Z := {|
  num_eqb := Z.eqb;
  num_eqb_eq := int_eqb_eq;
  parse_numeric := parse_int;
  num_str := show_int
|}.

Definition na3 : @column Z := [NA; NA; NA].

(** Three incidents; the second has no latitude, and all three carry
    the same unparseable kill count. *)
Definition incidents : @DataFrame Z :=
  mkDF 3
    [("latitude", [Num 41%Z; NA; Num 12%Z]);
     ("longitude", [Num 2%Z; Num 33%Z; Num 15%Z]);
     ("city", [Str " Unknown "; Str "Rome"; NA]);
     ("provstate", [Str "N/a"; Str "Lazio"; Str "none"]);
     ("claimed", [Str "1"; Str "0"; Str "yes"]);
     ("ishostkid", [Num 0%Z; Num 0%Z; Num 1%Z]);
     ("INT_ANY", [Str "x"; NA; Num 1%Z]);
     ("INT_MISC", na3);
     ("INT_IDEO", na3);
     ("INT_LOG", [Num 0%Z; Num 1%Z; Num 0%Z]);
     ("property", [Num 1%Z; Num 1%Z; Num 0%Z]);
     ("doubtterr", [Num 0%Z; Num 0%Z; Num 0%Z]);
     ("vicinity", [Num 0%Z; Num 0%Z; Num 1%Z]);
     ("iyear", [Num 1970%Z; Num 1971%Z; Num 1972%Z]);
     ("nkill", [Str "several"; Str "several"; Str "several"]);
     ("country", [Num 98%Z; Num 98%Z; Num 98%Z]);
     ("country_txt", [Str "Italy"; Str "Italy"; Str "Italia"]);
     ("resolution", na3)].

(** The same incidents without the column [claimed]. *)
Definition without_claimed : @DataFrame Z :=
  drop_columns ["claimed"] incidents.

(** The same incidents without the column [city]. *)
Definition without_city : @DataFrame Z :=
  drop_columns ["city"] incidents.

(** One text column holding a differently-cased n/a. *)
Definition one_city : @DataFrame Z :=
  mkDF 1 [("city", [Str "N/a"])].

(** A text column that also holds a number and a missing cell. *)
Definition mixed_city : @DataFrame Z :=
  mkDF 3 [("city", [Num 5%Z; Str " Rome "; NA])].

(** The incidents again, with a column that already bears the name the
    rename map gives to [iyear]. *)
Definition colliding : @DataFrame Z :=
  mkDF 3 (cols incidents ++ [("year", [Num 1%Z; Num 2%Z; Num 3%Z])]).

(** The world the script leaves behind on [incidents]. *)
Definition incidents_world : @world Z :=
  Eval vm_compute in
    match run incidents with
    | Ok w => w
    | KeyError _ => loaded incidents
    end.

End Sample.


(* ================================================================== *)
(** ** The theorems at work on the sample frames *)

Module Witness.

Import Sample.

Lemma incidents_header_NoDup : NoDup (header incidents).
Proof. apply nodupb_sound. reflexivity. Defined.

Lemma incidents_rectangular : rectangular incidents.
Proof. unfold rectangular. repeat constructor. Defined.

Lemma incidents_run : run incidents = Ok incidents_world.
Proof. vm_compute. reflexivity. Defined.

Lemma C1_witness :
  NoDup (header incidents) /\ run incidents = Ok incidents_world /\
  exists out lat lon,
    cleaned_file incidents_world = Some out
    /\ get_col "latitude" out = Some lat
    /\ get_col "longitude" out = Some lon
    /\ length lat = nrows out
    /\ length lon = nrows out
    /\ Forall (fun x => isna x = false) lat
    /\ Forall (fun x => isna x = false) lon.
Proof.
  split; [exact incidents_header_NoDup|].
  split; [exact incidents_run|].
  exact (@C1_latlon_present_in_output Z IntNumeric incidents incidents_world
           incidents_header_NoDup incidents_run).
Defined.

Lemma C2_witness :
  rectangular incidents /\ run incidents = Ok incidents_world /\
  exists w3 out,
    exec before_filter (loaded incidents) = Ok w3
    /\ cleaned_file incidents_world = Some out
    /\ nrows (df w3) = nrows incidents
    /\ rectangular (df w3)
    /\ nrows out = nrows incidents - rows_missing_latlon (df w3)
    /\ (forall n v, In (n, v) (cols out) ->
          length v = nrows incidents - rows_missing_latlon (df w3))
    /\ rows_missing_latlon (df w3) <= nrows incidents
    /\ In (RowsDroppedLatLon (rows_missing_latlon (df w3)))
          (stdout incidents_world)
    /\ In (FinalRows (nrows out)) (stdout incidents_world)
    /\ In (TotalRowsDropped (Z.of_nat (nrows incidents) - Z.of_nat (nrows out)))
          (stdout incidents_world)
    /\ forall s w1 w2, In s row_keeping_steps ->
         s w1 = Ok (tt, w2) ->
         nrows (df w2) = nrows (df w1)
         /\ (rectangular (df w1) -> rectangular (df w2)).
Proof.
  split; [exact incidents_rectangular|].
  split; [exact incidents_run|].
  exact (@C2_final_row_count Z IntNumeric incidents incidents_world
           incidents_rectangular incidents_run).
Defined.

Lemma claimed_is_binary : In "claimed" (binary_cols ++ ["city"; "provstate"]).
Proof. simpl. auto. Defined.

Lemma without_claimed_header : ~ In "claimed" (header without_claimed).
Proof. apply mem_not_In. reflexivity. Defined.

Lemma C3_witness :
  In "claimed" (binary_cols ++ ["city"; "provstate"])
  /\ ~ In "claimed" (header without_claimed)
  /\ exists c', run without_claimed = KeyError c'.
Proof.
  split; [exact claimed_is_binary|].
  split; [exact without_claimed_header|].
  exact (@C3_absent_column_raises Z IntNumeric without_claimed "claimed"
           claimed_is_binary without_claimed_header).
Defined.

(** Where the run on the frame without [claimed] ends, and likewise
    without [city]. *)
Example run_without_claimed : run without_claimed = KeyError "claimed".
Proof. vm_compute. reflexivity. Qed.

Example run_without_city : run without_city = KeyError "city".
Proof. vm_compute. reflexivity. Qed.

Lemma nkill_is_checked : In "nkill" expected_numeric_cols.
Proof. simpl. auto 10. Defined.

Lemma nkill_of_incidents :
  get_col "nkill" (df (loaded incidents))
  = Some [Str "several"; Str "several"; Str "several"].
Proof. reflexivity. Defined.

Lemma nkill_unparseable :
  existsb unparseable [Str "several"; Str "several"; Str "several"] = true.
Proof. vm_compute. reflexivity. Defined.

Lemma C4_witness :
  let c := "nkill" in
  let w := loaded incidents in
  let v : @column Z := [Str "several"; Str "several"; Str "several"] in
  exists w' file preview,
    check_numeric c w = Ok (tt, w')
    /\ disk w' = disk w ++ [(bad_file c, file)]
    /\ header file = header (df w)
    /\ (forall n, get_col n file
                  = option_map (select (map unparseable v)) (get_col n (df w)))
    /\ get_col c file = Some (filter unparseable v)
    /\ nrows file = length (filter unparseable v)
    /\ stdout w' = stdout w ++ [NonNumericFound c; Preview preview;
                                Saved (bad_file c)]
    /\ preview = firstn 10 (unique (filter unparseable v))
    /\ NoDup preview
    /\ (forall x, In x preview -> In x v /\ unparseable x = true)
    /\ get_col c (df w') = Some (map to_numeric v)
    /\ Forall numeric_or_missing (map to_numeric v)
    /\ header (df w') = header (df w)
    /\ nrows (df w') = nrows (df w)
    /\ (forall n, n <> c -> get_col n (df w') = get_col n (df w)).
Proof.
  exact (@C4_quarantine_holds_every_bad_row Z IntNumeric "nkill"
           (loaded incidents) _ nkill_is_checked nkill_of_incidents
           nkill_unparseable).
Defined.

(** C4 as the spec words it fails: the three incidents carry one and the
    same unparseable kill count, two of them pass the geolocation filter,
    and the quarantine file of [nkill] holds both rows - two exported
    rows for one distinct offending value. *)
Lemma C4_counterexample :
  exists w file vals,
    run incidents = Ok w
    /\ read_file (bad_file "nkill") w = Some file
    /\ nrows file = 2
    /\ get_col "nkill" file = Some vals
    /\ vals = [Str "several"; Str "several"]
    /\ ~ NoDup vals.
Proof.
  exists incidents_world. eexists. eexists.
  split; [exact incidents_run|].
  split; [vm_compute; reflexivity|].
  split; [reflexivity|].
  split; [reflexivity|].
  split; [reflexivity|].
  intros H. inversion H as [|x l Hx _]; subst. apply Hx. now left.
Qed.

Lemma C5_witness :
  NoDup (header incidents) /\ run incidents = Ok incidents_world /\
  exists w7 out,
    exec (cleaning binary_cols) (loaded incidents) = Ok w7
    /\ cleaned_file incidents_world = Some out
    /\ header (df w7) = header incidents
    /\ (forall c v, In c expected_numeric_cols ->
          In (c, v) (cols (df w7)) -> Forall numeric_or_missing v)
    /\ (forall n' v, In (n', v) (cols out) ->
          exists n, n' = rename_col n /\ In (n, v) (cols (df w7))).
Proof.
  split; [exact incidents_header_NoDup|].
  split; [exact incidents_run|].
  exact (@C5_checked_columns_are_numeric Z IntNumeric incidents
           incidents_world incidents_header_NoDup incidents_run).
Defined.

Lemma C6_witness :
  run incidents = Ok incidents_world /\
  exists w9 out,
    exec before_sparsity (loaded incidents) = Ok w9
    /\ cleaned_file incidents_world = Some out
    /\ In (DroppingSparse (sparse_cols (df w9))) (stdout incidents_world)
    /\ nrows out = nrows (df w9)
    /\ (forall n v, In (n, v) (cols (df w9)) ->
          ge (null_mean v) (8 # 10)%Q = true ->
          In n (sparse_cols (df w9)) /\ ~ In n (header out))
    /\ (forall n v, In (n, v) (cols out) ->
          In (n, v) (cols (df w9))
          /\ ge (null_mean v) (8 # 10)%Q = false
          /\ (length v = 0 \/ 10 * count_na v < 8 * length v)).
Proof.
  split; [exact incidents_run|].
  exact (@C6_no_sparse_column_exported Z IntNumeric incidents incidents_world
           incidents_run).
Defined.

Lemma one_city_header_NoDup : NoDup (header (df (loaded one_city))).
Proof. apply nodupb_sound. reflexivity. Defined.

Lemma C7_witness :
  NoDup (header (df (loaded one_city))) /\
  exists w',
    text_normalization (loaded one_city) = Ok (tt, w')
    /\ header (df w') = header (df (loaded one_city))
    /\ (forall n v, get_col n (df (loaded one_city)) = Some v ->
          is_object v = true ->
          exists v',
            get_col n (df w') = Some v'
            /\ Forall2 (fun a b =>
                          exists s,
                            astype_str a = Str s
                            /\ b = if mem (strip (lower s))
                                          ("<na>" :: placeholder_vals)
                                   then NA else Str (strip (lower s))) v v')
    /\ placeholder_vals
       = ["unknown"; "not applicable"; "unk"; "none"; "nan"; ""]
    /\ mem "n/a" ("<na>" :: placeholder_vals) = false.
Proof.
  split; [exact one_city_header_NoDup|].
  exact (@C7_placeholders_become_missing Z IntNumeric (loaded one_city)
           one_city_header_NoDup).
Defined.

(** C7 as the spec words it fails: the text N/a matches the spec's token
    n/a case-insensitively, yet the step leaves it in the column as the
    text n/a instead of the missing marker. *)
Lemma C7_counterexample :
  exists w' v,
    text_normalization (loaded one_city) = Ok (tt, w')
    /\ get_col "city" (df (loaded one_city)) = Some [Str "N/a"]
    /\ lower "N/a" = "n/a"
    /\ get_col "city" (df w') = Some v
    /\ v = [Str "n/a"]
    /\ v <> [NA].
Proof.
  eexists. eexists.
  split; [vm_compute; reflexivity|].
  split; [reflexivity|].
  split; [reflexivity|].
  split; [reflexivity|].
  split; [reflexivity|].
  discriminate.
Qed.

(** In a text column a number is rendered as text, and a missing cell
    stays missing. *)
Example number_in_text_column :
  exists w',
    text_normalization (loaded mixed_city) = Ok (tt, w')
    /\ get_col "city" (df w') = Some [Str "5"; Str "rome"; NA].
Proof. eexists. split; [vm_compute; reflexivity | reflexivity]. Qed.

Lemma C10_witness :
  run incidents = Ok incidents_world /\
  exists out,
    cleaned_file incidents_world = Some out
    /\ (forall c, In c dropped_binary_cols ->
          In c binary_cols /\ In c unwanted_cols /\ ~ In c (header out))
    /\ exists w',
         exec (script_with kept_binary_cols) (loaded incidents) = Ok w'
         /\ cleaned_file w' = Some out.
Proof.
  split; [exact incidents_run|].
  exact (@C10_dropped_binary_cols_unobservable Z IntNumeric incidents
           incidents_world incidents_run).
Defined.

Lemma without_claimed_first_missing :
  first_missing required_cols without_claimed = Some "claimed".
Proof. reflexivity. Defined.

Lemma X1_witness :
  first_missing required_cols without_claimed = Some "claimed"
  /\ run without_claimed = KeyError "claimed".
Proof.
  split; [exact without_claimed_first_missing|].
  exact (@X1_run_raises_first_missing Z IntNumeric without_claimed "claimed"
           without_claimed_first_missing).
Defined.

Lemma X3_witness :
  run incidents = Ok incidents_world /\
  exists out sparse,
    cleaned_file incidents_world = Some out
    /\ In (DroppingSparse sparse) (stdout incidents_world)
    /\ header out
       = filter (fun n => negb (mem n unwanted_cols) && negb (mem n sparse))
                (map rename_col (header incidents)).
Proof.
  split; [exact incidents_run|].
  exact (@X3_exported_header Z IntNumeric incidents incidents_world
           incidents_run).
Defined.

Lemma X4_witness :
  run incidents = Ok incidents_world /\
  exists out,
    cleaned_file incidents_world = Some out
    /\ forall k, In k (map fst rename_map) -> ~ In k (header out).
Proof.
  split; [exact incidents_run|].
  exact (@X4_raw_codes_not_exported Z IntNumeric incidents incidents_world
           incidents_run).
Defined.

Lemma X5_witness :
  NoDup (header incidents) /\ run incidents = Ok incidents_world /\
  exists out city provstate,
    cleaned_file incidents_world = Some out
    /\ get_col "city" out = Some city
    /\ get_col "provstate" out = Some provstate
    /\ Forall (fun x => isna x = false) city
    /\ Forall (fun x => isna x = false) provstate.
Proof.
  split; [exact incidents_header_NoDup|].
  split; [exact incidents_run|].
  exact (@X5_city_provstate_complete Z IntNumeric incidents incidents_world
           incidents_header_NoDup incidents_run).
Defined.

Lemma X6_witness :
  run incidents = Ok incidents_world /\
  exists out,
    cleaned_file incidents_world = Some out
    /\ forall t' : @DataFrame Z, header t' = header out ->
         exists c, In c binary_cols /\ run t' = KeyError c.
Proof.
  split; [exact incidents_run|].
  exact (@X6_rerun_on_export_raises Z IntNumeric incidents incidents_world
           incidents_run).
Defined.

Lemma X7_witness :
  rectangular incidents /\ run incidents = Ok incidents_world /\
  exists out, cleaned_file incidents_world = Some out /\ rectangular out.
Proof.
  split; [exact incidents_rectangular|].
  split; [exact incidents_run|].
  exact (@X7_export_is_rectangular Z IntNumeric incidents incidents_world
           incidents_rectangular incidents_run).
Defined.

Lemma incidents_collision_free : rename_collision_free incidents.
Proof.
  intros k v Hkv _. apply mem_not_In.
  unfold rename_map in Hkv. cbn [In] in Hkv.
  repeat (destruct Hkv as [Hkv|Hkv]; [injection Hkv as <- <-; reflexivity|]).
  destruct Hkv.
Defined.

Lemma X8_witness :
  NoDup (header incidents) /\ rename_collision_free incidents
  /\ run incidents = Ok incidents_world /\
  exists out, cleaned_file incidents_world = Some out /\ NoDup (header out).
Proof.
  split; [exact incidents_header_NoDup|].
  split; [exact incidents_collision_free|].
  split; [exact incidents_run|].
  exact (@X8_export_header_unique Z IntNumeric incidents incidents_world
           incidents_header_NoDup incidents_collision_free incidents_run).
Defined.

(** Without the precondition of X8 the names do collide: a frame that
    holds both [iyear] and [year] is exported with two columns named
    [year]. *)
Example renaming_collides :
  exists w out,
    run colliding = Ok w
    /\ cleaned_file w = Some out
    /\ NoDup (header colliding)
    /\ ~ NoDup (header out).
Proof.
  destruct (run colliding) as [w|c] eqn:E; [|vm_compute in E; discriminate].
  exists w. vm_compute in E. injection E as <-.
  eexists. split; [reflexivity|]. split; [reflexivity|].
  split; [apply nodupb_sound; reflexivity|].
  intros H. apply (proj1 (NoDup_count_occ string_dec _)) with (x := "year")
    in H.
  vm_compute in H. lia.
Qed.

Lemma X9_witness :
  run incidents = Ok incidents_world /\
  exists files out,
    disk incidents_world = files ++ [(output_path, out)]
    /\ cleaned_file incidents_world = Some out
    /\ length files <= 16
    /\ forall p file, In (p, file) files ->
         exists c v,
           In c expected_numeric_cols
           /\ In c (header incidents)
           /\ p = bad_file c
           /\ header file = header incidents
           /\ get_col c file = Some v
           /\ nrows file = length v
           /\ 0 < length v
           /\ Forall (fun x => unparseable x = true) v.
Proof.
  split; [exact incidents_run|].
  exact (@X9_files_written Z IntNumeric incidents incidents_world
           incidents_run).
Defined.

Lemma X10_witness :
  NoDup (header incidents) /\ run incidents = Ok incidents_world /\
  forall p file, In (p, file) (disk incidents_world) -> p <> output_path ->
    exists c v,
      In c expected_numeric_cols
      /\ p = bad_file c
      /\ get_col c file = Some v
      /\ Forall (fun x => exists s, x = Str s
                                    /\ parse_numeric s = None
                                    /\ ~ In s ("<na>" :: placeholder_vals)) v.
Proof.
  split; [exact incidents_header_NoDup|].
  split; [exact incidents_run|].
  exact (@X10_placeholders_not_quarantined Z IntNumeric incidents
           incidents_world incidents_header_NoDup incidents_run).
Defined.

Lemma country_of_incidents :
  get_col "country" incidents = Some [Num 98%Z; Num 98%Z; Num 98%Z].
Proof. reflexivity. Defined.

Lemma country_txt_of_incidents :
  get_col "country_txt" incidents
  = Some [Str "Italy"; Str "Italy"; Str "Italia"].
Proof. reflexivity. Defined.

Lemma X13_witness :
  let codes : @column Z := [Num 98%Z; Num 98%Z; Num 98%Z] in
  let texts : @column Z := [Str "Italy"; Str "Italy"; Str "Italia"] in
  let w := loaded incidents in
  exists w',
    check_alignment incidents "country" "country_txt" w = Ok (tt, w')
    /\ df w' = df w /\ disk w' = disk w
    /\ ((code_with_two_labels codes texts
         /\ exists counts,
              stdout w' = stdout w ++ [MismatchIn "country" "country_txt";
                                       MismatchCounts counts]
              /\ forall k n, In (k, n) counts <->
                   (In k codes /\ k <> NA /\ 1 < n
                    /\ n = nunique (select (map (value_eqb k) codes) texts)))
        \/ (~ code_with_two_labels codes texts /\ stdout w' = stdout w)).
Proof.
  exact (@X13_check_alignment_warns Z IntNumeric incidents "country"
           "country_txt" _ _ (loaded incidents) country_of_incidents
           country_txt_of_incidents).
Defined.

Lemma X14_witness :
  NoDup (header incidents) /\ run incidents = Ok incidents_world /\
  exists out mask sparse,
    cleaned_file incidents_world = Some out
    /\ count_true mask = nrows out
    /\ In (DroppingSparse sparse) (stdout incidents_world)
    /\ forall n v,
         get_col n incidents = Some v -> is_object v = false ->
         ~ In n listed_cols ->
         get_col n out
         = if mem n sparse then None else Some (select mask v).
Proof.
  split; [exact incidents_header_NoDup|].
  split; [exact incidents_run|].
  exact (@X14_unlisted_numeric_column_unchanged Z IntNumeric incidents
           incidents_world incidents_header_NoDup incidents_run).
Defined.

Lemma X15_witness :
  NoDup (header (df (loaded incidents))) /\
  exists w',
    text_normalization (loaded incidents) = Ok (tt, w')
    /\ stdout w' = stdout (loaded incidents)
    /\ disk w' = disk (loaded incidents)
    /\ text_normalization w' = Ok (tt, w').
Proof.
  split; [exact incidents_header_NoDup|].
  exact (@X15_text_normalization_idempotent Z IntNumeric (loaded incidents)
           incidents_header_NoDup).
Defined.

End Witness.
